(* ===== verification/_CoqProject ===== *)
-Q . S2P
Prelude.v
Utf8.v
PyFloat.v
RowMapper.v
CsvWriter.v
CsvReader.v
Converter.v
Roundtrip.v
