(* ===== verification/Prelude.v ===== *)
(** * A verification of kicad_to_yy1_csv: KiCad position file to Neoden YY1 CSV

    The program is the single Python script
    [src/convert_kicad_to_yy1.py].  Its function
    [convert_csv_to_neoden(csv_file_path, output_file_path)] opens the input
    (KiCad "Ref,Val,Package,PosX,PosY,Rot,Side" position file) and the output
    file, writes a fixed preamble of twelve CSV rows (the machine
    configuration of the Neoden YY1), reads the input with
    [csv.DictReader], maps each record to a thirteen-cell output row and
    writes it with [csv.writer].  The [__main__] block checks the argument
    count and calls the function.  The parts and how they interact:

    - the rotation conversion [int(float(cell))] inside a
      [try ... except ValueError] (lines 63-66) calls Python's [float()]
      string parser and [int()] truncation;
    - the row mapper (lines 54-77) builds one output row from one
      [DictReader] record through [header_map] and [output_header.index];
    - the output goes through [csv.writer] (default "excel" dialect);
    - the input comes through [open(..., 'r', encoding='utf-8')] (strict
      UTF-8 decoding of 8192-byte chunks, universal newlines),
      [csv.reader] (a character state machine) and [csv.DictReader]
      (header row, dict per record); the output is encoded back to UTF-8;
    - the driver (lines 13-84) sequences the two [open]s, the preamble, the
      header check, the loop, and the three exception handlers, over a file
      system and a standard output.

    Library layout (each file is a component, in dependency order):

    - [Prelude] (this file): Python's exceptions and the result monad
      [res] with its notation in [py_scope], the [yy1] hint database, the
      tactics and the string and list lemmas shared by the components.
    - [Utf8]: the codec of both files.  Text is kept as its UTF-8 bytes (a
      Rocq [string]); [decode_one] and [decode_fuel] are CPython's strict
      decoder (well-formed sequences of the Unicode standard, no overlong
      form, no surrogate, nothing above U+10FFFF, an incomplete tail kept
      when not [final]), [read_text] is [io.TextIOWrapper] decoding the
      chunks [read1(8192)] returns and raising [UnicodeDecodeError] at the
      first chunk that does not decode, [utf8_encode] is [str.encode].
    - [PyFloat]: [float(str)] as CPython implements it: the UTF-8 bytes of
      the cell decoded to code points,
      ([_PyUnicode_TransformDecimalAndSpaceToASCII] with the Unicode 14.0
      tables of Python 3.11: every decimal digit and white space),
      [_Py_string_to_number_with_underscores], [float_from_string_inner],
      [_Py_dg_strtod], [_Py_parse_inf_or_nan]) down to the exact decimal
      value, the correctly rounded binary64 result, and [int(float)]
      truncation ([PyLong_FromDouble]) with its [OverflowError] on infinities
      and [ValueError] on NaN.
    - [RowMapper]: [header_map], [output_header], the loop body of lines
      55-77 as [convert_row], and an abstract record [yy1_row] (the
      "struct with named fields" of the spec) with the refinement theorem
      that the index-based code computes it.
    - [CsvWriter]: [writer.writerow] of the excel dialect as CPython's
      [_csv.c] implements it: QUOTE_MINIMAL quoting of fields holding the
      delimiter, the quote character, CR or LF, doubled quote characters,
      the CR LF terminator, [None] as an empty field, [str(int)] for ints
      and the record made of one empty field.
    - [CsvReader]: the text of [read_text] with universal newlines, the
      line iterator (only complete lines before a [UnicodeDecodeError], a
      trailing CR held back), the parser state machine of [_csv.c]
      ([pstate], [process_char]) with its field size limit counted in code
      points, the lazy record stream [rstream] (a record or an exception at
      each step) and [csv.DictReader] ([fieldnames], blank row skipping,
      [restkey] and [restval]).  The parser reads the UTF-8 bytes of the
      text: no special character of the dialect is a byte of a multi-byte
      sequence, so the continuation bytes of a code point follow its lead
      byte into the same field, and [add_char] counts the lead bytes.
    - [Converter]: the file system (a [gmap] from paths to files and
      directories), both [open]s with their errors, the preamble of lines
      21-32, the loop of lines 54-77 over the record stream, the flush at
      the end of the [with] block, the handlers of lines 81-84 and the
      [__main__] block; printed lines are the constructors of [message].
    - [Roundtrip]: the contract between writer and reader as the class
      [CsvCodec], its instance [excel_codec] for [writerows] and
      [csv_reader], and the client theorem [output_reads_back], proved in a
      section against any reader honouring the contract; the reading of
      files of other CSV writers ([export_text]: any quoting, CR LF or LF)
      and of a leading byte order mark (the parser invariant
      [bom_parser]), and the conversion of KiCad files end to end.

    The theorems, by group:

    - the codec ([Utf8]): decoding inverts encoding on scalar values and
      conversely, with as many code points as non-continuation bytes
      ([utf8_decode_encode], [utf8_encode_decode]); decoding chunk by chunk
      equals decoding the whole file wherever the chunk boundaries fall
      ([decode_chunks_whole]);
    - the row ([RowMapper]): [convert_row_refines] (the code refines the
      named-field specification), [convert_row_shape] (13 cells, the
      constants), [convert_row_raises] (only [OverflowError] and
      [TypeError] escape), and the rotation on absent, placeholder,
      decimal, NaN, [None] and overflowing cells;
    - the rotation parser ([PyFloat]): exact truncation of decimals whose
      integer mantissa is below [2^53] ([int_float_str_exact]),
      [OverflowError] on infinities and values of at least [2^1024]
      ([int_float_str_overflow]), [int(float(str(z))) = z]
      ([int_float_str_roundtrip]), the digits of every script read as the
      ASCII digits ([int_float_str_script_digits]);
    - the driver ([Converter]): the success case, partial output after an
      error, the empty input, input and output at the same path, a missing
      input or output directory, the exit status, the frame property (no
      other path changes), the preamble at the head of every output; a file
      that is not UTF-8 is never reported converted ([convert_csv_not_utf8]),
      an invalid byte sequence in the first 8192 bytes (a Latin-1 file)
      gives the preamble only ([convert_csv_bad_first_chunk]), and a UTF-8
      file within the field limit is read to its end
      ([convert_csv_reads_to_end]);
    - the reader ([CsvReader]): the invariant of the parser state machine
      over its reachable states ([reachable_wf]), no [_csv.Error] on an
      input of at most 131072 code points, and [UnicodeDecodeError] exactly
      on an input that is not UTF-8 ([csv_reader_no_error]), and the
      dictionaries of [DictReader] ([make_record_spec]);
    - the files ([Roundtrip]): what [writerows] writes, [csv.reader] reads
      back ([writerows_read_back]); the output file of a success reads back
      as the preamble then the converted rows ([output_reads_back]); a
      blank line is skipped by [DictReader] ([blank_line_skipped]); a field
      of 131073 code points raises [_csv.Error] ([csv_reader_field_limit]);
      the scenario of the spec for every KiCad file of seven-cell rows
      ([convert_csv_kicad_rows]) and for every KiCad export, each field
      quoted or not, lines ended by CR LF or LF ([convert_csv_kicad_export]);
      a byte order mark stays in the first header name and empties the
      Designator column of every written row, whatever follows it
      ([convert_csv_bom]).

    Bounds and assumptions.  Rocq integers are unbounded like Python's
    ints; the bounds that matter are those of binary64: a mantissa below
    [2^53] is exact (every KiCad rotation, at most 15 significant digits,
    is far below it), and a value of at least [2^1024] rounds to infinity.
    The reader's field limit is the default [csv.field_size_limit()] of
    131072 characters (code points).  The chunk size is [_CHUNK_SIZE] (8192 bytes), what
    [read1] returns for a regular file; the results of reading do not
    depend on it except for how many lines precede a decoding error.  The
    Unicode tables are those of Python 3.11 (Unicode 14.0).  The output is written through [io]'s buffer of
    8192 bytes: the model assumes the preamble (about 600 characters) is
    still buffered when the input is first read, so that with the same path
    the input is already truncated and the output is written at close.
    Two definitions use fuel, both the length of the data, which bounds
    the steps since each step consumes at least one byte: the UTF-8 decoder
    loop [decode_fuel] ([decode_fuel_enough]: more fuel changes nothing)
    and the chunk loop [chunks_fuel] ([chunks_fuel_spec]: the chunks are
    pieces of 1 to 8192 bytes that make up the whole file).  Every other loop of
    the program is structural recursion over a string, a list or a record
    stream.

    What is not modelled: [read1] returning fewer bytes than asked
    (pipes, sockets); encoding errors on output (the text written comes from
    strictly decoded input and ASCII, so it has no lone surrogate); the
    digit and exponent caps of [dtoa.c] (more than 10^9 digits);
    permissions and the other [OSError]s; the text of printed messages and
    of exception strings. *)

From Stdlib Require Export ZArith Lia Ascii String.
From stdpp Require Export base strings gmap list.

(** ** Python exceptions raised along the paths of the script *)

Inductive py_exc : Type :=
| ValueError            (* float() of a non-number, int() of NaN *)
| OverflowError         (* int() of an infinity *)
| TypeError             (* float(None) *)
| IndexError            (* list index out of range *)
| CsvError              (* _csv.Error raised by the reader *)
| UnicodeDecodeError    (* an input file that is not UTF-8 *)
| FileNotFoundError (path : string)
| IsADirectoryError (path : string).

#[export] Instance py_exc_eq_dec : EqDecision py_exc.
Proof. solve_decision. Defined.

(** ** The result of a Python computation: a value or a raised exception *)

Inductive res (A : Type) : Type :=
| Ok (a : A)
| Raise (e : py_exc).
Arguments Ok {A} a.
Arguments Raise {A} e.

Definition res_bind {A B : Type} (m : res A) (k : A -> res B) : res B :=
  match m with
  | Ok a => k a
  | Raise e => Raise e
  end.

Definition res_map {A B : Type} (f : A -> B) (m : res A) : res B :=
  res_bind m (fun a => Ok (f a)).

Declare Scope py_scope.
Delimit Scope py_scope with py.
Notation "x <- m ;; k" := (res_bind m (fun x => k))
  (at level 100, m at next level, right associativity) : py_scope.
Notation "'raise' e" := (Raise e) (at level 10) : py_scope.

Create HintDb yy1 discriminated.
Create Rewrite HintDb yy1_rw.

Section ResLemmas.
Context {A B : Type}.

Lemma res_bind_Ok (a : A) (k : A -> res B) : res_bind (Ok a) k = k a.
Proof. reflexivity. Qed.

Lemma res_bind_Raise (e : py_exc) (k : A -> res B) : res_bind (Raise e) k = Raise e.
Proof. reflexivity. Qed.

Lemma res_bind_Ok_inv (m : res A) (k : A -> res B) (b : B) :
  res_bind m k = Ok b -> exists a, m = Ok a /\ k a = Ok b.
Proof. destruct m; simpl; [eauto | discriminate]. Qed.

Lemma res_bind_Raise_inv (m : res A) (k : A -> res B) (e : py_exc) :
  res_bind m k = Raise e -> m = Raise e \/ exists a, m = Ok a /\ k a = Raise e.
Proof. destruct m; simpl; [right; eauto | left; congruence]. Qed.
End ResLemmas.

#[export] Hint Rewrite @res_bind_Ok @res_bind_Raise : yy1_rw.

(** ** Strings: append, characters, classes *)

(** stdpp declares [append] [simpl never]; its two equations are rewrite
    rules of [yy1_rw]. *)
Lemma string_app_nil_l (s : string) : "" +:+ s = s.
Proof. reflexivity. Qed.

Lemma string_app_cons (c : ascii) (s1 s2 : string) :
  String c s1 +:+ s2 = String c (s1 +:+ s2).
Proof. reflexivity. Qed.

#[export] Hint Rewrite string_app_nil_l string_app_cons : yy1_rw.

Lemma string_app_assoc (s1 s2 s3 : string) :
  s1 +:+ (s2 +:+ s3) = (s1 +:+ s2) +:+ s3.
Proof. induction s1 as [|c s1 IH]; rewrite ?string_app_cons; [done | by rewrite IH]. Qed.

Lemma string_app_nil_r (s : string) : s +:+ "" = s.
Proof. induction s as [|c s IH]; rewrite ?string_app_cons; [done | by rewrite IH]. Qed.

Lemma string_length_app (s1 s2 : string) :
  String.length (s1 +:+ s2) = String.length s1 + String.length s2.
Proof. induction s1 as [|c s1 IH]; rewrite ?string_app_cons; simpl; [done | by rewrite IH]. Qed.

#[export] Hint Rewrite string_app_nil_r string_length_app : yy1_rw.

(** The code point of a character, as a natural number. *)
Definition code (c : ascii) : nat := nat_of_ascii c.

(** [c in "0123456789"]: the test [c >= '0' && c <= '9'] of the C sources. *)
Definition is_digit (c : ascii) : bool := (48 <=? code c) && (code c <=? 57).

Definition digit_value (c : ascii) : N := N.of_nat (code c - 48).

(** A string holds character [c]. *)
Fixpoint string_has (c : ascii) (s : string) : bool :=
  match s with
  | EmptyString => false
  | String d s' => (if ascii_dec c d then true else false) || string_has c s'
  end.

(** Every character of [s] satisfies [p]. *)
Fixpoint string_forall (p : ascii -> bool) (s : string) : bool :=
  match s with
  | EmptyString => true
  | String d s' => p d && string_forall p s'
  end.

(** The character-wise image of a string. *)
Fixpoint string_map (f : ascii -> ascii) (s : string) : string :=
  match s with
  | EmptyString => EmptyString
  | String d s' => String (f d) (string_map f s')
  end.

Lemma string_forall_app (p : ascii -> bool) (s1 s2 : string) :
  string_forall p (s1 +:+ s2) = string_forall p s1 && string_forall p s2.
Proof.
  induction s1 as [|c s1 IH]; rewrite ?string_app_cons; simpl; [done | by rewrite IH, andb_assoc].
Qed.

Lemma string_map_id (f : ascii -> ascii) (s : string) :
  string_forall (fun c => if ascii_dec (f c) c then true else false) s = true ->
  string_map f s = s.
Proof.
  induction s as [|c s IH]; simpl; [done |].
  destruct (ascii_dec (f c) c) as [E|]; simpl; [|discriminate].
  intros H. by rewrite E, IH.
Qed.

Lemma string_forall_impl (p q : ascii -> bool) (s : string) :
  (forall c, p c = true -> q c = true) -> string_forall p s = true -> string_forall q s = true.
Proof.
  intros Hpq. induction s as [|c s IH]; simpl; [done|].
  intros [Hc Hs]%andb_prop. by rewrite Hpq, IH.
Qed.

(** A character that fails [p] is absent from a string all of whose
    characters satisfy [p]. *)
Lemma string_has_forall (c : ascii) (p : ascii -> bool) (s : string) :
  p c = false -> string_forall p s = true -> string_has c s = false.
Proof.
  intros Hc. induction s as [|d s IH]; simpl; [done|]. intros [Hd Hs]%andb_prop.
  rewrite IH by done. destruct (ascii_dec c d) as [->|]; [congruence | done].
Qed.

#[export] Hint Rewrite string_forall_app : yy1_rw.

(** [yy1_simp] unfolds the monad and the string library lemmas. *)
Ltac yy1_simp := repeat (progress (simpl in *; autorewrite with yy1_rw in *)).

(** Case analysis on the [res] results and the [if]s of a goal. *)
Ltac res_cases :=
  repeat match goal with
  | |- context [res_bind ?m _] => destruct m eqn:?; simpl
  | |- context [if ?b then _ else _] => destruct b eqn:?; simpl
  end.
