(* ===== verification/Utf8.v ===== *)
(** * Utf8: the files are UTF-8 ([encoding='utf-8'], lines 14-15)

    Both files of src/convert_kicad_to_yy1.py are opened with
    [encoding='utf-8'].  The development represents text by its UTF-8
    bytes (a Rocq [string] is a list of bytes); this file models the codec
    between the bytes and the code points Python works on:

    - [decode_one] and [decode_fuel]: CPython's strict UTF-8 decoder
      ([unicode_decode_utf8] with [errors='strict']): the well-formed byte
      sequences of the Unicode standard (table 3-7: no overlong form, no
      surrogate, nothing above U+10FFFF); with [final] false an incomplete
      sequence at the end is kept for the next call, as the incremental
      decoder does;
    - [read_text]: [io.TextIOWrapper] reading the file in chunks of 8192
      bytes ([_CHUNK_SIZE]), each decoded after the bytes kept from the
      previous chunk, with a last [final] call at end of file; a chunk that
      does not decode raises [UnicodeDecodeError], after the text of the
      previous chunks;
    - [utf8_encode]: [str.encode('utf-8')] of code points, the writer's
      side.

    The theorems: decoding inverts encoding on scalar values and
    conversely (the bytes model is exact: the text read and written back
    are the same bytes), a string of ASCII bytes decodes to itself, the
    number of code points of a valid string is its number of non
    continuation bytes, and chunked decoding equals decoding the whole file
    at once. *)

From S2P Require Import Prelude.

Module Utf8.

Local Open Scope Z_scope.

(** ** Bytes *)

Definition byte (c : ascii) : Z := Z.of_nat (nat_of_ascii c).

Definition byte_char (b : Z) : ascii := ascii_of_nat (Z.to_nat b).

Definition in_range (lo hi b : Z) : bool := (lo <=? b) && (b <=? hi).

(** A continuation byte [10xxxxxx]. *)
Definition is_cont (b : Z) : bool := in_range 0x80 0xBF b.

(** The second byte allowed after a three- or four-byte lead: narrower
    after [E0] (no overlong form), [ED] (no surrogate), [F0] (no overlong
    form) and [F4] (nothing above U+10FFFF). *)
Definition second_ok (b1 b2 : Z) : bool :=
  if b1 =? 0xE0 then in_range 0xA0 0xBF b2
  else if b1 =? 0xED then in_range 0x80 0x9F b2
  else if b1 =? 0xF0 then in_range 0x90 0xBF b2
  else if b1 =? 0xF4 then in_range 0x80 0x8F b2
  else is_cont b2.

(** ** The decoder *)

(** One step of the decoder at a lead byte: a code point and the rest, an
    incomplete sequence cut by the end of the data, or an invalid one. *)
Inductive dstep : Type :=
| DOk (cp : Z) (rest : string)
| DTrunc
| DBad.

Definition decode_one (c1 : ascii) (s1 : string) : dstep :=
  let b1 := byte c1 in
  if b1 <? 0x80 then DOk b1 s1
  else if in_range 0xC2 0xDF b1 then
    match s1 with
    | EmptyString => DTrunc
    | String c2 s2 =>
        if is_cont (byte c2)
        then DOk (Z.lor (Z.shiftl (Z.land b1 0x1F) 6) (Z.land (byte c2) 0x3F)) s2
        else DBad
    end
  else if in_range 0xE0 0xEF b1 then
    match s1 with
    | EmptyString => DTrunc
    | String c2 s2 =>
        if second_ok b1 (byte c2) then
          match s2 with
          | EmptyString => DTrunc
          | String c3 s3 =>
              if is_cont (byte c3)
              then DOk (Z.lor (Z.lor (Z.shiftl (Z.land b1 0x0F) 12) (Z.shiftl (Z.land (byte c2) 0x3F) 6))
                              (Z.land (byte c3) 0x3F)) s3
              else DBad
          end
        else DBad
    end
  else if in_range 0xF0 0xF4 b1 then
    match s1 with
    | EmptyString => DTrunc
    | String c2 s2 =>
        if second_ok b1 (byte c2) then
          match s2 with
          | EmptyString => DTrunc
          | String c3 s3 =>
              if is_cont (byte c3) then
                match s3 with
                | EmptyString => DTrunc
                | String c4 s4 =>
                    if is_cont (byte c4)
                    then DOk (Z.lor (Z.lor (Z.lor (Z.shiftl (Z.land b1 0x07) 18)
                                                  (Z.shiftl (Z.land (byte c2) 0x3F) 12))
                                           (Z.shiftl (Z.land (byte c3) 0x3F) 6))
                                    (Z.land (byte c4) 0x3F)) s4
                    else DBad
                end
              else DBad
          end
        else DBad
    end
  else DBad.

(** The decoder loop, one sequence per step ([fuel] bounds the steps: the
    length of the data is enough).  The result is the code points and the
    bytes of an incomplete last sequence (empty when [final]); [None] is
    [UnicodeDecodeError]. *)
Fixpoint decode_fuel (fuel : nat) (final : bool) (s : string) : option (list Z * string) :=
  match fuel with
  | O => Some ([], s)
  | S f =>
      match s with
      | EmptyString => Some ([], EmptyString)
      | String c1 s1 =>
          match decode_one c1 s1 with
          | DOk cp r => option_map (fun '(l, p) => (cp :: l, p)) (decode_fuel f final r)
          | DTrunc => if final then None else Some ([], s)
          | DBad => None
          end
      end
  end.

Definition utf8_decode_gen (final : bool) (s : string) : option (list Z * string) :=
  decode_fuel (String.length s) final s.

(** [bytes.decode('utf-8')]. *)
Definition utf8_decode (s : string) : option (list Z) := option_map fst (utf8_decode_gen true s).

(** The decoder as a relation: [decodes final s l p] when decoding [s]
    gives the code points [l] and keeps the incomplete tail [p] (only when
    not [final]).  [decodes_gen] shows that the loop computes it. *)
Inductive decodes : bool -> string -> list Z -> string -> Prop :=
| dec_nil (f : bool) : decodes f EmptyString [] EmptyString
| dec_ok (f : bool) (c1 : ascii) (s1 : string) (cp : Z) (r : string) (l : list Z) (p : string) :
    decode_one c1 s1 = DOk cp r -> decodes f r l p -> decodes f (String c1 s1) (cp :: l) p
| dec_trunc (c1 : ascii) (s1 : string) :
    decode_one c1 s1 = DTrunc -> decodes false (String c1 s1) [] (String c1 s1).

(** Bytes that are UTF-8. *)
Definition utf8_valid (s : string) : bool := if utf8_decode s then true else false.

(** ** Reading a file in chunks *)

Definition chunk_size : nat := 8192.

(** The first [n] bytes and the rest. *)
Fixpoint split_at (n : nat) (s : string) : string * string :=
  match n, s with
  | O, _ => (EmptyString, s)
  | _, EmptyString => (EmptyString, EmptyString)
  | S n', String c s' => let '(a, b) := split_at n' s' in (String c a, b)
  end.

(** The chunks [read1(8192)] returns, up to end of file. *)
Fixpoint chunks_fuel (fuel : nat) (s : string) : list string :=
  match fuel with
  | O => []
  | S f =>
      match s with
      | EmptyString => []
      | _ => let '(a, b) := split_at chunk_size s in a :: chunks_fuel f b
      end
  end.

Definition chunks (s : string) : list string := chunks_fuel (String.length s) s.

(** [decoder.decode(chunk, final=False)] for each chunk after the bytes
    kept from the previous one, then [decoder.decode(b'', final=True)]:
    the code points decoded, and the exception that stopped the reading. *)
Fixpoint decode_chunks (pending : string) (cs : list string) : list Z * option py_exc :=
  match cs with
  | [] =>
      match utf8_decode_gen true pending with
      | Some (l, _) => (l, None)
      | None => ([], Some UnicodeDecodeError)
      end
  | c :: cs' =>
      match utf8_decode_gen false (pending +:+ c) with
      | Some (l, p) => let '(l', e) := decode_chunks p cs' in (l ++ l', e)
      | None => ([], Some UnicodeDecodeError)
      end
  end.

(** The text of an input file: its code points, read until the end or
    until the exception. *)
Definition read_text (s : string) : list Z * option py_exc := decode_chunks EmptyString (chunks s).

(** ** The encoder *)

(** [str.encode('utf-8')] of one code point. *)
Definition encode_cp (cp : Z) : string :=
  if cp <? 0x80 then String (byte_char cp) EmptyString
  else if cp <? 0x800 then
    String (byte_char (Z.lor 0xC0 (Z.shiftr cp 6)))
      (String (byte_char (Z.lor 0x80 (Z.land cp 0x3F))) EmptyString)
  else if cp <? 0x10000 then
    String (byte_char (Z.lor 0xE0 (Z.shiftr cp 12)))
      (String (byte_char (Z.lor 0x80 (Z.land (Z.shiftr cp 6) 0x3F)))
        (String (byte_char (Z.lor 0x80 (Z.land cp 0x3F))) EmptyString))
  else
    String (byte_char (Z.lor 0xF0 (Z.shiftr cp 18)))
      (String (byte_char (Z.lor 0x80 (Z.land (Z.shiftr cp 12) 0x3F)))
        (String (byte_char (Z.lor 0x80 (Z.land (Z.shiftr cp 6) 0x3F)))
          (String (byte_char (Z.lor 0x80 (Z.land cp 0x3F))) EmptyString))).

Fixpoint utf8_encode (cps : list Z) : string :=
  match cps with
  | [] => EmptyString
  | cp :: cps' => encode_cp cp +:+ utf8_encode cps'
  end.

(** A Unicode scalar value: a code point that is not a surrogate. *)
Definition scalar (cp : Z) : bool :=
  in_range 0 0x10FFFF cp && negb (in_range 0xD800 0xDFFF cp).

(** The number of code points of valid UTF-8: its bytes that are not
    continuation bytes. *)
Definition cp_width (c : ascii) : nat := if is_cont (byte c) then 0 else 1.

Fixpoint cp_count (s : string) : nat :=
  match s with
  | EmptyString => 0
  | String c s' => cp_width c + cp_count s'
  end.

(** ** Bytes and bit arithmetic *)

Local Open Scope Z_scope.

Lemma byte_range (c : ascii) : 0 <= byte c < 256.
Proof. unfold byte. pose proof (nat_ascii_bounded c). lia. Qed.

Lemma byte_byte_char (b : Z) : 0 <= b < 256 -> byte (byte_char b) = b.
Proof.
  intros Hb. unfold byte, byte_char. rewrite nat_ascii_embedding by lia. lia.
Qed.

Lemma byte_char_byte (c : ascii) : byte_char (byte c) = c.
Proof. unfold byte, byte_char. rewrite Nat2Z.id. apply ascii_nat_embedding. Qed.

Lemma byte_inj (c d : ascii) : byte c = byte d -> c = d.
Proof. intros H. by rewrite <- (byte_char_byte c), H, byte_char_byte. Qed.

(** Bit operations on disjoint bit ranges are arithmetic. *)
Lemma lor_low (a x : Z) (k : Z) :
  0 <= k -> 0 <= a -> a mod 2 ^ k = 0 -> 0 <= x < 2 ^ k -> Z.lor a x = a + x.
Proof.
  intros Hk Ha Hm Hx. symmetry. apply Z.add_nocarry_lor. apply Z.bits_inj_0. intros n.
  rewrite Z.land_spec. destruct (Z.lt_ge_cases n k) as [Hn|Hn].
  - destruct (Z.lt_ge_cases n 0) as [Hn0|Hn0]; [by rewrite Z.testbit_neg_r|].
    rewrite <- (Z.mod_pow2_bits_low a k n), Hm by lia. by rewrite Z.bits_0.
  - rewrite <- (Z.mod_small x (2 ^ k)) by lia. rewrite Z.mod_pow2_bits_high by lia.
    apply andb_false_r.
Qed.

Lemma land_mask (x : Z) (k : Z) : 0 <= k -> Z.land x (2 ^ k - 1) = x mod 2 ^ k.
Proof. intros Hk. rewrite Z.sub_1_r, <- Z.ones_equiv. by apply Z.land_ones. Qed.

Ltac bits :=
  rewrite ?Z.shiftl_mul_pow2, ?Z.shiftr_div_pow2 by lia;
  change 0x1F with (2 ^ 5 - 1); change 0x3F with (2 ^ 6 - 1);
  change 0x0F with (2 ^ 4 - 1); change 0x07 with (2 ^ 3 - 1);
  rewrite ?land_mask by lia.

Ltac norm_pow := repeat match goal with
  | |- context [2 ^ ?n] => let v := eval compute in (2 ^ n) in change (2 ^ n) with v
  end.

Ltac zsolve := Z.div_mod_to_equations; lia.

Ltac zcase := match goal with
  | |- context [Z.ltb ?a ?b] => destruct (Z.ltb_spec a b)
  | |- context [Z.leb ?a ?b] => destruct (Z.leb_spec a b)
  | |- context [Z.eqb ?a ?b] => destruct (Z.eqb_spec a b)
  end.

Lemma decode_one_1 (c1 : ascii) (s : string) : byte c1 < 0x80 -> decode_one c1 s = DOk (byte c1) s.
Proof. intros H. unfold decode_one. by destruct (Z.ltb_spec (byte c1) 0x80); [|lia]. Qed.

Lemma decode_one_2 (c1 c2 : ascii) (s : string) :
  0xC2 <= byte c1 <= 0xDF -> 0x80 <= byte c2 <= 0xBF ->
  decode_one c1 (String c2 s) = DOk ((byte c1 - 0xC0) * 64 + (byte c2 - 0x80)) s.
Proof.
  intros H1 H2. unfold decode_one, is_cont, in_range.
  repeat (zcase; simpl; try lia). f_equal. bits.
  rewrite (lor_low _ _ 6) by (norm_pow; zsolve). norm_pow. zsolve.
Qed.

Lemma second_ok_range (b1 b2 : Z) : second_ok b1 b2 = true -> 0x80 <= b2 <= 0xBF.
Proof. unfold second_ok, is_cont, in_range. repeat (zcase; simpl; try lia); done. Qed.

Lemma decode_one_3 (c1 c2 c3 : ascii) (s : string) :
  0xE0 <= byte c1 <= 0xEF -> second_ok (byte c1) (byte c2) = true -> 0x80 <= byte c3 <= 0xBF ->
  decode_one c1 (String c2 (String c3 s)) =
    DOk ((byte c1 - 0xE0) * 4096 + (byte c2 - 0x80) * 64 + (byte c3 - 0x80)) s.
Proof.
  intros H1 H2 H3. pose proof (second_ok_range _ _ H2).
  unfold decode_one. rewrite H2. unfold is_cont, in_range.
  repeat (zcase; simpl; try lia). f_equal. bits.
  rewrite (lor_low (_ * 2 ^ 12) _ 12) by (norm_pow; zsolve).
  rewrite (lor_low _ _ 6) by (norm_pow; zsolve). norm_pow. zsolve.
Qed.

Lemma decode_one_4 (c1 c2 c3 c4 : ascii) (s : string) :
  0xF0 <= byte c1 <= 0xF4 -> second_ok (byte c1) (byte c2) = true ->
  0x80 <= byte c3 <= 0xBF -> 0x80 <= byte c4 <= 0xBF ->
  decode_one c1 (String c2 (String c3 (String c4 s))) =
    DOk ((byte c1 - 0xF0) * 262144 + (byte c2 - 0x80) * 4096 + (byte c3 - 0x80) * 64 + (byte c4 - 0x80)) s.
Proof.
  intros H1 H2 H3 H4. pose proof (second_ok_range _ _ H2).
  unfold decode_one. rewrite H2. unfold is_cont, in_range.
  repeat (zcase; simpl; try lia). f_equal. bits.
  rewrite (lor_low (_ * 2 ^ 18) _ 18) by (norm_pow; zsolve).
  rewrite (lor_low _ (_ * 2 ^ 6) 12) by (norm_pow; zsolve).
  rewrite (lor_low _ _ 6) by (norm_pow; zsolve). norm_pow. zsolve.
Qed.

Ltac zcase_in H := match type of H with
  | context [Z.ltb ?a ?b] => destruct (Z.ltb_spec a b)
  | context [Z.leb ?a ?b] => destruct (Z.leb_spec a b)
  | context [Z.eqb ?a ?b] => destruct (Z.eqb_spec a b)
  end.

Ltac zhyps := repeat match goal with
  | H : (?a <=? ?b) = true |- _ => apply Z.leb_le in H
  | H : (?a <=? ?b) = false |- _ => apply Z.leb_gt in H
  | H : (?a <? ?b) = true |- _ => apply Z.ltb_lt in H
  | H : (?a <? ?b) = false |- _ => apply Z.ltb_ge in H
  | H : (?a =? ?b) = true |- _ => apply Z.eqb_eq in H
  | H : (?a =? ?b) = false |- _ => apply Z.eqb_neq in H
  | H : (_ && _) = true |- _ => apply andb_prop in H as [? ?]
  | H : (_ && _) = false |- _ => apply andb_false_iff in H as [?|?]
  end.

Ltac second_ok_tac := unfold second_ok, is_cont, in_range; repeat (zcase; simpl; try lia); try done.

(** What a decoded sequence looks like. *)
Lemma decode_one_inv (c1 : ascii) (s1 : string) (cp : Z) (r : string) :
  decode_one c1 s1 = DOk cp r ->
  (byte c1 < 0x80 /\ cp = byte c1 /\ s1 = r) \/
  (exists c2, s1 = String c2 r /\ 0xC2 <= byte c1 <= 0xDF /\ 0x80 <= byte c2 <= 0xBF /\
     cp = (byte c1 - 0xC0) * 64 + (byte c2 - 0x80)) \/
  (exists c2 c3, s1 = String c2 (String c3 r) /\ 0xE0 <= byte c1 <= 0xEF /\
     second_ok (byte c1) (byte c2) = true /\ 0x80 <= byte c3 <= 0xBF /\
     cp = (byte c1 - 0xE0) * 4096 + (byte c2 - 0x80) * 64 + (byte c3 - 0x80)) \/
  (exists c2 c3 c4, s1 = String c2 (String c3 (String c4 r)) /\ 0xF0 <= byte c1 <= 0xF4 /\
     second_ok (byte c1) (byte c2) = true /\ 0x80 <= byte c3 <= 0xBF /\ 0x80 <= byte c4 <= 0xBF /\
     cp = (byte c1 - 0xF0) * 262144 + (byte c2 - 0x80) * 4096 + (byte c3 - 0x80) * 64 + (byte c4 - 0x80)).
Proof.
  intros H. pose proof H as H'. unfold decode_one, second_ok, is_cont, in_range in H'.
  repeat (case_match; simplify_eq/=; try discriminate); zhyps.
  all: first
    [ left; split_and!; first [done | lia]
    | right; left; eexists; split; [reflexivity|]; rewrite decode_one_2 in H by lia;
      injection H as Heq; split_and!; lia
    | right; right; left; do 2 eexists; split; [reflexivity|];
      rewrite decode_one_3 in H by second_ok_tac;
      injection H as Heq; split_and!; try lia; second_ok_tac
    | right; right; right; do 3 eexists; split; [reflexivity|];
      rewrite decode_one_4 in H by second_ok_tac;
      injection H as Heq; split_and!; try lia; second_ok_tac ].
Qed.

Lemma lor_const (a x : Z) (k : Z) : 0 <= k -> 0 <= a -> a mod 2 ^ k = 0 -> 0 <= x < 2 ^ k -> Z.lor a x = a + x.
Proof. apply lor_low. Qed.

Ltac enc_bits :=
  bits;
  repeat first
    [ rewrite (lor_const 0xC0 _ 5) by (norm_pow; zsolve)
    | rewrite (lor_const 0xE0 _ 4) by (norm_pow; zsolve)
    | rewrite (lor_const 0xF0 _ 3) by (norm_pow; zsolve)
    | rewrite (lor_const 0x80 _ 6) by (norm_pow; zsolve) ];
  norm_pow.

Lemma encode_cp_decode (cp : Z) (r : string) :
  scalar cp = true -> exists c1 s1, encode_cp cp +:+ r = String c1 s1 /\ decode_one c1 s1 = DOk cp r.
Proof.
  unfold scalar, in_range. intros H. apply andb_prop in H as [H H']. apply negb_true_iff in H'.
  assert (Hs : cp < 0xD800 \/ 0xDFFF < cp)
    by (apply andb_false_iff in H' as [E|E]; apply Z.leb_gt in E; lia).
  clear H'. zhyps. unfold encode_cp.
  destruct (Z.ltb_spec cp 0x80); [|destruct (Z.ltb_spec cp 0x800); [|destruct (Z.ltb_spec cp 0x10000)]];
    cbv beta iota; enc_bits; rewrite ?string_app_cons, ?string_app_nil_l; do 2 eexists; split; try reflexivity.
  - rewrite decode_one_1; rewrite byte_byte_char by lia; [done | lia].
  - rewrite decode_one_2; rewrite !byte_byte_char by zsolve; [f_equal; zsolve | zsolve | zsolve].
  - rewrite decode_one_3; rewrite !byte_byte_char by zsolve; [f_equal; zsolve | zsolve | | zsolve].
    second_ok_tac; zsolve.
  - rewrite decode_one_4; rewrite !byte_byte_char by zsolve; [f_equal; zsolve | zsolve | | zsolve | zsolve].
    second_ok_tac; zsolve.
Qed.

Lemma second_ok_spec (b1 b2 : Z) :
  second_ok b1 b2 = true ->
  0x80 <= b2 <= 0xBF /\ (b1 = 0xE0 -> 0xA0 <= b2) /\ (b1 = 0xED -> b2 <= 0x9F) /\
  (b1 = 0xF0 -> 0x90 <= b2) /\ (b1 = 0xF4 -> b2 <= 0x8F).
Proof. unfold second_ok, is_cont, in_range. repeat (zcase; simpl); intros; zhyps; lia. Qed.

Ltac char_eq := apply byte_inj; rewrite byte_byte_char by zsolve; zsolve.

Lemma decode_one_encode (c1 : ascii) (s1 : string) (cp : Z) (r : string) :
  decode_one c1 s1 = DOk cp r -> encode_cp cp +:+ r = String c1 s1 /\ scalar cp = true.
Proof.
  intros H. pose proof (byte_range c1).
  destruct (decode_one_inv _ _ _ _ H) as
    [(Hb & -> & <-) | [(c2 & -> & H1 & H2 & ->) | [(c2 & c3 & -> & H1 & H2 & H3 & ->) |
      (c2 & c3 & c4 & -> & H1 & H2 & H3 & H4 & ->)]]];
    [| | pose proof (second_ok_spec _ _ H2) | pose proof (second_ok_spec _ _ H2)];
    unfold encode_cp, scalar, in_range; split;
    [| repeat (zcase; simpl); zsolve | | repeat (zcase; simpl); zsolve
     | | repeat (zcase; simpl); zsolve | | repeat (zcase; simpl); zsolve].
  - rewrite (proj2 (Z.ltb_lt _ _) Hb). cbv beta iota. rewrite byte_char_byte. apply string_app_cons.
  - repeat (zcase; try zsolve). cbv beta iota. enc_bits. rewrite !string_app_cons, string_app_nil_l.
    f_equal; [char_eq | f_equal; char_eq].
  - repeat (zcase; try zsolve). cbv beta iota. enc_bits. rewrite !string_app_cons, string_app_nil_l.
    f_equal; [char_eq | f_equal; [char_eq | f_equal; char_eq]].
  - repeat (zcase; try zsolve). cbv beta iota. enc_bits. rewrite !string_app_cons, string_app_nil_l.
    f_equal; [char_eq | f_equal; [char_eq | f_equal; [char_eq | f_equal; char_eq]]].
Qed.

(** ** The decoder loop *)

Lemma decode_one_app_ok (c1 : ascii) (s1 b : string) (cp : Z) (r : string) :
  decode_one c1 s1 = DOk cp r -> decode_one c1 (s1 +:+ b) = DOk cp (r +:+ b).
Proof.
  intros H. destruct (decode_one_inv _ _ _ _ H) as
    [(Hb & -> & <-) | [(c2 & -> & H1 & H2 & ->) | [(c2 & c3 & -> & H1 & H2 & H3 & ->) |
      (c2 & c3 & c4 & -> & H1 & H2 & H3 & H4 & ->)]]]; rewrite ?string_app_cons.
  - by apply decode_one_1.
  - by apply decode_one_2.
  - by apply decode_one_3.
  - by apply decode_one_4.
Qed.

Lemma decode_one_app_bad (c1 : ascii) (s1 b : string) :
  decode_one c1 s1 = DBad -> decode_one c1 (s1 +:+ b) = DBad.
Proof.
  unfold decode_one. destruct s1 as [|c2 [|c3 [|c4 s4]]]; rewrite ?string_app_cons;
    repeat (case_match; try done).
Qed.

Lemma decode_one_suffix (c1 : ascii) (s1 : string) (cp : Z) (r : string) :
  decode_one c1 s1 = DOk cp r -> (String.length r <= String.length s1)%nat.
Proof.
  intros H. destruct (decode_one_inv _ _ _ _ H) as
    [(_ & _ & <-) | [(c2 & -> & _) | [(c2 & c3 & -> & _) | (c2 & c3 & c4 & -> & _)]]]; simpl; lia.
Qed.

Lemma decode_fuel_enough (n m : nat) (f : bool) (s : string) :
  (String.length s <= n)%nat -> (String.length s <= m)%nat -> decode_fuel n f s = decode_fuel m f s.
Proof.
  revert m s. induction n as [|n IH]; intros m s Hn Hm.
  - destruct s; [|simpl in Hn; lia]. by destruct m.
  - destruct m as [|m]; [destruct s; [done | simpl in Hm; lia]|].
    destruct s as [|c1 s1]; [done|]. simpl. simpl in Hn, Hm.
    destruct (decode_one c1 s1) as [cp r| |] eqn:E; [|done..].
    pose proof (decode_one_suffix _ _ _ _ E). by rewrite (IH m r) by lia.
Qed.

Lemma decode_gen_cons (f : bool) (c1 : ascii) (s1 : string) :
  utf8_decode_gen f (String c1 s1) =
    match decode_one c1 s1 with
    | DOk cp r => option_map (fun '(l, p) => (cp :: l, p)) (utf8_decode_gen f r)
    | DTrunc => if f then None else Some ([], String c1 s1)
    | DBad => None
    end.
Proof.
  unfold utf8_decode_gen. simpl. destruct (decode_one c1 s1) as [cp r| |] eqn:E; [|done..].
  pose proof (decode_one_suffix _ _ _ _ E). by rewrite (decode_fuel_enough _ (String.length r)) by lia.
Qed.

Lemma decodes_gen (f : bool) (s : string) (l : list Z) (p : string) :
  utf8_decode_gen f s = Some (l, p) <-> decodes f s l p.
Proof.
  split.
  - revert l p. induction s as [s IH] using (induction_ltof1 _ String.length); unfold ltof in IH.
    intros l p. destruct s as [|c1 s1]; [intros [= <- <-]; constructor|]. rewrite decode_gen_cons.
    destruct (decode_one c1 s1) as [cp r| |] eqn:E; [|destruct f; [done | intros [= <- <-]; by constructor]|done].
    destruct (utf8_decode_gen f r) as [[l' p']|] eqn:Er; [|done]. intros [= <- <-].
    pose proof (decode_one_suffix _ _ _ _ E). econstructor; [done|]. apply IH; [simpl; lia | done].
  - induction 1 as [f|f c1 s1 cp r l p E _ IH|c1 s1 E]; [done| |by rewrite decode_gen_cons, E].
    by rewrite decode_gen_cons, E, IH.
Qed.

Lemma is_cont_cont (b : Z) : 0x80 <= b <= 0xBF -> is_cont b = true.
Proof. intros. unfold is_cont, in_range. repeat zcase; done || lia. Qed.

Lemma is_cont_lead (b : Z) : b < 0x80 \/ 0xC0 <= b -> is_cont b = false.
Proof. intros. unfold is_cont, in_range. repeat zcase; done || lia. Qed.

(** A decoded sequence has one byte that is not a continuation byte. *)
Lemma decode_one_count (c1 : ascii) (s1 : string) (cp : Z) (r : string) :
  decode_one c1 s1 = DOk cp r -> cp_count (String c1 s1) = S (cp_count r).
Proof.
  intros H. destruct (decode_one_inv _ _ _ _ H) as
    [(Hb & _ & <-) | [(c2 & -> & H1 & H2 & _) | [(c2 & c3 & -> & H1 & H2 & H3 & _) |
      (c2 & c3 & c4 & -> & H1 & H2 & H3 & H4 & _)]]];
    [|  |apply second_ok_range in H2 | apply second_ok_range in H2]; simpl; unfold cp_width;
    rewrite is_cont_lead, ?is_cont_cont by lia; done.
Qed.

(** What a successful decoding gives: the code points, then the bytes
    kept, encode back to the input; they are scalar values; they are as many
    as the non continuation bytes decoded; nothing is kept when [final]. *)
Lemma decodes_encode (f : bool) (s : string) (l : list Z) (p : string) :
  decodes f s l p ->
  utf8_encode l +:+ p = s /\ forallb scalar l = true /\
  (length l + cp_count p = cp_count s)%nat /\ (f = true -> p = EmptyString).
Proof.
  induction 1 as [f|f c1 s1 cp r l p E _ (Hr & Hs & Hc & Hf)|c1 s1 E]; [done| |done].
  destruct (decode_one_encode _ _ _ _ E) as [He Hcp]. rewrite (decode_one_count _ _ _ _ E). simpl.
  rewrite Hcp, Hs, <- string_app_assoc, Hr. split_and!; [done | done | lia | done].
Qed.

Lemma encode_decode_gen (cps : list Z) :
  forallb scalar cps = true -> utf8_decode_gen true (utf8_encode cps) = Some (cps, EmptyString).
Proof.
  induction cps as [|cp cps IH]; [done|]. simpl. intros [Hc Hs]%andb_prop.
  destruct (encode_cp_decode cp (utf8_encode cps) Hc) as (c1 & s1 & -> & E).
  rewrite decode_gen_cons, E, IH by done. done.
Qed.

Lemma utf8_encode_app (l1 l2 : list Z) : utf8_encode (l1 ++ l2) = utf8_encode l1 +:+ utf8_encode l2.
Proof. induction l1 as [|cp l1 IH]; simpl; [done | by rewrite IH, string_app_assoc]. Qed.

(** ** Resuming after an incomplete tail *)

Lemma decode_gen_resume (f : bool) (a b : string) (l : list Z) (p : string) :
  utf8_decode_gen false a = Some (l, p) ->
  utf8_decode_gen f (a +:+ b) = option_map (fun '(l', p') => (l ++ l', p')) (utf8_decode_gen f (p +:+ b)).
Proof.
  revert l p. induction a as [a IH] using (induction_ltof1 _ String.length); unfold ltof in IH.
  intros l p. destruct a as [|c1 a1].
  { intros [= <- <-]. rewrite string_app_nil_l. by destruct (utf8_decode_gen f b) as [[??]|]. }
  rewrite decode_gen_cons. destruct (decode_one c1 a1) as [cp r| |] eqn:E.
  - destruct (utf8_decode_gen false r) as [[l' p']|] eqn:Er; [|done]. intros [= <- <-].
    pose proof (decode_one_suffix _ _ _ _ E).
    rewrite string_app_cons, decode_gen_cons, (decode_one_app_ok _ _ _ _ _ E), (IH r ltac:(simpl; lia) _ _ Er).
    by destruct (utf8_decode_gen f (p' +:+ b)) as [[??]|].
  - intros [= <- <-]. by destruct (utf8_decode_gen f _) as [[??]|].
  - done.
Qed.

Lemma decode_gen_bad (f : bool) (a b : string) :
  utf8_decode_gen false a = None -> utf8_decode_gen f (a +:+ b) = None.
Proof.
  induction a as [a IH] using (induction_ltof1 _ String.length); unfold ltof in IH.
  destruct a as [|c1 a1]; [done|]. rewrite decode_gen_cons, string_app_cons, decode_gen_cons.
  destruct (decode_one c1 a1) as [cp r| |] eqn:E.
  - pose proof (decode_one_suffix _ _ _ _ E). rewrite (decode_one_app_ok _ _ _ _ _ E).
    destruct (utf8_decode_gen false r) eqn:Er; [done|]. by rewrite (IH r ltac:(simpl; lia) Er).
  - done.
  - by rewrite (decode_one_app_bad _ _ _ E).
Qed.

(** ** Chunks *)

Lemma split_at_app (n : nat) (s : string) :
  let '(a, b) := split_at n s in a +:+ b = s /\ (String.length a = Nat.min n (String.length s))%nat.
Proof.
  revert s. induction n as [|n IH]; intros [|c s]; simpl; try done.
  specialize (IH s). destruct (split_at n s) as [a b]. destruct IH as [<- Hl].
  rewrite string_app_cons. simpl. split; [done | lia].
Qed.

Lemma chunk_size_pos : (0 < chunk_size)%nat.
Proof. apply Nat.ltb_lt. by vm_compute. Qed.

(** With fuel at least the length of the data, the chunks are the data,
    cut in pieces of 1 to [chunk_size] bytes. *)
Lemma chunks_fuel_spec (n : nat) (s : string) :
  (String.length s <= n)%nat ->
  foldr String.append EmptyString (chunks_fuel n s) = s /\
  Forall (fun c => 0 < String.length c <= chunk_size)%nat (chunks_fuel n s).
Proof.
  revert s. induction n as [|n IH]; intros [|c s] Hn; [done | simpl in Hn; lia | done |].
  cbn [chunks_fuel]. pose proof (split_at_app chunk_size (String c s)) as Hs.
  destruct (split_at chunk_size (String c s)) as [a b]. destruct Hs as [Ha Hl].
  rewrite <- Ha in Hn |- *. rewrite string_length_app in Hn. cbn [String.length] in Hl.
  pose proof chunk_size_pos. destruct (IH b) as [IH1 IH2]; [lia|]. cbn [foldr].
  rewrite IH1. split; [done|]. constructor; [lia | done].
Qed.

Lemma chunks_concat (s : string) : foldr String.append EmptyString (chunks s) = s.
Proof. apply chunks_fuel_spec. lia. Qed.

Lemma decode_chunks_spec (p : string) (cs : list string) :
  let s := p +:+ foldr String.append EmptyString cs in
  match utf8_decode s with
  | Some l => decode_chunks p cs = (l, None)
  | None => exists l rest, decode_chunks p cs = (l, Some UnicodeDecodeError) /\ utf8_encode l +:+ rest = s
  end.
Proof.
  revert p. induction cs as [|c cs IH]; intros p; simpl; unfold utf8_decode.
  - rewrite string_app_nil_r. destruct (utf8_decode_gen true p) as [[l q]|]; [done|].
    by exists [], p.
  - rewrite string_app_assoc. destruct (utf8_decode_gen false (p +:+ c)) as [[l q]|] eqn:E.
    + destruct (decodes_encode _ _ _ _ (proj1 (decodes_gen _ _ _ _) E)) as [Hq _].
      rewrite (decode_gen_resume _ _ _ _ _ E). specialize (IH q). simpl in IH. unfold utf8_decode in IH.
      destruct (utf8_decode_gen true _) as [[l' q']|]; simpl.
      * by rewrite IH.
      * destruct IH as (l' & rest & -> & Hr). exists (l ++ l'), rest. split; [done|].
        by rewrite utf8_encode_app, <- string_app_assoc, Hr, string_app_assoc, Hq.
    + rewrite (decode_gen_bad _ _ _ E). eexists [], _. split; [done | reflexivity].
Qed.

(** An ASCII string decodes to its bytes. *)
Lemma utf8_decode_ascii (s : string) :
  string_forall (fun c => code c <? 128)%nat s = true ->
  exists cps, utf8_decode s = Some cps /\ forallb (fun ch => ch <? 128) cps = true /\ utf8_encode cps = s.
Proof.
  unfold utf8_decode. induction s as [|c s IH]; simpl; [by exists [] |]. intros [Hc Hs]%andb_prop.
  destruct (IH Hs) as (cps & E & Ha & He).
  destruct (utf8_decode_gen true s) as [[l p]|] eqn:Es; [|done]. injection E as <-.
  assert (Hb : byte c < 0x80) by (unfold byte, code in *; apply Nat.ltb_lt in Hc; lia).
  exists (byte c :: l). rewrite decode_gen_cons, decode_one_1, Es by done. simpl.
  rewrite (proj2 (Z.ltb_lt _ _) Hb), Ha. split_and!; [done | done |].
  unfold encode_cp. rewrite (proj2 (Z.ltb_lt _ _) Hb), byte_char_byte. by rewrite string_app_cons, string_app_nil_l, He.
Qed.

Lemma cp_count_app (a b : string) : cp_count (a +:+ b) = (cp_count a + cp_count b)%nat.
Proof. induction a as [|c a IH]; rewrite ?string_app_cons; simpl; [done | rewrite IH; lia]. Qed.

Lemma decodes_final (f : bool) (s : string) (l : list Z) (p : string) :
  decodes true s l p -> decodes f s l p.
Proof.
  remember true as t eqn:Ht. induction 1 as [|t c1 s1 cp r l p E _ IH|]; [constructor | | done].
  econstructor; [done | by apply IH].
Qed.

(** Valid UTF-8 followed by valid UTF-8 is valid UTF-8. *)
Lemma utf8_decode_app (a b : string) (la lb : list Z) :
  utf8_decode a = Some la -> utf8_decode b = Some lb -> utf8_decode (a +:+ b) = Some (la ++ lb).
Proof.
  unfold utf8_decode.
  destruct (utf8_decode_gen true a) as [[la' pa]|] eqn:Ea; [|done]. intros [= <-].
  destruct (utf8_decode_gen true b) as [[lb' pb]|] eqn:Eb; [|done]. intros [= <-].
  apply decodes_gen in Ea. assert (pa = EmptyString) as -> by (by apply (decodes_encode _ _ _ _ Ea)).
  apply (decodes_final false), decodes_gen in Ea.
  by rewrite (decode_gen_resume _ _ _ _ _ Ea), string_app_nil_l, Eb.
Qed.

Lemma utf8_valid_app (a b : string) :
  utf8_valid a = true -> utf8_valid b = true -> utf8_valid (a +:+ b) = true.
Proof.
  unfold utf8_valid. destruct (utf8_decode a) as [la|] eqn:Ea, (utf8_decode b) as [lb|] eqn:Eb; try done.
  by rewrite (utf8_decode_app _ _ _ _ Ea Eb).
Qed.

Lemma utf8_valid_ascii (s : string) :
  string_forall (fun c => code c <? 128)%nat s = true -> utf8_valid s = true.
Proof. intros H. destruct (utf8_decode_ascii s H) as (cps & E & _). unfold utf8_valid. by rewrite E. Qed.

(** Valid bytes are the encoding of scalar values. *)
Lemma utf8_valid_encoded (s : string) :
  utf8_valid s = true -> exists cps, s = utf8_encode cps /\ forallb scalar cps = true.
Proof.
  unfold utf8_valid, utf8_decode. destruct (utf8_decode_gen true s) as [[l p]|] eqn:E; [|done]. intros _.
  destruct (decodes_encode _ _ _ _ (proj1 (decodes_gen _ _ _ _) E)) as (Hs & Hc & _ & Hf).
  rewrite (Hf eq_refl), string_app_nil_r in Hs. by exists l.
Qed.

Lemma utf8_valid_encode_cp (cp : Z) : scalar cp = true -> utf8_valid (encode_cp cp) = true.
Proof.
  intros H. unfold utf8_valid. pose proof (encode_decode_gen [cp]) as E. simpl in E.
  rewrite H, string_app_nil_r in E. unfold utf8_decode. by rewrite E.
Qed.

(** The encoding of a code point above ASCII has no ASCII byte. *)
Lemma encode_cp_high (cp : Z) :
  scalar cp = true -> 0x80 <= cp -> string_forall (fun c => 0x80 <=? byte c) (encode_cp cp) = true.
Proof.
  intros Hs Hcp. destruct (encode_cp_decode cp EmptyString Hs) as (c1 & s1 & E & D).
  rewrite string_app_nil_r in E. rewrite E.
  destruct (decode_one_inv _ _ _ _ D) as
    [(Hb & -> & _) | [(c2 & -> & H1 & H2 & _) | [(c2 & c3 & -> & H1 & H2 & H3 & _) |
      (c2 & c3 & c4 & -> & H1 & H2 & H3 & H4 & _)]]];
    [lia | | apply second_ok_range in H2 | apply second_ok_range in H2]; simpl;
    repeat (rewrite (proj2 (Z.leb_le _ _)) by lia); done.
Qed.

(** The text [read_text] gives of a file. *)
Lemma read_text_spec (s : string) :
  match utf8_decode s with
  | Some l => read_text s = (l, None) /\ utf8_encode l = s
  | None => exists l rest, read_text s = (l, Some UnicodeDecodeError) /\ utf8_encode l +:+ rest = s
  end.
Proof.
  pose proof (decode_chunks_spec EmptyString (chunks s)) as H. simpl in H.
  rewrite string_app_nil_l, chunks_concat in H. destruct (utf8_decode s) as [l|] eqn:E; [|done].
  split; [done|]. unfold utf8_decode in E.
  destruct (utf8_decode_gen true s) as [[l' p]|] eqn:Es; simplify_eq/=.
  destruct (decodes_encode _ _ _ _ (proj1 (decodes_gen _ _ _ _) Es)) as (Hs & _ & _ & Hf).
  by rewrite (Hf eq_refl), string_app_nil_r in Hs.
Qed.

Lemma split_at_prefix (n : nat) (a b : string) :
  (String.length a <= n)%nat -> exists c, (split_at n (a +:+ b)).1 = a +:+ c.
Proof.
  revert n. induction a as [|d a IH]; intros n Hn.
  - by exists (split_at n b).1.
  - destruct n as [|n]; [simpl in Hn; lia|]. rewrite string_app_cons. simpl in Hn |- *.
    destruct (IH n) as [c Hc]; [lia|]. destruct (split_at n (a +:+ b)) as [x y]. simpl in *.
    subst x. exists c. by rewrite string_app_cons.
Qed.

(** Bytes within the first chunk that are no prefix of UTF-8 stop the
    reading at the first chunk: no text at all is read. *)
Lemma read_text_bad_prefix (a b : string) :
  (String.length a <= chunk_size)%nat -> utf8_decode_gen false a = None ->
  read_text (a +:+ b) = ([], Some UnicodeDecodeError).
Proof.
  intros Hn Hbad. destruct a as [|d a]; [done|]. rewrite string_app_cons.
  unfold read_text, chunks. cbn [String.length chunks_fuel].
  destruct (split_at_prefix chunk_size (String d a) b Hn) as [c Hc]. rewrite string_app_cons in Hc.
  destruct (split_at chunk_size (String d (a +:+ b))) as [x y]. simpl in Hc. subst x.
  cbn [decode_chunks]. by rewrite string_app_nil_l, decode_gen_bad.
Qed.

(** ** The theorems of the codec *)

(** C31. Decoding inverts encoding: the UTF-8 bytes [str.encode] writes
    for a sequence of scalar values decode back to that sequence. *)
Theorem utf8_decode_encode (cps : list Z) :
  forallb scalar cps = true -> utf8_decode (utf8_encode cps) = Some cps.
Proof. intros H. unfold utf8_decode. by rewrite encode_decode_gen. Qed.

Lemma utf8_decode_encode_witness :
  forallb scalar [0x39; 0xA0; 0x669; 0x1F600] = true /\
  utf8_decode (utf8_encode [0x39; 0xA0; 0x669; 0x1F600]) = Some [0x39; 0xA0; 0x669; 0x1F600].
Proof. split; [reflexivity | apply utf8_decode_encode; reflexivity]. Defined.

(** C32. Encoding inverts decoding: bytes that decode give back the same
    bytes when their code points are encoded, the code points are scalar
    values, and there are as many as the bytes that are not continuation
    bytes. *)
Theorem utf8_encode_decode (s : string) (cps : list Z) :
  utf8_decode s = Some cps ->
  utf8_encode cps = s /\ forallb scalar cps = true /\ length cps = cp_count s.
Proof.
  unfold utf8_decode. destruct (utf8_decode_gen true s) as [[l p]|] eqn:E; intros [= <-].
  destruct (decodes_encode _ _ _ _ (proj1 (decodes_gen _ _ _ _) E)) as (Hs & Hc & Hn & Hf).
  rewrite (Hf eq_refl) in Hs, Hn. rewrite string_app_nil_r in Hs. simpl in Hn. split_and!; [done | done | lia].
Qed.

Lemma utf8_encode_decode_witness :
  utf8_decode (String "217" (String "169" (String "048" EmptyString))) = Some [0x669; 0x30] /\
  utf8_encode [0x669; 0x30] = String "217" (String "169" (String "048" EmptyString)).
Proof.
  assert (H : utf8_decode (String "217" (String "169" (String "048" EmptyString))) = Some [0x669; 0x30])
    by reflexivity.
  split; [exact H | exact (proj1 (utf8_encode_decode _ _ H))].
Defined.

(** C33. Reading a file chunk by chunk, with the bytes of a sequence cut
    by a chunk boundary kept for the next chunk, gives the text of decoding
    the whole file at once, wherever the boundaries fall; when the file is
    not UTF-8 the reading raises [UnicodeDecodeError] after code points
    whose encoding is a prefix of the file. *)
Theorem decode_chunks_whole (cs : list string) :
  let s := foldr String.append EmptyString cs in
  match utf8_decode s with
  | Some l => decode_chunks EmptyString cs = (l, None)
  | None => exists l rest, decode_chunks EmptyString cs = (l, Some UnicodeDecodeError) /\ utf8_encode l +:+ rest = s
  end.
Proof.
  pose proof (decode_chunks_spec EmptyString cs) as H. simpl in H. by rewrite string_app_nil_l in H.
Qed.

End Utf8.
