(* ===== verification/PyFloat.v ===== *)
(** * PyFloat: [int(float(s))] for a Python string [s]

    The rotation cell of every record goes through [int(float(...))]
    (src/convert_kicad_to_yy1.py, line 64).  This file models the CPython
    code behind the two calls, on the UTF-8 bytes of the cell:

    - [PyFloat_FromString]: the code points of the cell (decoded with
      [Utf8.utf8_decode]) through [_PyUnicode_TransformDecimalAndSpaceToASCII]
      (an ASCII string as it is; otherwise a white space of Unicode becomes
      a space, a decimal digit of any script its ASCII digit, and any other
      non-ASCII code point ['?'], which ends the string; the tables are
      those of Unicode 14.0, Python 3.11), then
      [_Py_string_to_number_with_underscores] on the ASCII bytes, then
      [float_from_string_inner] (strip spaces, [PyOS_string_to_double],
      whole string consumed), whose [_PyOS_ascii_strtod] calls
      [_Py_dg_strtod] (decimal grammar) and [_Py_parse_inf_or_nan];
    - the correctly rounded (round-half-even) binary64 value of the decimal
      literal, computed exactly on integers, with gradual underflow and
      overflow to infinity;
    - [float.__int__] ([PyLong_FromDouble]): truncation toward zero,
      [OverflowError] on an infinity, [ValueError] on a NaN.

    The theorems: the value of a literal is rounded correctly enough that
    [int(float(s))] is the truncation of the exact decimal value whenever
    its integer mantissa is below 2^53 (at most 15 significant digits);
    [int(float(str(z))) = z] for |z| <= 2^53; ASCII strings without digits
    and without the letter n are rejected with [ValueError]; spelled
    infinities raise [OverflowError]; the digits of every script of Unicode
    are read as the ASCII digits of the same values. *)

From S2P Require Import Prelude Utf8.
From Stdlib Require Import DecimalString DecimalPos.

Import Utf8.

Module PyFloat.

(** ** The parsed literal and the binary64 value *)

(** A literal accepted by [float()]: [(-1)^neg * m * 10^e], an infinity or
    a NaN. *)
Inductive float_lit : Type :=
| FNum (neg : bool) (m : N) (e : Z)
| FInf (neg : bool)
| FNaN (neg : bool).

(** A binary64 value: [(-1)^neg * m * 2^e] with [0 <= m <= 2^53], or an
    infinity, or a NaN. *)
Inductive binary64 : Type :=
| B64Fin (neg : bool) (m : Z) (e : Z)
| B64Inf (neg : bool)
| B64NaN (neg : bool).

(** ** Character classes of the C code *)

(** [Py_ISSPACE]: the ASCII spaces of [_Py_ctype_table]. *)
Definition py_isspace (c : ascii) : bool :=
  (code c =? 32) || ((9 <=? code c) && (code c <=? 13)).

(** [Py_UNICODE_ISSPACE] ([_PyUnicode_IsWhitespace], generated from the
    Unicode 14.0 database of Python 3.11): the code points of its switch. *)
Definition unicode_spaces : list Z := [
  0x9; 0xA; 0xB; 0xC; 0xD; 0x1C; 0x1D; 0x1E; 0x1F; 0x20;
  0x85; 0xA0; 0x1680; 0x2000; 0x2001; 0x2002; 0x2003; 0x2004; 0x2005; 0x2006;
  0x2007; 0x2008; 0x2009; 0x200A; 0x2028; 0x2029; 0x202F; 0x205F; 0x3000]%Z.

Definition unicode_isspace (cp : Z) : bool := existsb (Z.eqb cp) unicode_spaces.

(** [Py_UNICODE_TODECIMAL] ([_PyUnicode_ToDecimalDigit]): the decimal
    digits (general category Nd) come in runs of ten from a digit zero;
    these are the zeros of Unicode 14.0. *)
Definition decimal_zeros : list Z := [
  0x30; 0x660; 0x6F0; 0x7C0; 0x966; 0x9E6; 0xA66; 0xAE6;
  0xB66; 0xBE6; 0xC66; 0xCE6; 0xD66; 0xDE6; 0xE50; 0xED0;
  0xF20; 0x1040; 0x1090; 0x17E0; 0x1810; 0x1946; 0x19D0; 0x1A80;
  0x1A90; 0x1B50; 0x1BB0; 0x1C40; 0x1C50; 0xA620; 0xA8D0; 0xA900;
  0xA9D0; 0xA9F0; 0xAA50; 0xABF0; 0xFF10; 0x104A0; 0x10D30; 0x11066;
  0x110F0; 0x11136; 0x111D0; 0x112F0; 0x11450; 0x114D0; 0x11650; 0x116C0;
  0x11730; 0x118E0; 0x11950; 0x11C50; 0x11D50; 0x11DA0; 0x16A60; 0x16AC0;
  0x16B50; 0x1D7CE; 0x1D7D8; 0x1D7E2; 0x1D7EC; 0x1D7F6; 0x1E140; 0x1E2F0;
  0x1E950; 0x1FBF0]%Z.

Definition unicode_todecimal (cp : Z) : option Z :=
  option_map (fun z => (cp - z)%Z) (find (fun z => (z <=? cp)%Z && (cp <? z + 10)%Z) decimal_zeros).

Definition eq_char (c d : ascii) : bool := if ascii_dec c d then true else false.

(** ** [_PyUnicode_TransformDecimalAndSpaceToASCII] *)

(** The copy loop: code points below 127 are copied, a space becomes
    [' '], a decimal digit of any script becomes its ASCII digit, and any
    other code point becomes ['?'] and ends the string. *)
Fixpoint transform_loop (cps : list Z) : list Z :=
  match cps with
  | [] => []
  | ch :: cps' =>
      if (ch <? 127)%Z then ch :: transform_loop cps'
      else if unicode_isspace ch then 32%Z :: transform_loop cps'
      else match unicode_todecimal ch with
           | Some d => (48 + d)%Z :: transform_loop cps'
           | None => [63%Z]
           end
  end.

(** An ASCII string is returned as it is ([PyUnicode_IS_ASCII]). *)
Definition transform_decimal_and_space (cps : list Z) : list Z :=
  if forallb (fun ch => (ch <? 128)%Z) cps then cps else transform_loop cps.

(** ** [_Py_string_to_number_with_underscores] *)

(** The C string seen by [strchr] and the loop: up to the first NUL. *)
Fixpoint c_string (s : string) : string :=
  match s with
  | EmptyString => EmptyString
  | String c s' => if eq_char c "000" then EmptyString else String c (c_string s')
  end.

(** The copy loop: an underscore must follow a digit, a character after an
    underscore must be a digit, the last character must not be one. *)
Fixpoint underscores_loop (prev : ascii) (s : string) : option string :=
  match s with
  | EmptyString => if eq_char prev "_" then None else Some EmptyString
  | String c s' =>
      if eq_char c "_" then
        if is_digit prev then underscores_loop c s' else None
      else if eq_char prev "_" && negb (is_digit c) then None
      else option_map (String c) (underscores_loop c s')
  end.

Definition remove_underscores (s : string) : option string :=
  if string_has "_" (c_string s) then
    match underscores_loop "000" (c_string s) with
    | Some d => if String.eqb (c_string s) s then Some d else None
    | None => None
    end
  else Some s.

(** ** [_Py_dg_strtod]: the decimal grammar *)

Definition parse_sign (s : string) : bool * string :=
  match s with
  | String c s' =>
      if eq_char c "-" then (true, s') else if eq_char c "+" then (false, s') else (false, s)
  | EmptyString => (false, s)
  end.

(** The longest prefix of digits, and the rest. *)
Fixpoint span_digits (s : string) : string * string :=
  match s with
  | String c s' =>
      if is_digit c then let '(d, r) := span_digits s' in (String c d, r) else (EmptyString, s)
  | EmptyString => (EmptyString, EmptyString)
  end.

(** The value of a string of digits, most significant first. *)
Fixpoint digits_value_acc (acc : N) (d : string) : N :=
  match d with
  | EmptyString => acc
  | String c d' => digits_value_acc (acc * 10 + digit_value c)%N d'
  end.

Definition digits_value (d : string) : N := digits_value_acc 0 d.

Definition is_exp_char (c : ascii) : bool := eq_char c "e" || eq_char c "E".

(** The exponent part: [e] or [E], a sign, at least one digit; without a
    digit nothing is consumed ([s = s00] in the C code). *)
Definition parse_exponent (s : string) : Z * string :=
  match s with
  | String c s' =>
      if is_exp_char c then
        let '(eneg, s2) := parse_sign s' in
        let '(ed, s3) := span_digits s2 in
        if String.eqb ed "" then (0%Z, s)
        else ((if eneg then - Z.of_N (digits_value ed) else Z.of_N (digits_value ed))%Z, s3)
      else (0%Z, s)
  | EmptyString => (0%Z, s)
  end.

(** Sign, integer digits, optional point and fraction digits (at least one
    digit in all), optional exponent; [None] is the [parse_error] exit. *)
Definition dg_strtod (s : string) : option (float_lit * string) :=
  let '(neg, s1) := parse_sign s in
  let '(ip, s2) := span_digits s1 in
  let '(fp, s3) :=
    match s2 with
    | String c s' => if eq_char c "." then span_digits s' else (EmptyString, s2)
    | EmptyString => (EmptyString, s2)
    end in
  if String.eqb ip "" && String.eqb fp "" then None
  else
    let '(e, s4) := parse_exponent s3 in
    Some (FNum neg (digits_value (ip +:+ fp)) (e - Z.of_nat (String.length fp))%Z, s4).

(** ** [_Py_parse_inf_or_nan] *)

(** [Py_TOLOWER] on ASCII letters. *)
Definition to_lower (c : ascii) : ascii :=
  if (65 <=? code c) && (code c <=? 90) then ascii_of_nat (code c + 32) else c.

(** [case_insensitive_match(s, t)]: [t] (lower case) is a prefix of [s]
    up to case; the rest of [s]. *)
Fixpoint ci_prefix (s t : string) : option string :=
  match t, s with
  | EmptyString, _ => Some s
  | String a t', String c s' => if eq_char (to_lower c) a then ci_prefix s' t' else None
  | String _ _, EmptyString => None
  end.

Definition parse_inf_or_nan (s : string) : option (float_lit * string) :=
  let '(neg, s1) := parse_sign s in
  match ci_prefix s1 "inf" with
  | Some r =>
      match ci_prefix r "inity" with
      | Some r' => Some (FInf neg, r')
      | None => Some (FInf neg, r)
      end
  | None =>
      match ci_prefix s1 "nan" with
      | Some r => Some (FNaN neg, r)
      | None => None
      end
  end.

(** [_PyOS_ascii_strtod]: the decimal parse, else infinity or NaN. *)
Definition ascii_strtod (s : string) : option (float_lit * string) :=
  match dg_strtod s with
  | Some r => Some r
  | None => parse_inf_or_nan s
  end.

(** ** [float_from_string_inner] *)

Fixpoint lstrip (s : string) : string :=
  match s with
  | String c s' => if py_isspace c then lstrip s' else s
  | EmptyString => EmptyString
  end.

(** Leading spaces skipped; an all-space string is an error; the parse must
    end where the trailing spaces begin. *)
Definition float_from_string_inner (s : string) : option float_lit :=
  match lstrip s with
  | EmptyString => None
  | s1 =>
      match ascii_strtod s1 with
      | Some (lit, rest) => if string_forall py_isspace rest then Some lit else None
      | None => None
      end
  end.

(** The literal [float(s)] reads, if any: [s] holds the UTF-8 bytes of
    the string, whose code points are transformed; the ASCII result is
    read as bytes ([PyUnicode_AsUTF8AndSize]).  A cell always holds valid
    UTF-8 (it is text read by [read_text]); [None] on invalid bytes only
    makes the function total. *)
Definition py_float_lit (s : string) : option float_lit :=
  match utf8_decode s with
  | Some cps =>
      match remove_underscores (utf8_encode (transform_decimal_and_space cps)) with
      | Some d => float_from_string_inner d
      | None => None
      end
  | None => None
  end.

(** ** Correct rounding to binary64 *)

(** [floor (log2 (p / q))] for [p, q > 0]. *)
Definition log2_ratio (p q : Z) : Z :=
  let t := (Z.log2 p - Z.log2 q)%Z in
  if (0 <=? t)%Z then (if (p <? q * 2 ^ t)%Z then (t - 1)%Z else t)
  else (if (p * 2 ^ (- t) <? q)%Z then (t - 1)%Z else t).

(** [num / den] rounded to the nearest integer, ties to even. *)
Definition round_half_even (num den : Z) : Z :=
  let q := (num / den)%Z in
  let r := (num mod den)%Z in
  match Z.compare (2 * r) den with
  | Lt => q
  | Gt => (q + 1)%Z
  | Eq => if Z.even q then q else (q + 1)%Z
  end.

(** The binary exponent of the last mantissa bit of [p / q]: 52 bits below
    the leading one, never below the subnormal exponent -1074. *)
Definition ulp_exponent (p q : Z) : Z := Z.max (log2_ratio p q - 52) (-1074).

(** The mantissa of [p / q] at exponent [k]. *)
Definition round_at (p q k : Z) : Z :=
  if (0 <=? k)%Z then round_half_even p (q * 2 ^ k) else round_half_even (p * 2 ^ (- k)) q.

(** The binary64 nearest to [(-1)^neg * m * 10^e]; infinity when the
    rounded magnitude reaches [2^1024]. *)
Definition round_decimal (neg : bool) (m : N) (e : Z) : binary64 :=
  if N.eqb m 0 then B64Fin neg 0 0
  else
    let p := (Z.of_N m * 10 ^ Z.max e 0)%Z in
    let q := (10 ^ Z.max (- e) 0)%Z in
    let k := ulp_exponent p q in
    let mant := round_at p q k in
    if (1024 <=? k + Z.log2 mant)%Z then B64Inf neg else B64Fin neg mant k.

Definition round_lit (l : float_lit) : binary64 :=
  match l with
  | FNum neg m e => round_decimal neg m e
  | FInf neg => B64Inf neg
  | FNaN neg => B64NaN neg
  end.

(** [float(s)] for a string [s]. *)
Definition py_float (s : string) : res binary64 :=
  match py_float_lit s with
  | Some l => Ok (round_lit l)
  | None => Raise ValueError
  end.

(** ** [int(x)] for a float [x]: [PyLong_FromDouble] *)

Definition apply_sign (neg : bool) (a : Z) : Z := if neg then (- a)%Z else a.

Definition py_int_of_float (f : binary64) : res Z :=
  match f with
  | B64NaN _ => Raise ValueError
  | B64Inf _ => Raise OverflowError
  | B64Fin neg m k =>
      Ok (apply_sign neg (if (0 <=? k)%Z then m * 2 ^ k else m / 2 ^ (- k))%Z)
  end.

(** [int(float(s))]. *)
Definition py_int_float_str (s : string) : res Z := res_bind (py_float s) py_int_of_float.

(** [str(z)] for a Python int: decimal digits, a minus sign when negative. *)
Definition py_str_int (z : Z) : string := NilZero.string_of_int (Z.to_int z).

(** ** Character predicates of the theorems *)

(** ASCII characters accepted by neither the decimal grammar nor the
    inf/nan spellings. *)
Definition no_digit_no_n (c : ascii) : bool :=
  negb (is_digit c) && negb (eq_char (to_lower c) "n") && (code c <? 128).

(** The characters of [str(z)]: digits and the minus sign. *)
Definition num_char (c : ascii) : bool := is_digit c || eq_char c "-".

(** ** Characters *)

Lemma eq_char_true (c d : ascii) : eq_char c d = true <-> c = d.
Proof. unfold eq_char. by destruct (ascii_dec c d). Qed.

(** ** Rounding: exactness of the truncation *)

Section Rounding.
Local Open Scope Z_scope.

Lemma pow2_add (x y : Z) : 0 <= x -> 0 <= y -> 2 ^ (x + y) = 2 ^ x * 2 ^ y.
Proof. intros. by apply Z.pow_add_r. Qed.

Lemma pow2_pos (x : Z) : 0 <= x -> 0 < 2 ^ x.
Proof. intros. apply Z.pow_pos_nonneg; lia. Qed.

Lemma pow2_succ (x : Z) : 0 <= x -> 2 ^ (x + 1) = 2 * 2 ^ x.
Proof. intros. rewrite Z.add_1_r. by apply Z.pow_succ_r. Qed.

(** The two cases of [log2_ratio], before scaling. *)
Lemma log2_ratio_base (p q : Z) : 0 < p -> 0 < q ->
  let t := log2_ratio p q in
  (0 <= t -> q * 2 ^ t <= p < q * 2 ^ (t + 1)) /\
  (t < 0 -> q <= p * 2 ^ (- t) < 2 * q).
Proof.
  intros Hp Hq. unfold log2_ratio.
  pose proof (Z.log2_spec p Hp) as [Pa Pa']. pose proof (Z.log2_spec q Hq) as [Qb Qb'].
  pose proof (Z.log2_nonneg p) as Na. pose proof (Z.log2_nonneg q) as Nb.
  set (a := Z.log2 p) in *. set (b := Z.log2 q) in *.
  rewrite <- Z.add_1_r, pow2_succ in Pa', Qb' by lia.
  pose proof (pow2_pos a Na) as Pa0. pose proof (pow2_pos b Nb) as Pb0.
  destruct (Z.leb_spec 0 (a - b)) as [H0|H0].
  - assert (E : 2 ^ a = 2 ^ (a - b) * 2 ^ b) by (rewrite <- pow2_add by lia; f_equal; lia).
    pose proof (pow2_pos (a - b) H0).
    destruct (Z.ltb_spec p (q * 2 ^ (a - b))) as [H1|H1].
    + destruct (Z.eq_dec (a - b) 0) as [Z0|Z0].
      * rewrite Z0 in *. simpl in *. split; intros; [lia|]. simpl. nia.
      * assert (E' : 2 ^ (a - b) = 2 * 2 ^ (a - b - 1))
          by (rewrite <- pow2_succ by lia; f_equal; lia).
        pose proof (pow2_pos (a - b - 1) ltac:(lia)).
        split; intros; [|lia]. replace (a - b - 1 + 1) with (a - b) by lia. nia.
    + split; intros; [|lia]. rewrite pow2_succ by lia. nia.
  - assert (E : 2 ^ b = 2 ^ (b - a) * 2 ^ a) by (rewrite <- pow2_add by lia; f_equal; lia).
    pose proof (pow2_pos (b - a) ltac:(lia)).
    replace (- (a - b)) with (b - a) by lia.
    destruct (Z.ltb_spec (p * 2 ^ (b - a)) q) as [H1|H1]; split; intros; try lia.
    + replace (- (a - b - 1)) with (b - a + 1) by lia. rewrite pow2_succ by lia. nia.
    + replace (- (a - b)) with (b - a) by lia. split; [lia|].
      assert (p * 2 ^ (b - a) < 2 * 2 ^ a * 2 ^ (b - a)) by (apply Z.mul_lt_mono_pos_r; lia).
      nia.
Qed.

(** Scaled by [2^i]: [2^(i+t) <= p/q * 2^i < 2^(i+t+1)]. *)
Lemma log2_ratio_spec (p q i : Z) : 0 < p -> 0 < q -> 0 <= i -> 0 <= i + log2_ratio p q ->
  q * 2 ^ (i + log2_ratio p q) <= p * 2 ^ i < q * 2 ^ (i + log2_ratio p q + 1).
Proof.
  intros Hp Hq Hi Hit. destruct (log2_ratio_base p q Hp Hq) as [B1 B2].
  set (t := log2_ratio p q) in *.
  destruct (Z.leb_spec 0 t) as [Ht|Ht].
  - specialize (B1 Ht). pose proof (pow2_pos i Hi).
    rewrite (Z.add_comm i t), pow2_add, <- Z.add_assoc, (Z.add_comm i 1), Z.add_assoc, pow2_add by lia.
    nia.
  - specialize (B2 Ht). pose proof (pow2_pos (i + t) Hit).
    assert (E : 2 ^ i = 2 ^ (i + t) * 2 ^ (- t)) by (rewrite <- pow2_add by lia; f_equal; lia).
    rewrite E, (pow2_succ (i + t)) by lia.
    set (X := 2 ^ (i + t)) in *. set (Y := 2 ^ (- t)) in *.
    assert (q * X <= (p * Y) * X) by (apply Z.mul_le_mono_nonneg_r; lia).
    assert ((p * Y) * X < (2 * q) * X) by (apply Z.mul_lt_mono_pos_r; lia).
    lia.
Qed.

(** Rounding to nearest lies between the floor and round-half-up. *)
Lemma round_half_even_bounds (num den : Z) : 0 < den ->
  num / den <= round_half_even num den <= (2 * num + den) / (2 * den).
Proof.
  intros Hd. unfold round_half_even.
  pose proof (Z.div_mod num den ltac:(lia)) as Ediv. pose proof (Z.mod_pos_bound num den Hd) as Hr.
  set (q := num / den) in *. set (r := num mod den) in *.
  assert (Lq : q <= (2 * num + den) / (2 * den)) by (apply Z.div_le_lower_bound; lia).
  assert (Lq1 : den <= 2 * r -> q + 1 <= (2 * num + den) / (2 * den))
    by (intros; apply Z.div_le_lower_bound; lia).
  destruct (Z.compare_spec (2 * r) den); [destruct (Z.even q)|..]; lia.
Qed.

(** The exponent chosen for [p/q < 2^53]: not positive, the scaled value
    fits 53 bits, and it has 53 bits unless it is subnormal. *)
Lemma ulp_exponent_bounds (p q : Z) : 0 < p -> 0 < q -> p < 2 ^ 53 * q ->
  let k := ulp_exponent p q in
  k <= 0 /\ p * 2 ^ (- k) < q * 2 ^ 53 /\
  (q * 2 ^ 52 <= p * 2 ^ (- k) \/ (k = -1074 /\ p * 2 ^ 1022 < q)).
Proof.
  intros Hp Hq Hx. unfold ulp_exponent. set (t := log2_ratio p q).
  assert (Ht : t <= 52).
  { destruct (Z.leb_spec 0 t) as [H0|H0]; [|lia].
    pose proof (log2_ratio_spec p q 0 Hp Hq ltac:(lia) H0) as [S _]. fold t in S.
    rewrite Z.pow_0_r, Z.mul_1_r, Z.add_0_l in S.
    assert (2 ^ t < 2 ^ 53). { apply (Z.mul_lt_mono_pos_l q); [lia|]. lia. }
    apply Z.pow_lt_mono_r_iff in H; lia. }
  destruct (Z.leb_spec (-1074) (t - 52)) as [Hc|Hc].
  - rewrite Z.max_l by lia. replace (- (t - 52)) with (52 - t) by lia.
    pose proof (log2_ratio_spec p q (52 - t) Hp Hq ltac:(lia) ltac:(fold t; lia)) as S.
    fold t in S. replace (52 - t + t) with 52 in S by lia. lia.
  - rewrite Z.max_r by lia. simpl (- -1074).
    pose proof (log2_ratio_spec p q (- t) Hp Hq ltac:(lia) ltac:(fold t; lia)) as S.
    fold t in S. replace (- t + t) with 0 in S by lia. simpl in S.
    assert (E : 2 ^ (- t) = 2 ^ 1022 * 2 ^ (- t - 1022))
      by (rewrite <- pow2_add by lia; f_equal; lia).
    assert (2 <= 2 ^ (- t - 1022)).
    { change 2 with (2 ^ 1) at 1. apply Z.pow_le_mono_r; lia. }
    assert (p * 2 ^ 1022 < q) by nia.
    assert (E2 : 2 ^ 1074 = 2 ^ 1022 * 2 ^ 52) by reflexivity.
    split; [lia|]. split; [nia | right; split; [done | lia]].
Qed.

(** [round_at] at a non-positive exponent rounds the scaled numerator. *)
Lemma round_at_nonpos (p q k : Z) : k <= 0 ->
  round_at p q k = round_half_even (p * 2 ^ (- k)) q.
Proof.
  intros Hk. unfold round_at. destruct (Z.leb_spec 0 k); [|done].
  assert (k = 0) as -> by lia. by rewrite Z.mul_1_r, Z.mul_1_r.
Qed.

(** At most 53 significant bits: the truncation of the rounded value is the
    truncation of [p / q]. *)
Lemma round_at_trunc (p q : Z) : 0 < p -> 0 < q -> p < 2 ^ 53 ->
  let k := ulp_exponent p q in
  round_at p q k / 2 ^ (- k) = p / q /\ 0 <= round_at p q k <= 2 ^ 53.
Proof.
  intros Hp Hq Hp53 k.
  pose proof (ulp_exponent_bounds p q Hp Hq ltac:(nia)) as Hb. cbv zeta in Hb.
  change (ulp_exponent p q) with k in Hb. destruct Hb as (Hk & U & L).
  rewrite round_at_nonpos by done.
  set (j := - k) in *. assert (Hj : 0 < 2 ^ j) by (apply pow2_pos; lia).
  pose proof (round_half_even_bounds (p * 2 ^ j) q Hq) as [Lo Hi].
  set (m := round_half_even (p * 2 ^ j) q) in *.
  pose proof (Z.div_mod p q ltac:(lia)) as Ep. pose proof (Z.mod_pos_bound p q Hq) as Hr.
  set (N := p / q) in *. set (r := p mod q) in *.
  assert (HN : 0 <= N) by (apply Z.div_pos; lia).
  assert (Lm : N * 2 ^ j <= m).
  { enough (N * 2 ^ j <= p * 2 ^ j / q) by lia. apply Z.div_le_lower_bound; nia. }
  assert (Um : m < (N + 1) * 2 ^ j).
  { enough ((2 * (p * 2 ^ j) + q) / (2 * q) < (N + 1) * 2 ^ j) by lia.
    apply Z.div_lt_upper_bound; [lia|].
    enough (q < 2 * 2 ^ j * (q - r)) by nia.
    destruct L as [L | [Kc L]].
    - assert (q * 2 ^ 52 < 2 ^ 53 * 2 ^ j) by nia. nia.
    - assert (j = 1074) as -> by lia. assert (N = 0) by (apply Z.div_small; nia).
      assert (r = p) by lia. nia. }
  split.
  - symmetry. apply (Z.div_unique_pos m (2 ^ j) N (m - N * 2 ^ j)); lia.
  - split; [nia|]. enough (m < 2 ^ 53 + 1) by lia.
    enough ((2 * (p * 2 ^ j) + q) / (2 * q) < 2 ^ 53 + 1) by lia.
    apply Z.div_lt_upper_bound; lia.
Qed.

Theorem int_round_decimal (neg : bool) (m : N) (e : Z) :
  Z.of_N m * 10 ^ Z.max e 0 < 2 ^ 53 ->
  py_int_of_float (round_decimal neg m e) =
    Ok (apply_sign neg (Z.of_N m * 10 ^ Z.max e 0 / 10 ^ Z.max (- e) 0)).
Proof.
  intros Hm. unfold round_decimal.
  assert (Hq : 0 < 10 ^ Z.max (- e) 0) by (apply Z.pow_pos_nonneg; lia).
  assert (H10 : 0 < 10 ^ Z.max e 0) by (apply Z.pow_pos_nonneg; lia).
  destruct (N.eqb_spec m 0) as [->|Hm0].
  - simpl. by rewrite Z.div_0_l by lia.
  - set (p := Z.of_N m * 10 ^ Z.max e 0) in *. set (q := 10 ^ Z.max (- e) 0) in *.
    assert (Hp : 0 < p) by (subst p; nia).
    pose proof (round_at_trunc p q Hp Hq Hm) as Ht. cbv zeta in Ht. destruct Ht as [T [B0 B]].
    pose proof (ulp_exponent_bounds p q Hp Hq ltac:(nia)) as Hb. cbv zeta in Hb.
    destruct Hb as [Hk _].
    set (k := ulp_exponent p q) in *. set (mt := round_at p q k) in *.
    assert (Z.log2 mt <= 53).
    { rewrite <- (Z.log2_pow2 53) by lia. by apply Z.log2_le_mono. }
    destruct (Z.leb_spec 1024 (k + Z.log2 mt)); [lia|]. simpl.
    destruct (Z.leb_spec 0 k).
    + assert (k = 0) as -> by lia. rewrite <- T. simpl. by rewrite Z.mul_1_r, Z.div_1_r.
    + by rewrite T.
Qed.

(** A decimal of magnitude at least [2^1024] rounds to an infinity. *)
Lemma round_decimal_overflow (neg : bool) (m : N) (e : Z) :
  2 ^ 1024 * 10 ^ Z.max (- e) 0 <= Z.of_N m * 10 ^ Z.max e 0 ->
  round_decimal neg m e = B64Inf neg.
Proof.
  intros Hov. unfold round_decimal.
  assert (Hq : 0 < 10 ^ Z.max (- e) 0) by (apply Z.pow_pos_nonneg; lia).
  destruct (N.eqb_spec m 0) as [->|Hm0]; [simpl in Hov; lia|].
  set (p := Z.of_N m * 10 ^ Z.max e 0) in *. set (q := 10 ^ Z.max (- e) 0) in *.
  assert (Hp : 0 < p) by lia.
  destruct (log2_ratio_base p q Hp Hq) as [B1 B2]. set (t := log2_ratio p q) in *.
  assert (Ht : 1024 <= t).
  { destruct (Z.leb_spec 0 t) as [H0|H0].
    - destruct (B1 H0) as [_ Hu]. enough (2 ^ 1024 < 2 ^ (t + 1)).
      { apply Z.pow_lt_mono_r_iff in H; lia. }
      apply (Z.mul_lt_mono_pos_l q); lia.
    - destruct (B2 H0) as [_ Hu].
      assert (2 <= 2 ^ (- t)) by (change 2 with (2 ^ 1) at 1; apply Z.pow_le_mono_r; lia).
      nia. }
  unfold ulp_exponent. fold t. rewrite Z.max_l by lia. unfold round_at.
  destruct (Z.leb_spec 0 (t - 52)) as [Hk|Hk]; [|lia].
  assert (E : 2 ^ t = 2 ^ (t - 52) * 2 ^ 52) by (rewrite <- pow2_add by lia; f_equal; lia).
  destruct (B1 ltac:(lia)) as [Hl _].
  assert (Hk2 : 0 < 2 ^ (t - 52)) by (apply pow2_pos; lia).
  pose proof (round_half_even_bounds p (q * 2 ^ (t - 52)) ltac:(nia)) as [Lo _].
  assert (2 ^ 52 <= p / (q * 2 ^ (t - 52))) by (apply Z.div_le_lower_bound; nia).
  assert (L52 : Z.log2 (2 ^ 52) <= Z.log2 (round_half_even p (q * 2 ^ (t - 52))))
    by (apply Z.log2_le_mono; lia).
  rewrite Z.log2_pow2 in L52 by lia.
  destruct (Z.leb_spec 1024 (t - 52 + Z.log2 (round_half_even p (q * 2 ^ (t - 52))))); [done|lia].
Qed.

End Rounding.

(** ** ASCII strings *)

(** An ASCII string is read as it is: decoding and the transform leave
    its bytes unchanged. *)
Lemma py_float_lit_ascii (s : string) :
  string_forall (fun c => code c <? 128) s = true ->
  py_float_lit s = match remove_underscores s with Some d => float_from_string_inner d | None => None end.
Proof.
  intros H. destruct (utf8_decode_ascii s H) as (cps & E & Ha & He).
  unfold py_float_lit, transform_decimal_and_space. by rewrite E, Ha, He.
Qed.

(** ** Rejection of strings without digits *)

Section Rejection.
Local Abbreviation P := no_digit_no_n.

Lemma c_string_forall (q : ascii -> bool) (s : string) :
  string_forall q s = true -> string_forall q (c_string s) = true.
Proof.
  induction s as [|c s IH]; simpl; [done|]. intros [Hc Hs]%andb_prop.
  destruct (eq_char c "000"); simpl; [done | by rewrite Hc, IH].
Qed.

Lemma underscores_loop_forall (q : ascii -> bool) (prev : ascii) (s d : string) :
  underscores_loop prev s = Some d -> string_forall q s = true -> string_forall q d = true.
Proof.
  revert prev d. induction s as [|c s IH]; intros prev d; simpl.
  - destruct (eq_char prev "_"); intros E; simplify_eq; done.
  - intros E [Hc Hs]%andb_prop. destruct (eq_char c "_").
    + destruct (is_digit prev); [eauto | done].
    + destruct (eq_char prev "_" && negb (is_digit c)); [done|].
      destruct (underscores_loop c s) as [d'|] eqn:E'; simpl in E; simplify_eq.
      simpl. rewrite Hc. eauto.
Qed.

Lemma remove_underscores_forall (q : ascii -> bool) (s d : string) :
  remove_underscores s = Some d -> string_forall q s = true -> string_forall q d = true.
Proof.
  unfold remove_underscores. intros E Hs.
  destruct (string_has "_" (c_string s)); [|by simplify_eq].
  destruct (underscores_loop "000" (c_string s)) as [d'|] eqn:E'; [|done].
  destruct (String.eqb (c_string s) s); simplify_eq.
  eapply underscores_loop_forall; [done | by apply c_string_forall].
Qed.

Lemma lstrip_forall (q : ascii -> bool) (s : string) :
  string_forall q s = true -> string_forall q (lstrip s) = true.
Proof.
  induction s as [|c s IH]; simpl; [done|]. intros Hs.
  destruct (py_isspace c); [apply IH|done]. by apply andb_prop in Hs as [_ ?].
Qed.

Lemma parse_sign_forall (q : ascii -> bool) (s : string) :
  string_forall q s = true -> string_forall q (parse_sign s).2 = true.
Proof.
  destruct s as [|c s]; simpl; [done|]. intros Hs.
  destruct (eq_char c "-"); [by apply andb_prop in Hs as [_ ?]|].
  destruct (eq_char c "+"); [by apply andb_prop in Hs as [_ ?]|done].
Qed.

Lemma span_digits_none (s : string) :
  string_forall P s = true -> span_digits s = (EmptyString, s).
Proof.
  destruct s as [|c s]; simpl; [done|]. unfold P, no_digit_no_n.
  destruct (is_digit c); simpl; done.
Qed.

Lemma dg_strtod_none (s : string) : string_forall P s = true -> dg_strtod s = None.
Proof.
  intros Hs. unfold dg_strtod.
  pose proof (parse_sign_forall P s Hs) as H1. destruct (parse_sign s) as [neg s1]. simpl in H1.
  rewrite (span_digits_none s1 H1).
  destruct s1 as [|c s1]; [done|]. simpl in H1. apply andb_prop in H1 as [_ H1].
  destruct (eq_char c "."); [|done]. by rewrite (span_digits_none s1 H1).
Qed.

Lemma ci_prefix_has_n (s t r : string) :
  ci_prefix s t = Some r -> string_has "n" t = true -> string_forall P s = false.
Proof.
  revert s. induction t as [|a t IH]; intros s E Hn; [discriminate|].
  destruct s as [|c s]; [discriminate|].
  cbn [ci_prefix] in E. destruct (eq_char (to_lower c) a) eqn:Ea; [|discriminate].
  cbn [string_has] in Hn. cbn [string_forall].
  destruct (ascii_dec "n" a) as [<-|Hna].
  - unfold no_digit_no_n at 1. rewrite Ea. simpl. by rewrite andb_false_r.
  - simpl in Hn. by rewrite (IH s E Hn), andb_false_r.
Qed.

Lemma inf_or_nan_none (s : string) : string_forall P s = true -> parse_inf_or_nan s = None.
Proof.
  intros Hs. unfold parse_inf_or_nan.
  pose proof (parse_sign_forall P s Hs) as H1. destruct (parse_sign s) as [neg s1]. simpl in H1.
  destruct (ci_prefix s1 "inf") as [r|] eqn:E1.
  { by rewrite (ci_prefix_has_n _ _ _ E1 eq_refl) in H1. }
  destruct (ci_prefix s1 "nan") as [r|] eqn:E2; [|done].
  by rewrite (ci_prefix_has_n _ _ _ E2 eq_refl) in H1.
Qed.
End Rejection.

(** A string with no digit and no letter [n] is not a float literal:
    [float()] raises [ValueError] on it. *)
Theorem float_lit_rejects (s : string) :
  string_forall no_digit_no_n s = true -> py_float_lit s = None.
Proof.
  intros Hs. rewrite py_float_lit_ascii by (eapply string_forall_impl; [|exact Hs];
    unfold no_digit_no_n; intros c [_ ?]%andb_prop; done).
  destruct (remove_underscores s) as [d|] eqn:E; [|done].
  pose proof (remove_underscores_forall _ _ _ E Hs) as Hd.
  unfold float_from_string_inner. pose proof (lstrip_forall _ d Hd) as Hl.
  destruct (lstrip d) as [|c t]; [done|].
  unfold ascii_strtod. by rewrite dg_strtod_none, inf_or_nan_none.
Qed.

(** ** Rejection of other symbols *)

(** The parsers consume no question mark: each returns a rest of its
    input after a prefix without ['?']. *)
Section Question.
Local Abbreviation q := "?"%char.

Definition skips (s r : string) : Prop := exists pre, s = pre +:+ r /\ string_has q pre = false.

Lemma skips_refl (s : string) : skips s s.
Proof. by exists EmptyString. Qed.

Lemma string_has_app (c : ascii) (a b : string) : string_has c (a +:+ b) = string_has c a || string_has c b.
Proof. induction a as [|d a IH]; rewrite ?string_app_cons; simpl; [done | by rewrite IH, orb_assoc]. Qed.

Lemma skips_trans (a b c : string) : skips a b -> skips b c -> skips a c.
Proof.
  intros (p1 & -> & H1) (p2 & -> & H2). exists (p1 +:+ p2).
  by rewrite string_app_assoc, string_has_app, H1, H2.
Qed.

Lemma skips_cons (c : ascii) (s : string) : c <> q -> skips (String c s) s.
Proof.
  intros Hc. exists (String c EmptyString). split; [done|]. cbn [string_has].
  destruct (ascii_dec q c) as [E|]; [congruence | done].
Qed.

Lemma eq_char_not_q (c d : ascii) : eq_char c d = true -> d <> q -> c <> q.
Proof. by intros ->%eq_char_true. Qed.

Lemma parse_sign_skips (s : string) : skips s (parse_sign s).2.
Proof.
  destruct s as [|c s]; simpl; [apply skips_refl|].
  destruct (eq_char c "-") eqn:E1; [apply skips_cons; by eapply eq_char_not_q|].
  destruct (eq_char c "+") eqn:E2; [apply skips_cons; by eapply eq_char_not_q | apply skips_refl].
Qed.

Lemma span_digits_skips (s : string) : skips s (span_digits s).2.
Proof.
  induction s as [|c s IH]; simpl; [apply skips_refl|].
  destruct (is_digit c) eqn:Hd; [|apply skips_refl].
  destruct (span_digits s) as [d r]. simpl in *. apply (skips_trans _ s); [|done].
  apply skips_cons. intros ->. discriminate.
Qed.

Lemma parse_exponent_skips (s : string) : skips s (parse_exponent s).2.
Proof.
  destruct s as [|c s]; simpl; [apply skips_refl|].
  destruct (is_exp_char c) eqn:He; [|apply skips_refl].
  pose proof (parse_sign_skips s) as H1. destruct (parse_sign s) as [eneg s2].
  pose proof (span_digits_skips s2) as H2. destruct (span_digits s2) as [ed s3].
  destruct (String.eqb ed ""); [apply skips_refl|]. simpl in *.
  apply (skips_trans _ s); [|eapply skips_trans; eauto].
  apply skips_cons. intros ->. discriminate.
Qed.

Lemma dg_strtod_skips (s : string) (l : float_lit) (r : string) : dg_strtod s = Some (l, r) -> skips s r.
Proof.
  unfold dg_strtod.
  pose proof (parse_sign_skips s) as H1. destruct (parse_sign s) as [neg s1].
  pose proof (span_digits_skips s1) as H2. destruct (span_digits s1) as [ip s2].
  assert (H3 : skips s2 (match s2 with
                         | String c s' => if eq_char c "." then span_digits s' else (EmptyString, s2)
                         | EmptyString => (EmptyString, s2) end).2).
  { destruct s2 as [|c s2]; [apply skips_refl|]. destruct (eq_char c ".") eqn:E; [|apply skips_refl].
    apply (skips_trans _ s2); [apply skips_cons; by eapply eq_char_not_q | apply span_digits_skips]. }
  destruct (match s2 with
            | String c s' => if eq_char c "." then span_digits s' else (EmptyString, s2)
            | EmptyString => (EmptyString, s2) end) as [fp s3]. simpl in *.
  destruct (String.eqb ip "" && String.eqb fp ""); [done|].
  pose proof (parse_exponent_skips s3) as H4. destruct (parse_exponent s3) as [e s4]. intros [= _ <-].
  eauto using skips_trans.
Qed.

Lemma ci_prefix_skips (s t r : string) : ci_prefix s t = Some r -> string_has q t = false -> skips s r.
Proof.
  revert s. induction t as [|a t IH]; intros s E Ht.
  { destruct s; simpl in E; injection E as <-; apply skips_refl. }
  destruct s as [|c s]; simpl in E; [done|]. destruct (eq_char (to_lower c) a) eqn:Ea; [|done].
  simpl in Ht. apply orb_false_iff in Ht as [Ha Ht].
  apply (skips_trans _ s); [|by apply IH].
  apply skips_cons. intros ->. apply eq_char_true in Ea. vm_compute in Ea. subst a.
  by destruct (ascii_dec q q).
Qed.

Lemma ascii_strtod_skips (s : string) (l : float_lit) (r : string) : ascii_strtod s = Some (l, r) -> skips s r.
Proof.
  unfold ascii_strtod. destruct (dg_strtod s) as [[l' r']|] eqn:E; [intros [= -> ->]; by eapply dg_strtod_skips|].
  unfold parse_inf_or_nan. pose proof (parse_sign_skips s) as H1. destruct (parse_sign s) as [neg s1].
  simpl in H1. destruct (ci_prefix s1 "inf") as [r1|] eqn:E1.
  - pose proof (ci_prefix_skips _ _ _ E1 eq_refl). destruct (ci_prefix r1 "inity") as [r2|] eqn:E2;
      intros [= _ <-]; [pose proof (ci_prefix_skips _ _ _ E2 eq_refl)|]; eauto using skips_trans.
  - destruct (ci_prefix s1 "nan") as [r1|] eqn:E3; [|done]. intros [= _ <-].
    pose proof (ci_prefix_skips _ _ _ E3 eq_refl). eauto using skips_trans.
Qed.

Lemma lstrip_skips (s : string) : skips s (lstrip s).
Proof.
  induction s as [|c s IH]; simpl; [apply skips_refl|]. destruct (py_isspace c) eqn:Hc; [|apply skips_refl].
  apply (skips_trans _ s); [|done]. apply skips_cons. intros ->. discriminate.
Qed.

(** A question mark is never consumed and is not a space: a string
    holding one is rejected. *)
Lemma float_inner_question (d : string) : string_has q d = true -> float_from_string_inner d = None.
Proof.
  intros Hq. unfold float_from_string_inner. pose proof (lstrip_skips d) as (p1 & E1 & H1).
  destruct (lstrip d) as [|c t] eqn:El; [done|].
  destruct (ascii_strtod (String c t)) as [[l r]|] eqn:Es; [|done].
  destruct (ascii_strtod_skips _ _ _ Es) as (p2 & E2 & H2).
  destruct (string_forall py_isspace r) eqn:Hr; [|done].
  by rewrite E1, E2, !string_has_app, H1, H2, (string_has_forall q py_isspace r) in Hq.
Qed.

Lemma underscores_loop_question (prev : ascii) (s d : string) :
  underscores_loop prev s = Some d -> string_has q s = true -> string_has q d = true.
Proof.
  revert prev d. induction s as [|c s IH]; intros prev d; cbn [underscores_loop];
    [by destruct (eq_char prev "_")|].
  destruct (eq_char c "_") eqn:Eu.
  - apply eq_char_true in Eu as ->. destruct (is_digit prev); [|done]. intros E. exact (IH "_"%char d E).
  - destruct (eq_char prev "_" && negb (is_digit c)); [done|].
    destruct (underscores_loop c s) as [d'|] eqn:E; intros [= <-]; cbn [string_has].
    destruct (ascii_dec q c); [done|]. exact (IH c d' E).
Qed.

Lemma remove_underscores_question (s d : string) :
  remove_underscores s = Some d -> string_has q s = true -> string_has q d = true.
Proof.
  unfold remove_underscores. destruct (string_has "_" (c_string s)); [|by intros [= <-]].
  destruct (underscores_loop "000" (c_string s)) as [d'|] eqn:E; [|done].
  destruct (String.eqb_spec (c_string s) s) as [Hc|]; [intros [= <-] Hq|done].
  rewrite <- Hc in Hq. by apply (underscores_loop_question "000" (c_string s)).
Qed.
End Question.

(** The transform ends with ['?'] after a non-ASCII code point that is
    neither a space nor a digit. *)
Lemma transform_loop_question (cps : list Z) (ch : Z) :
  In ch cps -> (127 <= ch)%Z -> unicode_isspace ch = false -> unicode_todecimal ch = None ->
  In 63%Z (transform_loop cps).
Proof.
  intros Hin Hch Hsp Hdec. induction cps as [|c cps IH]; [done|]. simpl.
  destruct Hin as [->|Hin].
  - rewrite (proj2 (Z.ltb_ge _ _)) by lia. rewrite Hsp, Hdec. by left.
  - destruct (c <? 127)%Z; [right; by apply IH|]. destruct (unicode_isspace c); [right; by apply IH|].
    destruct (unicode_todecimal c); [right; by apply IH | by left].
Qed.

Lemma utf8_encode_question (l : list Z) : In 63%Z l -> string_has "?" (utf8_encode l) = true.
Proof.
  induction l as [|c l IH]; [done|]. intros [->|Hin]; simpl; [done|].
  by rewrite string_has_app, IH, orb_true_r.
Qed.

(** [float()] rejects a string holding a non-ASCII code point that is
    neither a space nor a decimal digit: the transform cuts the string
    there with ['?']. *)
Lemma py_float_lit_symbol (s : string) (cps : list Z) (ch : Z) :
  utf8_decode s = Some cps -> In ch cps -> (128 <= ch)%Z ->
  unicode_isspace ch = false -> unicode_todecimal ch = None -> py_float_lit s = None.
Proof.
  intros E Hin Hch Hsp Hdec. unfold py_float_lit, transform_decimal_and_space. rewrite E.
  assert (forallb (fun c => c <? 128)%Z cps = false) as ->.
  { apply not_true_iff_false. intros Hall. rewrite forallb_forall in Hall.
    specialize (Hall ch Hin). apply Z.ltb_lt in Hall. lia. }
  destruct (remove_underscores _) as [d|] eqn:Er; [|done].
  apply float_inner_question, (remove_underscores_question _ _ Er), utf8_encode_question.
  apply (transform_loop_question _ ch); (done || lia).
Qed.

(** ** [str(z)] read back *)

Lemma string_of_uint_digits (u : Decimal.uint) :
  string_forall is_digit (NilEmpty.string_of_uint u) = true.
Proof. induction u; simpl; by rewrite ?IHu. Qed.

Lemma digits_value_of_uint_acc (u : Decimal.uint) (acc : positive) :
  digits_value_acc (N.pos acc) (NilEmpty.string_of_uint u) = N.pos (Pos.of_uint_acc u acc).
Proof.
  revert acc. induction u; intros acc; simpl; [done|..];
    rewrite <- IHu; f_equal; unfold digit_value; simpl; lia.
Qed.

Lemma digits_value_of_uint (u : Decimal.uint) :
  digits_value (NilEmpty.string_of_uint u) = Pos.of_uint u.
Proof.
  unfold digits_value. induction u; simpl; [done|done|..];
    rewrite <- digits_value_of_uint_acc; done.
Qed.

(** [str(p)] for a positive int: its digits, whose value is [p]. *)
Lemma py_str_int_pos (p : positive) :
  exists d, py_str_int (Z.pos p) = d /\ d <> EmptyString /\
    string_forall is_digit d = true /\ digits_value d = N.pos p.
Proof.
  unfold py_str_int. simpl.
  assert (V : digits_value (NilEmpty.string_of_uint (Pos.to_uint p)) = N.pos p)
    by (rewrite digits_value_of_uint; apply Unsigned.of_to).
  destruct (Pos.to_uint p) eqn:E; try by (eexists; split; [done|]; split;
    [done | split; [apply string_of_uint_digits | done]]).
  done.
Qed.

Lemma py_str_int_neg (p : positive) :
  py_str_int (Z.neg p) = String "-" (py_str_int (Z.pos p)).
Proof. unfold py_str_int. simpl. by destruct (Pos.to_uint p). Qed.

Lemma span_digits_all (s : string) :
  string_forall is_digit s = true -> span_digits s = (s, EmptyString).
Proof.
  induction s as [|c s IH]; simpl; [done|]. intros [-> Hs]%andb_prop. by rewrite IH.
Qed.

Lemma c_string_id (s : string) :
  string_forall (fun c => negb (eq_char c "000")) s = true -> c_string s = s.
Proof.
  induction s as [|c s IH]; simpl; [done|]. intros [Hc Hs]%andb_prop.
  destruct (eq_char c "000"); [done|]. by rewrite IH.
Qed.

Lemma num_char_ascii (c : ascii) : num_char c = true -> (code c <? 128) = true.
Proof.
  unfold num_char, is_digit. intros [[_ H]%andb_prop | H]%orb_prop.
  - apply Nat.leb_le in H. apply Nat.ltb_lt. lia.
  - unfold eq_char in H. by destruct (ascii_dec c "-") as [->|].
Qed.

Lemma num_char_not_nul (c : ascii) : num_char c = true -> negb (eq_char c "000") = true.
Proof.
  unfold num_char, eq_char. destruct (ascii_dec c "000") as [->|]; [done|]. done.
Qed.

Lemma digit_not_sign (c : ascii) :
  is_digit c = true -> eq_char c "-" = false /\ eq_char c "+" = false /\ py_isspace c = false.
Proof.
  unfold eq_char, py_isspace, is_digit. intros [H1 H2]%andb_prop.
  apply Nat.leb_le in H1, H2.
  destruct (ascii_dec c "-") as [->|]; [cbv in H1; lia|].
  destruct (ascii_dec c "+") as [->|]; [cbv in H1; lia|].
  repeat split. destruct (code c =? 32) eqn:E; [apply Nat.eqb_eq in E; lia|].
  destruct (9 <=? code c); [|done]. simpl. apply Nat.leb_gt. lia.
Qed.

(** The literal read from an optional minus sign followed by digits. *)
Lemma py_float_lit_digits (neg : bool) (d : string) :
  d <> EmptyString -> string_forall is_digit d = true ->
  py_float_lit ((if neg then "-" else "") +:+ d) = Some (FNum neg (digits_value d) 0%Z).
Proof.
  intros Hne Hd. destruct d as [|c d]; [done|]. pose proof Hd as Hd'.
  simpl in Hd'. apply andb_prop in Hd' as [Hc Hd'].
  destruct (digit_not_sign c Hc) as (Hm & Hp & Hsp).
  assert (Hs : string_forall num_char ((if neg then "-" else "") +:+ String c d) = true).
  { rewrite string_forall_app. apply andb_true_intro; split; [by destruct neg|].
    apply (string_forall_impl is_digit); [|done]. unfold num_char. intros x ->. done. }
  assert (Hdg : forall s, s = (if neg then "-" else "") +:+ String c d ->
            dg_strtod s = Some (FNum neg (digits_value (String c d)) 0%Z, EmptyString)).
  { intros s ->. unfold dg_strtod.
    assert (parse_sign ((if neg then "-" else "") +:+ String c d) = (neg, String c d)) as ->.
    { destruct neg; simpl; [done|]. by rewrite Hm, Hp. }
    rewrite span_digits_all by done. simpl.
    by rewrite string_app_nil_r, Z.sub_0_r. }
  rewrite py_float_lit_ascii by (eapply string_forall_impl; [apply num_char_ascii | done]).
  unfold remove_underscores.
  rewrite c_string_id by (eapply string_forall_impl; [apply num_char_not_nul | done]).
  rewrite (string_has_forall "_" num_char) by done.
  unfold float_from_string_inner.
  assert (lstrip ((if neg then "-" else "") +:+ String c d) = String (if neg then "-" else c)
            (if neg then String c d else d)) as -> by (destruct neg; simpl; [done | by rewrite Hsp]).
  unfold ascii_strtod. rewrite Hdg by (destruct neg; done). done.
Qed.

(** ** Digits of other scripts *)

(** Every run of [decimal_zeros] is ten decimal digits, none of them a
    space, all of them scalar values (checked on the table). *)
Lemma decimal_zeros_digits :
  forallb (fun z => forallb (fun d => scalar (z + d) && negb (unicode_isspace (z + d)) &&
                      bool_decide (unicode_todecimal (z + d) = Some d))
                    (map Z.of_nat (seq 0 10))) decimal_zeros = true.
Proof. by vm_compute. Qed.

Lemma decimal_digit (z d : Z) :
  In z decimal_zeros -> (0 <= d <= 9)%Z ->
  scalar (z + d) = true /\ unicode_isspace (z + d) = false /\ unicode_todecimal (z + d) = Some d.
Proof.
  intros Hz Hd. pose proof decimal_zeros_digits as H.
  rewrite forallb_forall in H. specialize (H z Hz). rewrite forallb_forall in H.
  assert (Hin : In d (map Z.of_nat (seq 0 10))).
  { apply in_map_iff. exists (Z.to_nat d). split; [lia|]. apply in_seq. lia. }
  specialize (H d Hin). apply andb_prop in H as [[Hs Hsp]%andb_prop Hdec].
  apply bool_decide_eq_true in Hdec. apply negb_true_iff in Hsp. done.
Qed.

Lemma transform_loop_digits (z : Z) (ds : list Z) :
  In z decimal_zeros -> (127 <= z)%Z -> Forall (fun d => 0 <= d <= 9)%Z ds ->
  transform_loop (map (Z.add z) ds) = map (Z.add 48) ds.
Proof.
  intros Hz Hz127. induction 1 as [|d ds Hd _ IH]; [done|]. simpl.
  destruct (decimal_digit z d Hz Hd) as (_ & -> & ->).
  rewrite (proj2 (Z.ltb_ge _ _)) by lia. by rewrite IH.
Qed.

Lemma digits_scalar (z : Z) (ds : list Z) :
  In z decimal_zeros -> Forall (fun d => 0 <= d <= 9)%Z ds -> forallb scalar (map (Z.add z) ds) = true.
Proof.
  intros Hz. induction 1 as [|d ds Hd _ IH]; [done|]. simpl.
  by rewrite (proj1 (decimal_digit z d Hz Hd)), IH.
Qed.

Lemma py_float_lit_script_digits (z : Z) (ds : list Z) :
  In z decimal_zeros -> (128 <= z)%Z -> ds <> [] -> Forall (fun d => 0 <= d <= 9)%Z ds ->
  py_float_lit (utf8_encode (map (Z.add z) ds)) = py_float_lit (utf8_encode (map (Z.add 48) ds)).
Proof.
  intros Hz Hz128 Hne Hds. assert (H0 : In 0x30%Z decimal_zeros) by (left; done).
  unfold py_float_lit, utf8_decode. rewrite !encode_decode_gen by (by apply digits_scalar). simpl.
  unfold transform_decimal_and_space.
  assert (forallb (fun ch => ch <? 128)%Z (map (Z.add z) ds) = false) as ->.
  { destruct ds as [|d ds]; [done|]. inversion Hds; subst. simpl.
    rewrite (proj2 (Z.ltb_ge _ _)) by lia. done. }
  assert (forallb (fun ch => ch <? 128)%Z (map (Z.add 48) ds) = true) as ->.
  { apply forallb_forall. intros ch (d & <- & Hd)%in_map_iff.
    pose proof (proj1 (List.Forall_forall _ _) Hds d Hd). apply Z.ltb_lt. simpl in *. lia. }
  by rewrite transform_loop_digits by (done || lia).
Qed.

(** C21. [int(float(str(z))) = z] for every int of magnitude below [2^53]:
    a rotation the converter writes as [str(int)] is read back by the same
    conversion of line 64 as the same angle. *)
Theorem int_float_str_roundtrip (z : Z) :
  (Z.abs z < 2 ^ 53)%Z -> py_int_float_str (py_str_int z) = Ok z.
Proof.
  intros Hz. destruct z as [|p|p]; [reflexivity|..].
  - destruct (py_str_int_pos p) as (d & -> & Hne & Hd & Hv).
    unfold py_int_float_str, py_float.
    pose proof (py_float_lit_digits false d Hne Hd) as L. rewrite string_app_nil_l in L.
    rewrite L. simpl res_bind. rewrite Hv.
    simpl round_lit. rewrite int_round_decimal; [|rewrite Z.max_id, Z.pow_0_r; lia].
    by rewrite Z.opp_0, Z.max_id, Z.pow_0_r, Z.mul_1_r, Z.div_1_r.
  - rewrite py_str_int_neg. destruct (py_str_int_pos p) as (d & -> & Hne & Hd & Hv).
    unfold py_int_float_str, py_float.
    pose proof (py_float_lit_digits true d Hne Hd) as L. simpl in L. rewrite string_app_cons, string_app_nil_l in L.
    rewrite L. simpl res_bind. rewrite Hv.
    simpl round_lit. rewrite int_round_decimal; [|rewrite Z.max_id, Z.pow_0_r; lia].
    by rewrite Z.opp_0, Z.max_id, Z.pow_0_r, Z.mul_1_r, Z.div_1_r.
Qed.

Lemma int_float_str_roundtrip_witness :
  (Z.abs (-270) < 2 ^ 53)%Z /\ py_int_float_str (py_str_int (-270)) = Ok (-270)%Z.
Proof. split; [lia | apply int_float_str_roundtrip; lia]. Defined.

(** ** [int(float(s))] on the literals of the grammar *)

(** C7. For a literal [(-1)^neg * m * 10^e] whose integer mantissa
    [m * 10^max(e,0)] is below [2^53] (at most 15 significant digits, as in
    every KiCad rotation), [int(float(s))] is the truncation toward zero of
    the exact decimal value: rounding to binary64 never crosses an
    integer. *)
Theorem int_float_str_exact (s : string) (neg : bool) (m : N) (e : Z) :
  py_float_lit s = Some (FNum neg m e) ->
  (Z.of_N m * 10 ^ Z.max e 0 < 2 ^ 53)%Z ->
  py_int_float_str s = Ok (apply_sign neg (Z.of_N m * 10 ^ Z.max e 0 / 10 ^ Z.max (- e) 0))%Z.
Proof.
  intros Hs Hm. unfold py_int_float_str, py_float. rewrite Hs. simpl. by apply int_round_decimal.
Qed.

Lemma int_float_str_exact_witness : py_int_float_str "-45.7" = Ok (-45)%Z.
Proof.
  exact (int_float_str_exact "-45.7" true 457 (-1) ltac:(vm_compute; reflexivity)
           ltac:(vm_compute; reflexivity)).
Defined.

(** C8. [int(float(s))] raises [OverflowError], not [ValueError], when [s]
    spells an infinity or a decimal of magnitude at least [2^1024]; the
    [except ValueError] of line 65 does not catch it. *)
Theorem int_float_str_overflow (s : string) :
  (exists neg, py_float_lit s = Some (FInf neg)) \/
  (exists neg m e, py_float_lit s = Some (FNum neg m e) /\
     (2 ^ 1024 * 10 ^ Z.max (- e) 0 <= Z.of_N m * 10 ^ Z.max e 0)%Z) ->
  py_int_float_str s = Raise OverflowError.
Proof.
  unfold py_int_float_str, py_float.
  intros [[neg Hs] | (neg & m & e & Hs & Hov)]; rewrite Hs; [done|].
  simpl. by rewrite round_decimal_overflow.
Qed.

Lemma int_float_str_overflow_witness :
  py_int_float_str "1e309" = Raise OverflowError /\ py_int_float_str "-Infinity" = Raise OverflowError.
Proof.
  split; apply int_float_str_overflow.
  - right. exists false, 1%N, 309%Z. split; [vm_compute; reflexivity | vm_compute; discriminate].
  - left. exists true. vm_compute. reflexivity.
Defined.

(** C34. [float()] reads the decimal digits of every script of Unicode as
    the ASCII digits of the same values: a rotation written with, for
    instance, Arabic-Indic digits converts to the same angle. *)
Theorem int_float_str_script_digits (z : Z) (ds : list Z) :
  In z decimal_zeros -> (128 <= z)%Z -> ds <> [] -> Forall (fun d => 0 <= d <= 9)%Z ds ->
  py_int_float_str (utf8_encode (map (Z.add z) ds)) = py_int_float_str (utf8_encode (map (Z.add 48) ds)).
Proof.
  intros. unfold py_int_float_str, py_float. by rewrite py_float_lit_script_digits.
Qed.

Lemma int_float_str_script_digits_witness :
  py_int_float_str (utf8_encode (map (Z.add 0x660) [9; 0]%Z)) = Ok 90%Z.
Proof.
  rewrite (int_float_str_script_digits 0x660 [9; 0]%Z).
  - reflexivity.
  - right; left; reflexivity.
  - lia.
  - done.
  - repeat constructor; lia.
Defined.

End PyFloat.
