(* ===== verification/RowMapper.v ===== *)
(** * RowMapper: one [DictReader] record to one thirteen-cell output row

    The body of the loop [for row in reader:] of
    src/convert_kicad_to_yy1.py (lines 54-77): the output row starts as
    thirteen empty strings (line 56), every mapped input field present in the
    record is copied to its column found by [output_header.index] (lines
    58-60), the Rotation cell goes through [int(float(...))] inside
    [try ... except ValueError] (lines 63-66), and seven columns receive
    constants (lines 69-75).  The data are as the code has them: the record
    is the dict built by [DictReader] (string keys to a string or to [None]
    for the missing cells of a short row, and the [None] key for the extra
    cells of a long row), the row is a Python list of str, int or None
    cells, indexing raises [IndexError] out of range and [list.index]
    raises [ValueError] on a missing name.

    The abstract specification is the record [yy1_row] with named fields
    (the redesign the spec asks for in its section 9); [convert_row_refines]
    proves that the index-based code computes it.  The other theorems give
    the shape of every row, the only exceptions that escape, and the
    rotation cell on the inputs the spec names and on non-ASCII text. *)

From S2P Require Import Prelude Utf8 PyFloat.
Import Utf8 PyFloat.

Module RowMapper.

(** ** Data *)

(** A cell of [out_row]: a str, an int or [None]. *)
Inductive cell : Type :=
| CStr (s : string)
| CInt (z : Z)
| CNone.

#[export] Instance cell_eq_dec : EqDecision cell.
Proof. solve_decision. Defined.

(** A [csv.DictReader] record: [dict(zip(fieldnames, row))], with [None]
    ([restval]) for the fields of a short row, and the [None] key
    ([restkey]) holding the extra cells of a long row. *)
Record record : Type := mk_record {
  rec_fields : gmap string (option string);
  rec_rest : option (list string)
}.

(** [header_map] (lines 44-52), in the insertion order of the dict literal. *)
Definition header_map : list (string * option string) :=
  [("Ref", Some "Designator"); ("Val", Some "Comment"); ("Package", Some "Footprint");
   ("PosX", Some "Mid X(mm)"); ("PosY", Some "Mid Y(mm)"); ("Rot", Some "Rotation");
   ("Side", None)].

(** [output_header] (line 39). *)
Definition output_header : list string :=
  ["Designator"; "Comment"; "Footprint"; "Mid X(mm)"; "Mid Y(mm)"; "Rotation"; "Head";
   "FeederNo"; "Mount Speed(%)"; "Pick Height(mm)"; "Place Height(mm)"; "Mode"; "Skip"].

(** The constant columns of lines 69-75, in the order of the statements. *)
Definition fixed_values : list (string * Z) :=
  [("Head", 0%Z); ("FeederNo", 1%Z); ("Mount Speed(%)", 100%Z); ("Pick Height(mm)", 0%Z);
   ("Place Height(mm)", 0%Z); ("Mode", 1%Z); ("Skip", 0%Z)].

(** ** Python list operations *)

(** [l.index(x)]: the first position of [x], [ValueError] if absent. *)
Fixpoint py_index (x : string) (l : list string) : res nat :=
  match l with
  | [] => Raise ValueError
  | y :: l' => if String.eqb x y then Ok 0 else res_map S (py_index x l')
  end.

(** [l[i]] for [0 <= i]. *)
Definition py_getitem (l : list cell) (i : nat) : res cell :=
  match l !! i with
  | Some c => Ok c
  | None => Raise IndexError
  end.

(** [l[i] = v]: in place when [i] is in range, [IndexError] otherwise. *)
Definition py_setitem (l : list cell) (i : nat) (v : cell) : res (list cell) :=
  if decide (i < length l) then Ok (<[i := v]> l) else Raise IndexError.

(** The truth value of [out_header] in [if out_header and ...]. *)
Definition py_truthy (o : option string) : bool :=
  match o with
  | Some s => negb (String.eqb s "")
  | None => false
  end.

Definition cell_of_value (v : option string) : cell :=
  match v with
  | Some s => CStr s
  | None => CNone
  end.

(** [float(z)] for an int: the nearest binary64, [OverflowError] when it
    is too large. *)
Definition py_float_of_int (z : Z) : res binary64 :=
  match round_decimal (z <? 0)%Z (Z.abs_N z) 0 with
  | B64Inf _ => Raise OverflowError
  | f => Ok f
  end.

(** [int(float(c))] for a cell: [float(None)] raises [TypeError]. *)
Definition int_float_cell (c : cell) : res Z :=
  match c with
  | CStr s => py_int_float_str s
  | CInt z => res_bind (py_float_of_int z) py_int_of_float
  | CNone => Raise TypeError
  end.

(** ** The loop body *)

Local Open Scope py_scope.

(** Lines 58-60: for each [(in_header, out_header)] of [header_map], if
    [out_header] is truthy and [in_header in row], then
    [out_row[output_header.index(out_header)] = row[in_header]]. *)
Fixpoint populate (hm : list (string * option string)) (row : record) (out_row : list cell)
    : res (list cell) :=
  match hm with
  | [] => Ok out_row
  | (in_h, out_h) :: hm' =>
      match out_h, rec_fields row !! in_h with
      | Some o, Some v =>
          if py_truthy out_h then
            i <- py_index o output_header;;
            out_row' <- py_setitem out_row i (cell_of_value v);;
            populate hm' row out_row'
          else populate hm' row out_row
      | _, _ => populate hm' row out_row
      end
  end.

(** Lines 63-66: the right-hand side [int(float(out_row[index]))] is
    evaluated before the target [out_row[index]]; a [ValueError] anywhere
    in the [try] block stores [0]. *)
Definition convert_rotation (out_row : list cell) : res (list cell) :=
  match (i <- py_index "Rotation" output_header;;
         c <- py_getitem out_row i;;
         z <- int_float_cell c;;
         j <- py_index "Rotation" output_header;;
         py_setitem out_row j (CInt z)) with
  | Raise ValueError =>
      i <- py_index "Rotation" output_header;;
      py_setitem out_row i (CInt 0)
  | r => r
  end.

(** Lines 69-75: [out_row[output_header.index(name)] = value], in order. *)
Fixpoint set_fixed (fv : list (string * Z)) (out_row : list cell) : res (list cell) :=
  match fv with
  | [] => Ok out_row
  | (name, v) :: fv' =>
      i <- py_index name output_header;;
      out_row' <- py_setitem out_row i (CInt v);;
      set_fixed fv' out_row'
  end.

(** Lines 56-75: the row written by [writer.writerow(out_row)] at line 77. *)
Definition convert_row (row : record) : res (list cell) :=
  out_row <- populate header_map row (replicate 13 (CStr ""));;
  out_row <- convert_rotation out_row;;
  set_fixed fixed_values out_row.

(** ** The abstract specification: a row with named fields *)

Record yy1_row : Type := mk_yy1_row {
  designator : cell;
  comment : cell;
  footprint : cell;
  mid_x : cell;
  mid_y : cell;
  rotation : Z
}.

(** The thirteen columns in the order of [output_header]. *)
Definition yy1_cells (y : yy1_row) : list cell :=
  [designator y; comment y; footprint y; mid_x y; mid_y y; CInt (rotation y);
   CInt 0; CInt 1; CInt 100; CInt 0; CInt 0; CInt 1; CInt 0].

(** The value of an input field, the empty string when it is absent. *)
Definition field (row : record) (h : string) : cell :=
  match rec_fields row !! h with
  | Some v => cell_of_value v
  | None => CStr ""
  end.

(** The rotation: [int(float(c))], 0 on [ValueError]. *)
Definition rotation_of (c : cell) : res Z :=
  match int_float_cell c with
  | Raise ValueError => Ok 0%Z
  | r => r
  end.

Definition spec_row (row : record) : res yy1_row :=
  rot <- rotation_of (field row "Rot");;
  Ok (mk_yy1_row (field row "Ref") (field row "Val") (field row "Package")
        (field row "PosX") (field row "PosY") rot).

(** The row the code writes when the rotation evaluates to [z]. *)
Definition out_cells (row : record) (z : Z) : list cell :=
  yy1_cells (mk_yy1_row (field row "Ref") (field row "Val") (field row "Package")
               (field row "PosX") (field row "PosY") z).

(** The input fields [header_map] reads. *)
Definition mapped_keys : list string := ["Ref"; "Val"; "Package"; "PosX"; "PosY"; "Rot"].

(** A record of a KiCad file whose Rot cell is [rot] (for the examples). *)
Definition sample_row (rot : option (option string)) : record :=
  mk_record
    (list_to_map ([("Ref", Some "R1"); ("Val", Some "10k"); ("Package", Some "0402");
                   ("PosX", Some "12.5"); ("PosY", Some "34.2"); ("Side", Some "Top")] ++
                  match rot with Some v => [("Rot", v)] | None => [] end))
    None.

(** ** The loop body computes the specification *)

(** Lines 56-60 on the fixed [header_map]: the first six columns hold the
    mapped fields, the rest stays empty. *)
Lemma populate_header_map (row : record) :
  populate header_map row (replicate 13 (CStr "")) =
    Ok [field row "Ref"; field row "Val"; field row "Package"; field row "PosX";
        field row "PosY"; field row "Rot"; CStr ""; CStr ""; CStr ""; CStr ""; CStr "";
        CStr ""; CStr ""].
Proof.
  unfold field. cbn.
  destruct (rec_fields row !! "Ref"), (rec_fields row !! "Val"), (rec_fields row !! "Package"),
    (rec_fields row !! "PosX"), (rec_fields row !! "PosY"), (rec_fields row !! "Rot");
    reflexivity.
Qed.

(** The row of the loop body, by the value of the rotation. *)
Lemma convert_row_rotation (row : record) :
  convert_row row = res_map (out_cells row) (rotation_of (field row "Rot")).
Proof.
  unfold convert_row, out_cells, rotation_of. rewrite populate_header_map.
  unfold convert_rotation. cbn.
  destruct (int_float_cell (field row "Rot")) as [z|[]]; reflexivity.
Qed.

(** C1. Refinement: the index-based loop body of lines 56-75 computes the
    named-field specification [spec_row] laid out in the column order of
    [output_header]; it raises exactly when the specification does, with
    the same exception. *)
Theorem convert_row_refines (row : record) :
  convert_row row = res_map yy1_cells (spec_row row).
Proof.
  rewrite convert_row_rotation. unfold spec_row. by destruct (rotation_of (field row "Rot")).
Qed.

(** [int(float(c))] raises only [ValueError], [OverflowError] or
    [TypeError]. *)
Lemma int_float_cell_raises (c : cell) (e : py_exc) :
  int_float_cell c = Raise e -> e = ValueError \/ e = OverflowError \/ e = TypeError.
Proof.
  destruct c as [s|z|]; simpl; [| |intros [= <-]; auto].
  - unfold py_int_float_str, py_float. destruct (py_float_lit s) as [l|]; simpl; [|intros [= <-]; auto].
    destruct (round_lit l); simpl; intros [= <-]; auto.
  - unfold py_float_of_int. destruct (round_decimal _ _ _); simpl; intros [= <-]; auto.
Qed.

(** C5. Every row the code writes has thirteen cells: the five mapped
    fields in the column order of [output_header] (empty when absent), an
    int rotation, and the constants Head=0, FeederNo=1, Mount Speed=100,
    Pick Height=0, Place Height=0, Mode=1, Skip=0. *)
Theorem convert_row_shape (row : record) (out : list cell) :
  convert_row row = Ok out ->
  length out = 13 /\
  take 5 out = [field row "Ref"; field row "Val"; field row "Package"; field row "PosX";
                field row "PosY"] /\
  (exists z, out !! 5 = Some (CInt z)) /\
  drop 6 out = [CInt 0; CInt 1; CInt 100; CInt 0; CInt 0; CInt 1; CInt 0].
Proof.
  rewrite convert_row_rotation. destruct (rotation_of _) as [z|]; simpl; [|done].
  intros [= <-]. repeat split. by exists z.
Qed.

Lemma convert_row_shape_witness :
  length [CStr "R1"; CStr "10k"; CStr "0402"; CStr "12.5"; CStr "34.2"; CInt 90; CInt 0;
          CInt 1; CInt 100; CInt 0; CInt 0; CInt 1; CInt 0] = 13.
Proof.
  apply (proj1 (convert_row_shape (sample_row (Some (Some "90"))) _ ltac:(vm_compute; reflexivity))).
Defined.

(** C6. The only exceptions that escape the loop body are [OverflowError]
    and [TypeError], both from the rotation cell: the [except ValueError]
    of line 65 catches every [ValueError], and no [IndexError] or
    [ValueError] of [list.index] can arise. *)
Theorem convert_row_raises (row : record) (e : py_exc) :
  convert_row row = Raise e -> e = OverflowError \/ e = TypeError.
Proof.
  rewrite convert_row_rotation. unfold rotation_of.
  destruct (int_float_cell (field row "Rot")) as [z|e'] eqn:E; simpl; [done|].
  destruct (int_float_cell_raises _ _ E) as [He|[He|He]]; subst e'; simpl; intros H; simplify_eq; auto.
Qed.

Lemma convert_row_raises_witness :
  convert_row (sample_row (Some (Some "inf"))) = Raise OverflowError /\
  (OverflowError = OverflowError \/ OverflowError = TypeError).
Proof.
  split; [vm_compute; reflexivity|].
  apply (convert_row_raises (sample_row (Some (Some "inf")))). vm_compute. reflexivity.
Defined.

(** C16. A record without a Rot field, or whose Rot cell is ASCII text
    with neither a digit nor the letter n (the empty string, or a question
    mark, or a dash, as KiCad writes for a missing angle), gets rotation 0.
    (Non-ASCII text may hold the digits of another script, which [float()]
    reads.) *)
Theorem convert_row_rotation_default (row : record) :
  (rec_fields row !! "Rot" = None \/
   exists s, rec_fields row !! "Rot" = Some (Some s) /\ string_forall no_digit_no_n s = true) ->
  convert_row row = Ok (out_cells row 0).
Proof.
  rewrite convert_row_rotation. unfold field.
  intros [-> | (s & -> & Hs)]; [reflexivity|].
  unfold rotation_of. simpl. unfold py_int_float_str, py_float. by rewrite float_lit_rejects.
Qed.

Lemma convert_row_rotation_default_witness :
  convert_row (sample_row (Some (Some "?"))) = Ok (out_cells (sample_row (Some (Some "?"))) 0).
Proof.
  apply convert_row_rotation_default. right. exists "?". split; vm_compute; reflexivity.
Defined.

(** C39. A Rot cell holding a non-ASCII character that is neither a
    space nor a decimal digit, such as the degree sign U+00B0 of an angle
    written 90 followed by it, makes [float()] raise [ValueError]: the
    record silently gets rotation 0. *)
Theorem convert_row_rotation_symbol (row : record) (s : string) (cps : list Z) (ch : Z) :
  rec_fields row !! "Rot" = Some (Some s) -> utf8_decode s = Some cps -> In ch cps -> (128 <= ch)%Z ->
  unicode_isspace ch = false -> unicode_todecimal ch = None ->
  convert_row row = Ok (out_cells row 0).
Proof.
  rewrite convert_row_rotation. unfold field. intros -> E Hin Hch Hsp Hdec.
  unfold rotation_of. simpl. unfold py_int_float_str, py_float. by rewrite (py_float_lit_symbol s cps ch).
Qed.

Lemma convert_row_rotation_symbol_witness :
  convert_row (sample_row (Some (Some ("90" +:+ String "194" (String "176" EmptyString))))) =
    Ok (out_cells (sample_row (Some (Some ("90" +:+ String "194" (String "176" EmptyString))))) 0).
Proof.
  apply (convert_row_rotation_symbol _ ("90" +:+ String "194" (String "176" EmptyString)) [57; 48; 176]%Z 176%Z);
    [vm_compute; reflexivity | vm_compute; reflexivity | simpl; tauto | lia | vm_compute; reflexivity | vm_compute; reflexivity].
Defined.

(** C17. A Rot cell that is a decimal literal with at most 15 significant
    digits gives the truncation toward zero of its exact value. *)
Theorem convert_row_rotation_decimal (row : record) (s : string) (neg : bool) (m : N) (e : Z) :
  rec_fields row !! "Rot" = Some (Some s) ->
  py_float_lit s = Some (FNum neg m e) ->
  (Z.of_N m * 10 ^ Z.max e 0 < 2 ^ 53)%Z ->
  convert_row row =
    Ok (out_cells row (apply_sign neg (Z.of_N m * 10 ^ Z.max e 0 / 10 ^ Z.max (- e) 0))).
Proof.
  intros Hrot Hs Hm. rewrite convert_row_rotation. unfold field. rewrite Hrot.
  unfold rotation_of. simpl. unfold py_int_float_str, py_float. rewrite Hs. simpl.
  by rewrite int_round_decimal.
Qed.

Lemma convert_row_rotation_decimal_witness :
  convert_row (sample_row (Some (Some "-45.7"))) =
    Ok (out_cells (sample_row (Some (Some "-45.7"))) (-45)).
Proof.
  exact (convert_row_rotation_decimal (sample_row (Some (Some "-45.7"))) "-45.7" true 457 (-1)
           ltac:(vm_compute; reflexivity) ltac:(vm_compute; reflexivity)
           ltac:(vm_compute; reflexivity)).
Defined.

(** C10. A short input row whose missing cells include Rot gives
    [row["Rot"] = None]; [float(None)] raises [TypeError], which the
    [except ValueError] does not catch. *)
Theorem convert_row_rotation_none (row : record) :
  rec_fields row !! "Rot" = Some None -> convert_row row = Raise TypeError.
Proof. intros Hrot. rewrite convert_row_rotation. unfold field. by rewrite Hrot. Qed.

Lemma convert_row_rotation_none_witness : convert_row (sample_row (Some None)) = Raise TypeError.
Proof. apply convert_row_rotation_none. vm_compute. reflexivity. Defined.

(** C9. A Rot cell spelling an infinity, or a decimal of magnitude at least
    [2^1024], makes the loop body raise [OverflowError]. *)
Theorem convert_row_rotation_overflow (row : record) (s : string) :
  rec_fields row !! "Rot" = Some (Some s) ->
  (exists neg, py_float_lit s = Some (FInf neg)) \/
  (exists neg m e, py_float_lit s = Some (FNum neg m e) /\
     (2 ^ 1024 * 10 ^ Z.max (- e) 0 <= Z.of_N m * 10 ^ Z.max e 0)%Z) ->
  convert_row row = Raise OverflowError.
Proof.
  intros Hrot Hs. rewrite convert_row_rotation. unfold field. rewrite Hrot.
  unfold rotation_of. simpl. unfold py_int_float_str, py_float.
  destruct Hs as [[neg Hs] | (neg & m & e & Hs & Hov)]; rewrite Hs; [done|].
  simpl. by rewrite round_decimal_overflow.
Qed.

Lemma convert_row_rotation_overflow_witness :
  convert_row (sample_row (Some (Some "inf"))) = Raise OverflowError.
Proof.
  apply (convert_row_rotation_overflow _ "inf"); [vm_compute; reflexivity|].
  left. exists false. vm_compute. reflexivity.
Defined.

(** C18. Header names are matched exactly: a key outside the six mapped
    names (for instance "ref" or " Ref") has no effect on the row, contrary
    to the comment of lines 42-43 that the map handles capitalization and
    spacing. *)
Theorem convert_row_ignores_other_keys (row : record) (h : string) (v : option string) :
  h ∉ mapped_keys ->
  convert_row (mk_record (<[h := v]> (rec_fields row)) (rec_rest row)) = convert_row row.
Proof.
  intros Hh. rewrite !convert_row_rotation. unfold out_cells, field. simpl.
  rewrite !lookup_insert_ne; [done | by intros ->; apply Hh; set_solver..].
Qed.

Lemma convert_row_ignores_other_keys_witness :
  convert_row (mk_record (<["ref" := Some "R9"]> (rec_fields (sample_row None))) None) =
  convert_row (sample_row None).
Proof.
  apply (convert_row_ignores_other_keys (sample_row None) "ref" (Some "R9")).
  unfold mapped_keys. set_solver.
Defined.

(** C29. A Rot cell spelling a NaN ([nan], [-NaN], ...) gets rotation 0:
    [float] accepts it, and the [ValueError] of [int(nan)] is caught. *)
Theorem convert_row_rotation_nan (row : record) (s : string) (neg : bool) :
  rec_fields row !! "Rot" = Some (Some s) -> py_float_lit s = Some (FNaN neg) ->
  convert_row row = Ok (out_cells row 0).
Proof.
  intros Hrot Hs. rewrite convert_row_rotation. unfold field. rewrite Hrot.
  unfold rotation_of. simpl. unfold py_int_float_str, py_float. by rewrite Hs.
Qed.

Lemma convert_row_rotation_nan_witness :
  convert_row (sample_row (Some (Some "-NaN"))) = Ok (out_cells (sample_row (Some (Some "-NaN"))) 0).
Proof. apply (convert_row_rotation_nan _ "-NaN" true); vm_compute; reflexivity. Defined.

End RowMapper.
