(* ===== verification/CsvWriter.v ===== *)
(** * CsvWriter: [csv.writer(outfile).writerow(row)] in the excel dialect

    Every line of the output file comes from [writer.writerow] (lines 21-32
    and 77 of src/convert_kicad_to_yy1.py) on the writer created at line 18
    with the default dialect: delimiter comma, the double-quote character as
    quote character, [doublequote], no escape character, [QUOTE_MINIMAL],
    line terminator CR LF.  The model follows [csv_writerow] and [join_append_data] of
    CPython's [_csv.c]: [None] is written as an empty field, an int as
    [str(int)], a str as itself; a field holding the delimiter, the quote
    character, [\r] or [\n] is quoted, with its quote characters doubled; a
    record made of one empty field is written as two quote characters.

    The output file is opened with [newline=''], so the text reaches the
    file unchanged; the writer is the only producer of the output text. *)

From S2P Require Import Prelude PyFloat RowMapper.
Import PyFloat RowMapper.

Module CsvWriter.

(** The quote character (the double quote, code 34), the delimiter and the
    line terminator of the excel dialect. *)
Definition quotechar : ascii := ascii_of_nat 34.
Definition delimiter : ascii := ",".
Definition lineterminator : string := String "013" (String "010" EmptyString).

(** The text of a field: [None] is the NULL field of [join_append],
    written as nothing. *)
Definition field_text (c : cell) : string :=
  match c with
  | CStr s => s
  | CInt z => py_str_int z
  | CNone => EmptyString
  end.

(** The characters that set [quoted] in [join_append_data]: the delimiter,
    the quote character, [\n], [\r] (and those of the line terminator). *)
Definition special_char (c : ascii) : bool :=
  eq_char c delimiter || eq_char c quotechar || eq_char c "010" || eq_char c "013".

Definition needs_quotes (s : string) : bool := negb (string_forall (fun c => negb (special_char c)) s).

(** The copy phase: a quote character is written twice ([doublequote]). *)
Fixpoint double_quotes (s : string) : string :=
  match s with
  | EmptyString => EmptyString
  | String c s' =>
      if eq_char c quotechar then String quotechar (String quotechar (double_quotes s'))
      else String c (double_quotes s')
  end.

Definition quoted (s : string) : string :=
  String quotechar (s +:+ String quotechar EmptyString).

(** [join_append_data] for one field under QUOTE_MINIMAL. *)
Definition format_field (s : string) : string :=
  if needs_quotes s then quoted (double_quotes s) else s.

(** The fields joined by the delimiter ([num_fields > 0] adds one). *)
Fixpoint join_fields (fs : list string) : string :=
  match fs with
  | [] => EmptyString
  | [f] => f
  | f :: fs' => f +:+ String delimiter (join_fields fs')
  end.

(** [writerow(row)]: the record and the line terminator; a non-empty row
    whose record is empty (one empty field) is written as two quote
    characters. *)
Definition writerow (row : list cell) : string :=
  let rec := join_fields (map (fun c => format_field (field_text c)) row) in
  if (0 <? length row) && String.eqb rec EmptyString
  then quoted EmptyString +:+ lineterminator
  else rec +:+ lineterminator.

(** [writer.writerow] for each row, in order: the text appended to the
    output stream. *)
Definition writerows (rows : list (list cell)) : string :=
  fold_right (fun r acc => writerow r +:+ acc) EmptyString rows.

End CsvWriter.
