(* ===== verification/CsvReader.v ===== *)
(** * CsvReader: [csv.DictReader(open(path, 'r', encoding='utf-8'))]

    The input of src/convert_kicad_to_yy1.py is opened in text mode with
    UTF-8 and universal newlines (line 14) and read through
    [csv.DictReader] (line 17): [reader.fieldnames] (line 35) reads the
    header record and [for row in reader] (line 54) the data records.  The
    model follows CPython:

    - [io.TextIOWrapper] with [newline=None]: the text of [Utf8.read_text]
      (kept as its UTF-8 bytes), CR LF and CR become LF, and iteration
      yields lines ending with LF (the last one possibly without); when a
      chunk does not decode, the lines complete before it are yielded (a CR
      at the end of the text is held back by the newline decoder) and then
      [UnicodeDecodeError] is raised;
    - [Reader_iternext] and [parse_process_char] of [_csv.c], excel dialect:
      the parser state machine [pstate], the end-of-line pseudo character
      [EOL] after each line, [parse_save_field], and [parse_add_char] with its
      field size limit (131072 code points, [_csv.Error]; the parser reads
      the bytes of the text and counts the lead bytes); at the end of input
      a pending field is saved only when it is non-empty or quoted
      ([strict] is off);
    - [csv.DictReader]: [fieldnames] is the first record (or [None] on an
      empty input), blank records are skipped, a record is
      [dict(zip(fieldnames, row))] completed with [None] for missing cells and
      the [None] key for extra ones.

    The reader is lazy: records are read one at a time, between the writes
    of the driver.  The stream of records [rstream] is therefore a list that
    may end in an exception, raised when the driver asks for that record.
    The states ESCAPED_CHAR, ESCAPE_IN_QUOTED_FIELD and AFTER_ESCAPED_CRNL of
    [_csv.c] are entered only through an escape character, which the excel
    dialect does not have; they are not part of [pstate]. *)

From S2P Require Import Prelude Utf8 PyFloat RowMapper.
Import Utf8 PyFloat RowMapper.

Module CsvReader.

(** ** Universal newlines and lines *)

Definition LF : ascii := "010".
Definition CR : ascii := "013".

(** [IncrementalNewlineDecoder(translate=True)]. *)
Fixpoint translate_newlines (s : string) : string :=
  match s with
  | EmptyString => EmptyString
  | String c s' =>
      if eq_char c CR then
        match s' with
        | String d s'' => if eq_char d LF then String LF (translate_newlines s'')
                          else String LF (translate_newlines s')
        | EmptyString => String LF EmptyString
        end
      else String c (translate_newlines s')
  end.

(** Iteration over a text file: lines up to and including each LF. *)
Fixpoint split_lines (s : string) : list string :=
  match s with
  | EmptyString => []
  | String c s' =>
      if eq_char c LF then String c EmptyString :: split_lines s'
      else match split_lines s' with
           | [] => [String c EmptyString]
           | l :: ls => String c l :: ls
           end
  end.

(** ** The parser of [_csv.c] *)

Inductive pstate : Type :=
| START_RECORD
| START_FIELD
| IN_FIELD
| IN_QUOTED_FIELD
| QUOTE_IN_QUOTED_FIELD
| EAT_CRNL.

#[export] Instance pstate_eq_dec : EqDecision pstate.
Proof. solve_decision. Defined.

(** A character of a line, or the end-of-line marker. *)
Inductive pchar : Type :=
| PC (c : ascii)
| EOL.

(** The reader object: state, the fields of the current record, the
    current field (reversed) and its length. *)
Record parser : Type := mk_parser {
  p_state : pstate;
  p_fields : list string;
  p_field : list ascii;
  p_field_len : N
}.

Definition field_limit : N := 131072.

Definition parser_reset : parser := mk_parser START_RECORD [] [] 0%N.

Definition quote : ascii := ascii_of_nat 34.
Definition comma : ascii := ",".

(** [parse_save_field]: the current field joins the record. *)
Definition save_field (p : parser) : parser :=
  mk_parser (p_state p) (p_fields p ++ [string_of_list_ascii (rev (p_field p))]) [] 0%N.

(** [parse_add_char]: [_csv.Error] when the field already holds
    [field_limit] code points.  The parser reads the UTF-8 bytes of the
    text: a code point is its lead byte, which [parse_add_char] counts,
    followed by its continuation bytes ([is_cont]), which belong to the
    same code point and are stored without a check. *)
Definition add_char (p : parser) (c : ascii) : res parser :=
  if is_cont (byte c) then Ok (mk_parser (p_state p) (p_fields p) (c :: p_field p) (p_field_len p))
  else if (field_limit <=? p_field_len p)%N then Raise CsvError
  else Ok (mk_parser (p_state p) (p_fields p) (c :: p_field p) (N.succ (p_field_len p))).

Definition set_state (s : pstate) (p : parser) : parser :=
  mk_parser s (p_fields p) (p_field p) (p_field_len p).

Definition is_nl (c : pchar) : bool :=
  match c with PC d => eq_char d LF || eq_char d CR | EOL => false end.

Definition is_eol (c : pchar) : bool := match c with EOL => true | PC _ => false end.

Definition is_char (c : pchar) (d : ascii) : bool :=
  match c with PC e => eq_char e d | EOL => false end.

(** The end of a record: back to START_RECORD on EOL, else EAT_CRNL. *)
Definition end_state (c : pchar) : pstate :=
  match c with EOL => START_RECORD | PC _ => EAT_CRNL end.

(** [START_FIELD] (also reached from [START_RECORD] on an ordinary
    character). *)
Definition start_field (p : parser) (c : pchar) : res parser :=
  if is_nl c || is_eol c then Ok (set_state (end_state c) (save_field p))
  else if is_char c quote then Ok (set_state IN_QUOTED_FIELD p)
  else if is_char c comma then Ok (save_field p)
  else match c with
       | PC d => res_map (set_state IN_FIELD) (add_char p d)
       | EOL => Ok p
       end.

(** [parse_process_char] for the excel dialect. *)
Definition process_char (p : parser) (c : pchar) : res parser :=
  match p_state p with
  | START_RECORD =>
      match c with
      | EOL => Ok p
      | PC d => if is_nl c then Ok (set_state EAT_CRNL p)
                else start_field (set_state START_FIELD p) c
      end
  | START_FIELD => start_field p c
  | IN_FIELD =>
      if is_nl c || is_eol c then Ok (set_state (end_state c) (save_field p))
      else if is_char c comma then Ok (set_state START_FIELD (save_field p))
      else match c with PC d => add_char p d | EOL => Ok p end
  | IN_QUOTED_FIELD =>
      match c with
      | EOL => Ok p
      | PC d => if eq_char d quote then Ok (set_state QUOTE_IN_QUOTED_FIELD p) else add_char p d
      end
  | QUOTE_IN_QUOTED_FIELD =>
      if is_char c quote then res_map (set_state IN_QUOTED_FIELD) (add_char p quote)
      else if is_char c comma then Ok (set_state START_FIELD (save_field p))
      else if is_nl c || is_eol c then Ok (set_state (end_state c) (save_field p))
      else match c with
           | PC d => res_map (set_state IN_FIELD) (add_char p d)
           | EOL => Ok p
           end
  | EAT_CRNL =>
      if is_nl c then Ok p
      else match c with
           | EOL => Ok (set_state START_RECORD p)
           | PC _ => Raise CsvError
           end
  end.

(** The characters of one line, then [EOL]. *)
Fixpoint process_string (p : parser) (s : string) : res parser :=
  match s with
  | EmptyString => Ok p
  | String c s' => res_bind (process_char p (PC c)) (fun p' => process_string p' s')
  end.

Definition process_line (p : parser) (line : string) : res parser :=
  res_bind (process_string p line) (fun p' => process_char p' EOL).

(** ** The record stream *)

(** The records of the reader, read lazily: the stream stops at the end of
    the input or at the exception raised while reading a record. *)
Inductive rstream (A : Type) : Type :=
| RNil
| RCons (r : A) (rest : rstream A)
| RErr (e : py_exc).
Arguments RNil {A}.
Arguments RCons {A} r rest.
Arguments RErr {A} e.

(** The stream that yields the records of [l] and then those of [t]. *)
Fixpoint stream_app {A : Type} (l : list A) (t : rstream A) : rstream A :=
  match l with
  | [] => t
  | x :: l' => RCons x (stream_app l' t)
  end.

(** Repeated [Reader_iternext] over the remaining lines, from parser state
    [p]: a record is complete when a line leaves the parser in
    START_RECORD.  After the last line, the file iterator either ends
    ([eof = None]): a pending field is saved when it is non-empty or
    quoted, and a record without it is dropped; or raises [e]
    ([eof = Some e]), which stops the reading. *)
Fixpoint read_records (p : parser) (lines : list string) (eof : option py_exc) : rstream (list string) :=
  match lines with
  | [] =>
      match eof with
      | Some e => RErr e
      | None =>
          if negb (p_field_len p =? 0)%N || bool_decide (p_state p = IN_QUOTED_FIELD)
          then RCons (p_fields (save_field p)) RNil
          else RNil
      end
  | line :: rest =>
      match process_line p line with
      | Raise e => RErr e
      | Ok p' =>
          if bool_decide (p_state p' = START_RECORD)
          then RCons (p_fields p') (read_records parser_reset rest eof)
          else read_records p' rest eof
      end
  end.

(** A CR at the end of the text decoded so far is held back by the newline
    decoder until the next character shows whether an LF follows. *)
Fixpoint drop_pending_cr (s : string) : string :=
  match s with
  | EmptyString => EmptyString
  | String c EmptyString => if eq_char c CR then EmptyString else s
  | String c s' => String c (drop_pending_cr s')
  end.

(** The lines [readline] returns before the next chunk is needed: those
    ended by an LF. *)
Definition complete_lines (ls : list string) : list string := filter (fun l => string_has LF l = true) ls.

(** [csv.reader(open(path, 'r', encoding='utf-8'))] over the bytes of the
    file: the text of [read_text], as UTF-8 bytes.  When the decoding stops
    at [UnicodeDecodeError], the reader gets the complete lines of the text
    decoded before, then the exception. *)
Definition csv_reader (bytes : string) : rstream (list string) :=
  match read_text bytes with
  | (cps, None) => read_records parser_reset (split_lines (translate_newlines (utf8_encode cps))) None
  | (cps, Some e) =>
      read_records parser_reset
        (complete_lines (split_lines (translate_newlines (drop_pending_cr (utf8_encode cps))))) (Some e)
  end.

(** ** DictReader *)

Local Open Scope py_scope.

(** [d = dict(zip(fieldnames, row))], then [d[restkey] = row[lf:]] for a
    long row or [d[key] = restval] for each [key] of [fieldnames[lr:]] for a
    short one. *)
Definition make_record (fieldnames row : list string) : record :=
  let d := fold_left (fun m '(k, v) => <[k := Some v]> m) (zip fieldnames row) ∅ in
  let lf := length fieldnames in
  let lr := length row in
  if decide (lf < lr) then mk_record d (Some (drop lf row))
  else mk_record (fold_left (fun m k => <[k := None]> m) (drop lr fieldnames) d) None.

(** [DictReader.__next__]: [while row == []: row = next(self.reader)]. *)
Fixpoint dict_rows (fieldnames : list string) (rs : rstream (list string)) : rstream record :=
  match rs with
  | RNil => RNil
  | RErr e => RErr e
  | RCons [] rest => dict_rows fieldnames rest
  | RCons row rest => RCons (make_record fieldnames row) (dict_rows fieldnames rest)
  end.

(** [reader.fieldnames] (the first record, [None] on [StopIteration]),
    and the records the loop of line 54 then reads. *)
Definition dict_reader (text : string) : res (option (list string * rstream record)) :=
  match csv_reader text with
  | RNil => Ok None
  | RErr e => Raise e
  | RCons fns rest => Ok (Some (fns, dict_rows fns rest))
  end.

(** ** Well-formed lines and the errors of a stream *)

(** A line of the translated text: no CR, and an LF only as its last
    character. *)
Fixpoint line_ok (s : string) : bool :=
  match s with
  | EmptyString => true
  | String c s' => if eq_char c LF then String.eqb s' EmptyString else negb (eq_char c CR) && line_ok s'
  end.

Definition no_cr (s : string) : bool := string_forall (fun c => negb (eq_char c CR)) s.

(** The exception a stream of records ends with, if any. *)
Fixpoint stream_error {A : Type} (s : rstream A) : option py_exc :=
  match s with RNil => None | RCons _ r => stream_error r | RErr e => Some e end.

(** The parser invariant: the length counter of [parse_add_char] is the
    number of code points of the field buffer, and never exceeds the
    limit. *)
Definition parser_wf (p : parser) : Prop :=
  N.to_nat (p_field_len p) = cp_count (string_of_list_ascii (p_field p)) /\ (p_field_len p <= field_limit)%N.

(** The parser states reachable from a fresh reader by [parse_process_char]. *)
Inductive reachable : parser -> Prop :=
| reach_reset : reachable parser_reset
| reach_step (p : parser) (c : pchar) (p' : parser) :
    reachable p -> process_char p c = Ok p' -> reachable p'.

(** ** Lemmas on the parser *)

Lemma process_string_app (p : parser) (a b : string) :
  process_string p (a +:+ b) = res_bind (process_string p a) (fun p' => process_string p' b).
Proof.
  revert p. induction a as [|c a IH]; intros p; [done|].
  rewrite string_app_cons. simpl. destruct (process_char p (PC c)); simpl; [apply IH | done].
Qed.

(** [DictReader] over records read before a tail: the non-empty ones
    become dictionaries, in order. *)
Lemma dict_rows_stream_app (fns : list string) (l : list (list string)) (t : rstream (list string)) :
  dict_rows fns (stream_app l t) =
    stream_app (map (make_record fns) (filter (fun r => r <> []) l)) (dict_rows fns t).
Proof.
  induction l as [|r l IH]; [done|]. rewrite filter_cons.
  destruct r as [|c r]; simpl; by rewrite IH.
Qed.

(** ** A short input never raises *)

Section NoError.
Local Open Scope N_scope.

(** [EOL] never raises and never leaves the parser in EAT_CRNL. *)
Lemma eol_step (p : parser) :
  exists p', process_char p EOL = Ok p' /\ p_field_len p' <= p_field_len p /\ p_state p' <> EAT_CRNL.
Proof.
  unfold process_char, start_field, set_state, save_field; destruct p as [[] ? ? ?]; simpl;
    eexists; (split; [reflexivity|]); simpl; split; first [lia | discriminate].
Qed.

(** A character other than CR, read outside EAT_CRNL with room in the
    field for its code point, never raises; only LF can lead to
    EAT_CRNL. *)
Lemma char_step (p : parser) (c : ascii) :
  eq_char c CR = false -> p_state p <> EAT_CRNL -> p_field_len p + N.of_nat (cp_width c) <= field_limit ->
  exists p', process_char p (PC c) = Ok p' /\ p_field_len p' <= p_field_len p + N.of_nat (cp_width c) /\
    (eq_char c LF = false -> p_state p' <> EAT_CRNL).
Proof.
  intros Hcr Hst Hlen.
  unfold process_char, start_field, set_state, save_field, is_nl, is_eol, is_char, end_state, add_char.
  unfold cp_width in *. destruct (is_cont (byte c)) eqn:Hc; simpl in Hlen;
  destruct p as [[] ? ? ?]; simpl in *; rewrite ?Hcr; simpl;
    destruct (N.leb_spec field_limit p_field_len0) as [|_]; try lia;
    repeat (case_match; simpl in *); simplify_eq/=; try done;
    try (match goal with Hq : eq_char c _ = true |- _ =>
           apply eq_char_true in Hq; subst c; vm_compute in Hc; discriminate end);
    eexists; (split; [reflexivity|]); simpl; split; try lia; try discriminate;
    rewrite ?orb_false_r in *; intros; congruence.
Qed.

Lemma string_step (s : string) (p : parser) :
  line_ok s = true -> p_state p <> EAT_CRNL ->
  p_field_len p + N.of_nat (cp_count s) <= field_limit ->
  exists p', process_string p s = Ok p' /\ p_field_len p' <= p_field_len p + N.of_nat (cp_count s).
Proof.
  revert p. induction s as [|c s IH]; intros p Hok Hst Hlen; simpl in *.
  - exists p. split; [done | lia].
  - destruct (eq_char c LF) eqn:Hlf.
    + apply String.eqb_eq in Hok as ->. apply eq_char_true in Hlf as ->.
      destruct (char_step p LF) as (p' & -> & Hl' & _); [done | done | change (cp_width LF) with 1%nat; simpl in *; lia|].
      exists p'. change (cp_width LF) with 1%nat in *. simpl in *. split; [done | lia].
    + apply andb_prop in Hok as [Hcr Hok]. apply negb_true_iff in Hcr.
      destruct (char_step p c Hcr Hst) as (p' & -> & Hl' & Hst'); [lia|]. simpl.
      destruct (IH p' Hok (Hst' Hlf)) as (p'' & -> & Hl''); [lia|]. exists p''. split; [done | lia].
Qed.

Lemma line_step (l : string) (p : parser) :
  line_ok l = true -> p_state p <> EAT_CRNL ->
  p_field_len p + N.of_nat (cp_count l) <= field_limit ->
  exists p', process_line p l = Ok p' /\ p_field_len p' <= p_field_len p + N.of_nat (cp_count l) /\
    p_state p' <> EAT_CRNL.
Proof.
  intros Hok Hst Hlen. unfold process_line.
  destruct (string_step l p Hok Hst Hlen) as (p' & -> & Hl'). simpl.
  destruct (eol_step p') as (p'' & -> & Hl'' & Hst''). exists p''. split_and!; [done | lia | done].
Qed.

(** Lines of at most [field_limit] code points in all are read without
    [_csv.Error]: the reading ends as the file iterator does. *)
Lemma read_records_no_error (lines : list string) (p : parser) (eof : option py_exc) :
  Forall (fun l => line_ok l = true) lines -> p_state p <> EAT_CRNL ->
  p_field_len p + N.of_nat (sum_list (map cp_count lines)) <= field_limit ->
  stream_error (read_records p lines eof) = eof.
Proof.
  revert p. induction lines as [|l lines IH]; intros p Hok Hst Hlen; simpl in *.
  - destruct eof; [done|]. by case_match.
  - apply Forall_cons in Hok as [Hl Hok].
    destruct (line_step l p Hl Hst) as (p' & -> & Hl' & Hst'); [lia|]. simpl.
    case_bool_decide; simpl; apply IH; simpl; try done; lia.
Qed.

End NoError.

Lemma split_lines_ok (t : string) : no_cr t = true -> Forall (fun l => line_ok l = true) (split_lines t).
Proof.
  unfold no_cr. induction t as [|c t IH]; simpl; [done|]. intros [Hc Ht]%andb_prop.
  destruct (eq_char c LF) eqn:Hlf; [constructor; [simpl; by rewrite Hlf | by apply IH]|].
  specialize (IH Ht). destruct (split_lines t) as [|l ls]; constructor; simpl; rewrite ?Hlf, ?Hc;
    [done | done | by inversion IH | by inversion IH].
Qed.

Lemma split_lines_count (t : string) : sum_list (map cp_count (split_lines t)) = cp_count t.
Proof.
  induction t as [|c t IH]; simpl; [done|]. destruct (eq_char c LF); simpl; [rewrite IH; lia|].
  destruct (split_lines t) as [|l ls]; simpl in *; lia.
Qed.

Lemma translate_newlines_ok (t : string) :
  no_cr (translate_newlines t) = true /\ (cp_count (translate_newlines t) <= cp_count t)%nat.
Proof.
  unfold no_cr. induction t as [t IH] using (induction_ltof1 _ String.length). unfold ltof in IH.
  destruct t as [|c t]; simpl; [split; [done | lia]|].
  destruct (eq_char c CR) eqn:Hcr.
  - apply eq_char_true in Hcr as ->. destruct t as [|d t]; simpl; [split; [done | lia]|].
    destruct (eq_char d LF);
      [destruct (IH t) as [H1 H2] | destruct (IH (String d t)) as [H1 H2]]; simpl in *; try lia;
      rewrite H1; split; [done | lia | done | lia].
  - destruct (IH t) as [H1 H2]; simpl; [lia|]. rewrite Hcr, H1. split; [done | lia].
Qed.

Lemma drop_pending_cr_count (t : string) : (cp_count (drop_pending_cr t) <= cp_count t)%nat.
Proof.
  induction t as [|c t IH]; [done|]. destruct t as [|c' t'].
  - simpl. destruct (eq_char c CR); simpl; lia.
  - assert (E : drop_pending_cr (String c (String c' t')) = String c (drop_pending_cr (String c' t')))
      by done. rewrite E. cbn [cp_count] in *. lia.
Qed.

(** The lines of a text: well formed, and no more code points than the
    text. *)
Lemma text_lines_ok (t : string) :
  Forall (fun l => line_ok l = true) (split_lines (translate_newlines t)) /\
  (sum_list (map cp_count (split_lines (translate_newlines t))) <= cp_count t)%nat.
Proof.
  destruct (translate_newlines_ok t) as [Hcr Hle]. split; [by apply split_lines_ok|].
  rewrite split_lines_count. lia.
Qed.

Lemma complete_lines_ok (P : string -> Prop) (ls : list string) :
  Forall P ls -> Forall P (complete_lines ls) /\
  (sum_list (map cp_count (complete_lines ls)) <= sum_list (map cp_count ls))%nat.
Proof.
  unfold complete_lines. induction 1 as [|l ls Hl _ [IH1 IH2]]; [done|].
  rewrite filter_cons. case_decide; simpl; split; try constructor; try done; lia.
Qed.

(** Lines followed by an exception always end the stream with an
    exception. *)
Lemma read_records_raises (p : parser) (lines : list string) (e : py_exc) :
  stream_error (read_records p lines (Some e)) <> None.
Proof.
  revert p. induction lines as [|l lines IH]; intros p; simpl; [done|].
  destruct (process_line p l); simpl; [case_bool_decide; simpl; apply IH | done].
Qed.

Lemma dict_rows_error (fns : list string) (rs : rstream (list string)) :
  stream_error (dict_rows fns rs) = stream_error rs.
Proof. induction rs as [|[|c r] rest IH|e]; simpl; done. Qed.

(** On UTF-8 bytes the reader parses the lines of the whole file. *)
Lemma csv_reader_valid (bytes : string) :
  utf8_valid bytes = true ->
  csv_reader bytes = read_records parser_reset (split_lines (translate_newlines bytes)) None.
Proof.
  unfold utf8_valid. intros H. pose proof (read_text_spec bytes) as R.
  destruct (utf8_decode bytes); [|done]. destruct R as [E He]. unfold csv_reader. by rewrite E, He.
Qed.

(** On bytes that are not UTF-8 the stream of records ends with an
    exception. *)
Lemma csv_reader_invalid (bytes : string) :
  utf8_valid bytes = false -> stream_error (csv_reader bytes) <> None.
Proof.
  unfold utf8_valid. pose proof (read_text_spec bytes) as R.
  destruct (utf8_decode bytes); [done|]. intros _. destruct R as (l & rest & E & _).
  unfold csv_reader. rewrite E. apply read_records_raises.
Qed.

(** A UTF-8 file of at most [field_limit] code points is read to its
    end. *)
Lemma csv_reader_valid_no_error (bytes : string) :
  utf8_valid bytes = true -> (N.of_nat (cp_count bytes) <= field_limit)%N ->
  stream_error (csv_reader bytes) = None.
Proof.
  intros Hv Hlen. rewrite csv_reader_valid by done. destruct (text_lines_ok bytes) as [Hok Hle].
  apply read_records_no_error; [done | done | simpl; lia].
Qed.

(** C25. The reader raises [_csv.Error] only on a field longer than the
    field size limit: a file of at most 131072 code points is read to its
    end when it is UTF-8, whatever it holds (quotes, blank lines, CR, LF),
    and otherwise the reading stops with [UnicodeDecodeError]. *)
Theorem csv_reader_no_error (bytes : string) :
  (N.of_nat (cp_count bytes) <= field_limit)%N ->
  stream_error (csv_reader bytes) = match utf8_decode bytes with Some _ => None | None => Some UnicodeDecodeError end.
Proof.
  intros Hlen. destruct (utf8_decode bytes) as [l|] eqn:E.
  - apply csv_reader_valid_no_error; [unfold utf8_valid; by rewrite E | done].
  - unfold csv_reader. pose proof (read_text_spec bytes) as H. rewrite E in H.
    destruct H as (l & rest & -> & He).
    destruct (text_lines_ok (drop_pending_cr (utf8_encode l))) as [Hok Hle].
    destruct (complete_lines_ok _ _ Hok) as [Hok' Hle'].
    pose proof (drop_pending_cr_count (utf8_encode l)). rewrite <- He, cp_count_app in Hlen.
    apply read_records_no_error; [done | done | simpl; lia].
Qed.

Lemma csv_reader_no_error_witness :
  (N.of_nat (cp_count ("Ref,Rot" +:+ String CR (String LF ("x," +:+ String quote "y")))) <= field_limit)%N /\
  stream_error (csv_reader ("Ref,Rot" +:+ String CR (String LF ("x," +:+ String quote "y")))) = None.
Proof.
  split; [vm_compute; discriminate|].
  rewrite csv_reader_no_error by (vm_compute; discriminate). vm_compute. reflexivity.
Defined.

(** ** The parser invariant *)

Lemma process_char_wf (p : parser) (c : pchar) (p' : parser) :
  parser_wf p -> process_char p c = Ok p' -> parser_wf p'.
Proof.
  destruct p as [st fs f n]. unfold parser_wf, process_char, start_field, add_char, save_field, set_state.
  cbn [p_state p_field p_field_len]. intros [Hn Hl]. unfold cp_width in *.
  destruct (N.leb_spec field_limit n); destruct st; repeat (case_match; simpl in *);
    intros; simplify_eq/=; unfold cp_width;
    repeat match goal with H : is_cont ?x = _ |- context [is_cont ?x] => rewrite H end; lia.
Qed.

(** C27. Invariant of the reader state machine: in every state reachable
    from a fresh reader, the field length counter equals the length of the
    field buffer and is at most the field size limit. *)
Theorem reachable_wf (p : parser) : reachable p -> parser_wf p.
Proof.
  induction 1 as [|p c p' _ IH Hstep]; [unfold parser_wf; simpl; lia|].
  by apply (process_char_wf p c).
Qed.

Lemma reachable_wf_witness :
  reachable (mk_parser IN_FIELD [] ["a"%char] 1) /\ parser_wf (mk_parser IN_FIELD [] ["a"%char] 1).
Proof.
  assert (H : reachable (mk_parser IN_FIELD [] ["a"%char] 1))
    by (apply (reach_step parser_reset (PC "a")); [constructor | reflexivity]).
  split; [exact H | apply reachable_wf; exact H].
Defined.

(** ** DictReader records *)

(** Inserting pairs into a dict, as [dict(zip(...))] does. *)
Section Fold.
Context {V W : Type} (f : V -> W).

Lemma fold_insert_notin (kvs : list (string * V)) (m : gmap string W) (k : string) :
  k ∉ kvs.*1 -> fold_left (fun m '(k, v) => <[k := f v]> m) kvs m !! k = m !! k.
Proof.
  revert m. induction kvs as [|[k' v'] kvs IH]; intros m Hk; simpl in *; [done|].
  rewrite IH by set_solver. apply lookup_insert_ne. set_solver.
Qed.

Lemma fold_insert_in (kvs : list (string * V)) (m : gmap string W) (k : string) (v : V) :
  NoDup kvs.*1 -> (k, v) ∈ kvs -> fold_left (fun m '(k, v) => <[k := f v]> m) kvs m !! k = Some (f v).
Proof.
  revert m. induction kvs as [|[k' v'] kvs IH]; intros m Hnd Hin; simpl in *; [set_solver|].
  apply NoDup_cons in Hnd as [Hk' Hnd]. apply elem_of_cons in Hin as [[= -> ->]|Hin].
  - rewrite fold_insert_notin by done. apply lookup_insert_eq.
  - by apply IH.
Qed.

Lemma fold_fill (ks : list string) (w : W) (m : gmap string W) (k : string) :
  fold_left (fun m k => <[k := w]> m) ks m !! k = if decide (k ∈ ks) then Some w else m !! k.
Proof.
  revert m. induction ks as [|k' ks IH]; intros m; cbn [fold_left].
  - rewrite decide_False; [done | set_solver].
  - rewrite IH. destruct (decide (k ∈ ks)); [by rewrite decide_True by set_solver|].
    destruct (decide (k = k')) as [->|Hne].
    + rewrite decide_True by set_solver. by rewrite lookup_insert_eq.
    + rewrite decide_False by set_solver. by rewrite lookup_insert_ne.
Qed.
End Fold.

(** The keys of [zip] are the first names of the header. *)
Lemma zip_fst_take {A B : Type} (l : list A) (k : list B) : (zip l k).*1 = take (length k) l.
Proof.
  revert k. induction l as [|x l IH]; intros [|y k]; simpl; rewrite ?take_nil; [done..|]. by rewrite IH.
Qed.

(** A header name maps to the cell at its position, or to [None]
    ([restval]) when the row is shorter. *)
Lemma make_record_present (fns row : list string) (i : nat) (k : string) :
  NoDup fns -> fns !! i = Some k -> rec_fields (make_record fns row) !! k = Some (row !! i).
Proof.
  intros Hnd Hk. assert (Hnd' : NoDup (zip fns row).*1).
  { rewrite zip_fst_take. rewrite <- (take_drop (length row) fns) in Hnd. by apply NoDup_app in Hnd as [? _]. }
  unfold make_record. destruct (row !! i) as [v|] eqn:Hv.
  - assert (Hin : (k, v) ∈ zip fns row) by (apply list_elem_of_lookup_2 with i; by apply lookup_zip_Some).
    assert (Hi : i < length row) by (by apply lookup_lt_Some in Hv).
    case_decide; simpl; [by rewrite (fold_insert_in Some _ _ k v) |].
    rewrite fold_fill, decide_False; [by rewrite (fold_insert_in Some _ _ k v)|].
    rewrite <- (take_drop (length row) fns) in Hnd. apply NoDup_app in Hnd as (_ & Hdis & _).
    intros Hd. apply (Hdis k); [|done]. apply list_elem_of_lookup_2 with i. by rewrite lookup_take_lt.
  - apply lookup_ge_None in Hv. assert (length fns > i) by (by apply lookup_lt_Some in Hk).
    rewrite decide_False by lia. simpl. rewrite fold_fill, decide_True; [done|].
    apply list_elem_of_lookup_2 with (i - length row). rewrite lookup_drop.
    by replace (length row + (i - length row)) with i by lia.
Qed.

(** A name outside the header is not a key of the record. *)
Lemma make_record_absent (fns row : list string) (k : string) :
  k ∉ fns -> rec_fields (make_record fns row) !! k = None.
Proof.
  intros Hk. unfold make_record.
  assert (Hk1 : k ∉ (zip fns row).*1) by (rewrite zip_fst_take; intros (i & Hi & _)%elem_of_take; apply Hk; by apply list_elem_of_lookup_2 with i).
  case_decide; simpl; [by rewrite (fold_insert_notin Some), lookup_empty|].
  rewrite fold_fill, decide_False, (fold_insert_notin Some), lookup_empty; [done | done |].
  intros (j & Hj)%list_elem_of_lookup_1. rewrite lookup_drop in Hj. apply Hk. by eapply list_elem_of_lookup_2.
Qed.

(** C28. [DictReader]'s record: for a header with distinct names, each
    name maps to the cell at its position, or to [None] ([restval]) when
    the row is shorter; a name outside the header is absent, so
    [in_header in row] (line 59) is false for it. *)
Theorem make_record_spec (fns row : list string) :
  NoDup fns ->
  (forall i k, fns !! i = Some k -> rec_fields (make_record fns row) !! k = Some (row !! i)) /\
  (forall k, k ∉ fns -> rec_fields (make_record fns row) !! k = None).
Proof.
  intros Hnd. split; [by intros; apply make_record_present | apply make_record_absent].
Qed.

Lemma make_record_spec_witness :
  rec_fields (make_record ["Ref"; "Rot"] ["R1"]) !! "Rot" = Some None.
Proof.
  apply (proj1 (make_record_spec ["Ref"; "Rot"] ["R1"] ltac:(repeat constructor; set_solver)) 1).
  reflexivity.
Defined.


End CsvReader.
