(* ===== verification/Converter.v ===== *)
(** * Converter: [convert_csv_to_neoden] and the [__main__] block

    The driver of src/convert_kicad_to_yy1.py (lines 4-97) as a function of
    a file system and the two paths, returning the new file system and the
    lines printed on standard output:

    - line 14: [open(csv_file_path, 'r')] fails with [FileNotFoundError] on a
      missing path and [IsADirectoryError] on a directory;
    - line 15: [open(output_file_path, 'w')] truncates (or creates) the
      output, and fails when the path is a directory or its parent directory
      is missing;
    - lines 21-32: the twelve preamble rows, written to the output buffer;
    - line 35: [reader.fieldnames] reads the input, at this moment: when the
      two paths name the same file, the input is already truncated;
    - lines 54-77: one output row per record, in order;
    - the [with] block closes both files on every exit, which writes the
      buffered text to the output file; the buffer is assumed to hold the
      preamble (about 600 characters, below the 8192 of [io]), so that the
      output file is empty when the input is first read;
    - lines 79-84: the success message, and the two handlers: the
      [FileNotFoundError] message names the input path, any other exception
      prints ["An error occurred: " + str(e)];
    - lines 86-97: the argument count check and the exit code.

    The file system maps a path to a file (its text) or a directory; the
    parent of a path is its prefix before the last ['/'].  Permissions,
    other [OSError]s and the text of exception messages are not modelled. *)

From S2P Require Import Prelude Utf8 PyFloat RowMapper CsvWriter CsvReader.
Import Utf8 PyFloat RowMapper CsvWriter CsvReader.

Module Converter.

(** ** File system and standard output *)

Inductive fnode : Type :=
| FFile (text : string)
| FDir.

#[export] Instance fnode_eq_dec : EqDecision fnode.
Proof. solve_decision. Defined.

Abbreviation fsys := (gmap string fnode).

(** A line printed by [print]. *)
Inductive message : Type :=
| MsgUsage                               (* line 89 *)
| MsgSuccess (inp out : string)          (* line 79 *)
| MsgNotFound (inp : string)             (* line 82 *)
| MsgEmpty                               (* line 36 *)
| MsgError (e : py_exc).                 (* line 84 *)

#[export] Instance message_eq_dec : EqDecision message.
Proof. solve_decision. Defined.

(** The directory part of a path: before the last ['/'], if any. *)
Fixpoint parent_dir (p : string) : option string :=
  match p with
  | EmptyString => None
  | String c p' =>
      match parent_dir p' with
      | Some d => Some (String c d)
      | None => if eq_char c "/" then Some EmptyString else None
      end
  end.

(** [open(path, 'r')]. *)
Definition open_read (fs : fsys) (path : string) : res string :=
  match fs !! path with
  | Some (FFile t) => Ok t
  | Some FDir => Raise (IsADirectoryError path)
  | None => Raise (FileNotFoundError path)
  end.

(** [open(path, 'w')]: truncates or creates the file. *)
Definition open_write (fs : fsys) (path : string) : res fsys :=
  match fs !! path with
  | Some FDir => Raise (IsADirectoryError path)
  | Some (FFile _) => Ok (<[path := FFile EmptyString]> fs)
  | None =>
      if String.eqb path EmptyString then Raise (FileNotFoundError path)
      else match parent_dir path with
           | Some d => if bool_decide (fs !! d = Some FDir)
                       then Ok (<[path := FFile EmptyString]> fs)
                       else Raise (FileNotFoundError path)
           | None => Ok (<[path := FFile EmptyString]> fs)
           end
  end.

(** ** The preamble (lines 21-32) *)

Definition strs (l : list string) : list cell := map CStr l.

Definition empty_row : list cell := strs (replicate 12 EmptyString).

Definition preamble : list (list cell) :=
  [strs (["NEODEN"; "YY1"; "P&P FILE"] ++ replicate 9 EmptyString);
   empty_row;
   strs (["PanelizedPCB"; "UnitLength"; "0"; "UnitWidth"; "0"; "Rows"; "1"; "Columns"; "1"]
         ++ replicate 3 EmptyString);
   empty_row;
   strs (["Fiducial"; "1-X"; "13.09"; "1-Y"; "55.01"; "OverallOffsetX"; "0.08";
          "OverallOffsetY"; "0.12"] ++ replicate 3 EmptyString);
   empty_row;
   strs (["NozzleChange"; "OFF"; "BeforeComponent"; "1"; "Head1"; "Drop"; "Station2";
          "PickUp"; "Station1"] ++ replicate 3 EmptyString);
   strs (["NozzleChange"; "OFF"; "BeforeComponent"; "2"; "Head2"; "Drop"; "Station3";
          "PickUp"; "Station2"] ++ replicate 3 EmptyString);
   strs (["NozzleChange"; "OFF"; "BeforeComponent"; "1"; "Head1"; "Drop"; "Station1";
          "PickUp"; "Station1"] ++ replicate 3 EmptyString);
   strs (["NozzleChange"; "OFF"; "BeforeComponent"; "1"; "Head1"; "Drop"; "Station1";
          "PickUp"; "Station1"] ++ replicate 3 EmptyString);
   empty_row;
   strs output_header].

Definition preamble_text : string := writerows preamble.

(** ** The loop of lines 54-77 *)

(** The text written by the loop and how it ends: normally, or with the
    exception raised by the reader or by the loop body. *)
Fixpoint convert_loop (rows : rstream record) : string * option py_exc :=
  match rows with
  | RNil => (EmptyString, None)
  | RErr e => (EmptyString, Some e)
  | RCons row rest =>
      match convert_row row with
      | Raise e => (EmptyString, Some e)
      | Ok out =>
          let '(t, r) := convert_loop rest in (writerow out +:+ t, r)
      end
  end.

(** ** [convert_csv_to_neoden] (lines 4-84) *)

(** The message of the outer handlers for an exception. *)
Definition handler_message (inp : string) (e : py_exc) : message :=
  match e with
  | FileNotFoundError _ => MsgNotFound inp
  | _ => MsgError e
  end.

(** The output file after [close()], holding the buffered text. *)
Definition close_output (fs : fsys) (out text : string) : fsys := <[out := FFile text]> fs.

Definition convert_csv_to_neoden (fs : fsys) (inp out : string) : fsys * list message :=
  match open_read fs inp with
  | Raise e => (fs, [handler_message inp e])
  | Ok _ =>
      match open_write fs out with
      | Raise e => (fs, [handler_message inp e])
      | Ok fs1 =>
          let text := match fs1 !! inp with Some (FFile t) => t | _ => EmptyString end in
          match dict_reader text with
          | Raise e => (close_output fs1 out preamble_text, [handler_message inp e])
          | Ok None => (close_output fs1 out preamble_text, [MsgEmpty])
          | Ok (Some (_, rows)) =>
              let '(t, r) := convert_loop rows in
              let fs2 := close_output fs1 out (preamble_text +:+ t) in
              match r with
              | None => (fs2, [MsgSuccess inp out])
              | Some e => (fs2, [handler_message inp e])
              end
          end
      end
  end.

(** ** [__main__] (lines 86-97) *)

(** The file system, the printed lines and the exit status for
    [sys.argv = argv]. *)
Definition main (fs : fsys) (argv : list string) : fsys * list message * Z :=
  match argv with
  | [_; inp; out] => let '(fs', msgs) := convert_csv_to_neoden fs inp out in (fs', msgs, 0%Z)
  | _ => (fs, [MsgUsage], 1%Z)
  end.

(** ** Sample input files (for the examples) *)

Definition nl : string := String "010" EmptyString.
Definition crlf : string := String "013" nl.

(** The KiCad file of the scenario of the spec. *)
Definition kicad_text : string :=
  "Ref,Val,Package,PosX,PosY,Rot,Side" +:+ nl +:+ "R1,10k,0402,12.5,34.2,90,Top" +:+ nl.

Definition kicad_fs : fsys := <["in.csv" := FFile kicad_text]> ∅.

(** The file of the scenario saved in Latin-1: the micro sign of the
    value 10 microfarad is the byte B5, which is not UTF-8. *)
Definition latin1_text : string :=
  "Ref,Val,Package,PosX,PosY,Rot,Side" +:+ nl +:+ "C1,10" +:+ String "181" "F,0805,1.0,2.0,0,Top" +:+ nl.

Definition latin1_fs : fsys := <["in.csv" := FFile latin1_text]> ∅.

(** ** The loop and the opens *)

Lemma open_write_ok (fs fs1 : fsys) (out : string) :
  open_write fs out = Ok fs1 -> fs1 = <[out := FFile EmptyString]> fs.
Proof.
  unfold open_write. destruct (fs !! out) as [[t|]|]; [by intros [= <-] | done |].
  destruct (String.eqb out EmptyString); [done|].
  destruct (parent_dir out) as [d|]; [|by intros [= <-]].
  case_bool_decide; [by intros [= <-] | done].
Qed.

(** Records that convert write their rows in order, then the loop goes on
    with the rest of the stream. *)
Lemma convert_loop_app (recs : list record) (outs : list (list cell)) (tail : rstream record) :
  Forall2 (fun r o => convert_row r = Ok o) recs outs ->
  convert_loop (stream_app recs tail) =
    (writerows outs +:+ fst (convert_loop tail), snd (convert_loop tail)).
Proof.
  induction 1 as [|r o recs outs Hro _ IH]; simpl.
  - by destruct (convert_loop tail).
  - rewrite Hro, IH. simpl. by rewrite string_app_assoc.
Qed.

(** A stream of records that ends with an exception makes the loop end
    with an exception. *)
Lemma convert_loop_error (rows : rstream record) :
  stream_error rows <> None -> (convert_loop rows).2 <> None.
Proof.
  induction rows as [|row rest IH|e]; simpl; [done | | done].
  destruct (convert_row row); simpl; [|done]. intros H.
  destruct (convert_loop rest) as [t r]. exact (IH H).
Qed.

(** A stream of records that ends normally is converted to its end or
    up to a record whose conversion raises. *)
Lemma convert_loop_no_error (rows : rstream record) :
  stream_error rows = None ->
  (convert_loop rows).2 = None \/ exists r e, convert_row r = Raise e /\ (convert_loop rows).2 = Some e.
Proof.
  induction rows as [|row rest IH|e]; simpl; [by left | | done]. intros H.
  destruct (convert_row row) as [o|e] eqn:Er; simpl; [|right; by exists row, e].
  destruct (IH H) as [H1 | (r & e & Hr & H2)]; destruct (convert_loop rest) as [t q]; simpl in *;
    [by left | right; by exists r, e].
Qed.

(** The driver once both files are open: the input text read after the
    truncation of the output. *)
Lemma convert_opened (fs : fsys) (inp out text : string) :
  fs !! inp = Some (FFile text) -> (exists fs1, open_write fs out = Ok fs1) ->
  convert_csv_to_neoden fs inp out =
    let fs1 := <[out := FFile EmptyString]> fs in
    let text' := if String.eqb inp out then EmptyString else text in
    match dict_reader text' with
    | Raise e => (close_output fs1 out preamble_text, [handler_message inp e])
    | Ok None => (close_output fs1 out preamble_text, [MsgEmpty])
    | Ok (Some (_, rows)) =>
        let '(t, r) := convert_loop rows in
        let fs2 := close_output fs1 out (preamble_text +:+ t) in
        match r with
        | None => (fs2, [MsgSuccess inp out])
        | Some e => (fs2, [handler_message inp e])
        end
    end.
Proof.
  intros Hin [fs1 Hw]. unfold convert_csv_to_neoden, open_read. rewrite Hin, Hw.
  apply open_write_ok in Hw as ->. simpl.
  destruct (String.eqb_spec inp out) as [->|Hne].
  - by rewrite lookup_insert_eq.
  - by rewrite lookup_insert_ne, Hin by congruence.
Qed.

(** ** The behaviour of [convert_csv_to_neoden] *)

(** C2. On a readable input with a header, whose records all convert,
    the output file holds the preamble followed by one row per record, in
    the order of the input, and the success message is printed. *)
Theorem convert_csv_success (fs : fsys) (inp out text : string) (fns : list string)
    (recs : list record) (outs : list (list cell)) :
  fs !! inp = Some (FFile text) -> inp <> out -> (exists fs1, open_write fs out = Ok fs1) ->
  dict_reader text = Ok (Some (fns, stream_app recs RNil)) ->
  Forall2 (fun r o => convert_row r = Ok o) recs outs ->
  convert_csv_to_neoden fs inp out =
    (<[out := FFile (preamble_text +:+ writerows outs)]> fs, [MsgSuccess inp out]).
Proof.
  intros Hin Hne Hw Hrd Hrows. rewrite (convert_opened fs inp out text Hin Hw). simpl.
  destruct (String.eqb_spec inp out); [done|]. rewrite Hrd, (convert_loop_app _ _ _ Hrows). simpl.
  unfold close_output. by rewrite insert_insert_eq, string_app_nil_r.
Qed.

Lemma convert_csv_success_witness :
  convert_csv_to_neoden kicad_fs "in.csv" "out.csv" =
    (<["out.csv" := FFile (preamble_text +:+
        writerows [[CStr "R1"; CStr "10k"; CStr "0402"; CStr "12.5"; CStr "34.2"; CInt 90;
                    CInt 0; CInt 1; CInt 100; CInt 0; CInt 0; CInt 1; CInt 0]])]> kicad_fs,
     [MsgSuccess "in.csv" "out.csv"]).
Proof.
  apply (convert_csv_success kicad_fs "in.csv" "out.csv" kicad_text
           ["Ref"; "Val"; "Package"; "PosX"; "PosY"; "Rot"; "Side"]
           [mk_record (list_to_map [("Side", Some "Top"); ("Rot", Some "90"); ("PosY", Some "34.2");
               ("PosX", Some "12.5"); ("Package", Some "0402"); ("Val", Some "10k");
               ("Ref", Some "R1")]) None]).
  - vm_compute. reflexivity.
  - discriminate.
  - eexists. vm_compute. reflexivity.
  - vm_compute. reflexivity.
  - constructor; [vm_compute; reflexivity | constructor].
Defined.

(** C11. When a record raises (an [OverflowError] or [TypeError] of the
    rotation, or a [_csv.Error] of the reader), the output file keeps the
    preamble and the rows of the records before it (no recovery, no
    rollback), and the handler prints the error; the exit status is not
    changed. *)
Theorem convert_csv_partial (fs : fsys) (inp out text : string) (fns : list string)
    (recs : list record) (outs : list (list cell)) (tail : rstream record) (e : py_exc) :
  fs !! inp = Some (FFile text) -> inp <> out -> (exists fs1, open_write fs out = Ok fs1) ->
  dict_reader text = Ok (Some (fns, stream_app recs tail)) ->
  Forall2 (fun r o => convert_row r = Ok o) recs outs ->
  (tail = RErr e \/ exists r rest, tail = RCons r rest /\ convert_row r = Raise e) ->
  convert_csv_to_neoden fs inp out =
    (<[out := FFile (preamble_text +:+ writerows outs)]> fs, [handler_message inp e]).
Proof.
  intros Hin Hne Hw Hrd Hrows Htail. rewrite (convert_opened fs inp out text Hin Hw). simpl.
  destruct (String.eqb_spec inp out); [done|]. rewrite Hrd, (convert_loop_app _ _ _ Hrows).
  assert (convert_loop tail = (EmptyString, Some e)) as ->
    by (destruct Htail as [-> | (r & rest & -> & Hr)]; simpl; [done | by rewrite Hr]).
  simpl. unfold close_output. by rewrite insert_insert_eq, string_app_nil_r.
Qed.

Lemma convert_csv_partial_witness :
  convert_csv_to_neoden (<["in.csv" := FFile ("Ref,Rot" +:+ nl +:+ "R1,inf" +:+ nl)]> ∅)
    "in.csv" "out.csv" =
  (<["out.csv" := FFile (preamble_text +:+ writerows [])]>
     (<["in.csv" := FFile ("Ref,Rot" +:+ nl +:+ "R1,inf" +:+ nl)]> ∅),
   [handler_message "in.csv" OverflowError]).
Proof.
  apply (convert_csv_partial _ "in.csv" "out.csv" ("Ref,Rot" +:+ nl +:+ "R1,inf" +:+ nl)
           ["Ref"; "Rot"] [] [] (dict_rows ["Ref"; "Rot"] (RCons ["R1"; "inf"] RNil))
           OverflowError).
  - vm_compute. reflexivity.
  - discriminate.
  - eexists. vm_compute. reflexivity.
  - vm_compute. reflexivity.
  - constructor.
  - right. do 2 eexists. split; [reflexivity | vm_compute; reflexivity].
Defined.

(** C12. An empty input file gives an output file with the preamble and
    the column header, and the "empty or has no headers" message: the header
    check of line 35 comes after the preamble is written (the spec's
    section 7 says the output stays empty). *)
Theorem convert_csv_empty_input (fs : fsys) (inp out : string) :
  fs !! inp = Some (FFile EmptyString) -> (exists fs1, open_write fs out = Ok fs1) ->
  convert_csv_to_neoden fs inp out = (<[out := FFile preamble_text]> fs, [MsgEmpty]).
Proof.
  intros Hin Hw. rewrite (convert_opened fs inp out EmptyString Hin Hw). simpl.
  unfold close_output. rewrite insert_insert_eq. by destruct (String.eqb inp out).
Qed.

Lemma convert_csv_empty_input_witness :
  convert_csv_to_neoden (<["in.csv" := FFile EmptyString]> ∅) "in.csv" "out.csv" =
    (<["out.csv" := FFile preamble_text]> (<["in.csv" := FFile EmptyString]> ∅), [MsgEmpty]).
Proof.
  apply convert_csv_empty_input; [reflexivity | eexists; vm_compute; reflexivity].
Defined.

(** C13. When the output path is the input path, [open(..., 'w')]
    truncates the input before it is read: whatever the input held, the
    file ends up holding only the preamble and the "empty" message is
    printed. *)
Theorem convert_csv_same_path (fs : fsys) (path text : string) :
  fs !! path = Some (FFile text) ->
  convert_csv_to_neoden fs path path = (<[path := FFile preamble_text]> fs, [MsgEmpty]).
Proof.
  intros Hin. assert (Hw : exists fs1, open_write fs path = Ok fs1)
    by (unfold open_write; rewrite Hin; eauto).
  rewrite (convert_opened fs path path text Hin Hw). simpl. rewrite String.eqb_refl. simpl.
  unfold close_output. by rewrite insert_insert_eq.
Qed.

Lemma convert_csv_same_path_witness :
  convert_csv_to_neoden kicad_fs "in.csv" "in.csv" =
    (<["in.csv" := FFile preamble_text]> kicad_fs, [MsgEmpty]).
Proof. apply (convert_csv_same_path kicad_fs "in.csv" kicad_text). reflexivity. Defined.

(** C15. A missing input file leaves the file system unchanged (the
    output is not opened) and prints the "file not found" message. *)
Theorem convert_csv_missing_input (fs : fsys) (inp out : string) :
  fs !! inp = None -> convert_csv_to_neoden fs inp out = (fs, [MsgNotFound inp]).
Proof. intros Hin. unfold convert_csv_to_neoden, open_read. by rewrite Hin. Qed.

Lemma convert_csv_missing_input_witness :
  convert_csv_to_neoden kicad_fs "missing.csv" "out.csv" = (kicad_fs, [MsgNotFound "missing.csv"]).
Proof. apply convert_csv_missing_input. reflexivity. Defined.

(** C14. When the directory of the output path does not exist, the
    [FileNotFoundError] of the second [open] is reported with the message
    that names the input path, which exists. *)
Theorem convert_csv_missing_output_dir (fs : fsys) (inp out text dir : string) :
  fs !! inp = Some (FFile text) -> fs !! out = None ->
  parent_dir out = Some dir -> fs !! dir = None ->
  convert_csv_to_neoden fs inp out = (fs, [MsgNotFound inp]).
Proof.
  intros Hin Hout Hpar Hdir. unfold convert_csv_to_neoden, open_read, open_write.
  rewrite Hin, Hout, Hpar, Hdir.
  destruct (String.eqb out EmptyString); [done|]. by rewrite bool_decide_false.
Qed.

Lemma convert_csv_missing_output_dir_witness :
  convert_csv_to_neoden kicad_fs "in.csv" "nodir/out.csv" = (kicad_fs, [MsgNotFound "in.csv"]).
Proof.
  apply (convert_csv_missing_output_dir kicad_fs "in.csv" "nodir/out.csv" kicad_text "nodir");
    vm_compute; reflexivity.
Defined.

(** C20. [__main__]: with other than two arguments the usage line is
    printed and the exit status is 1, nothing else happens; with two, the
    conversion runs and the exit status is 0 whatever the outcome. *)
Theorem main_exit_status (fs : fsys) (argv : list string) :
  (main fs argv).2 = (if Nat.eqb (length argv) 3 then 0%Z else 1%Z) /\
  (forall prog inp out, argv = [prog; inp; out] -> (main fs argv).1 = convert_csv_to_neoden fs inp out) /\
  (length argv <> 3 -> (main fs argv).1 = (fs, [MsgUsage])).
Proof.
  unfold main. destruct argv as [|a [|inp [|out [|x argv]]]]; simpl;
    try (split; [done | split; [by intros ??? | done]]).
  destruct (convert_csv_to_neoden fs inp out) eqn:E. split; [done|].
  split; [intros ??? [= _ -> ->]; by rewrite E | done].
Qed.

Lemma main_exit_status_witness :
  (main kicad_fs ["convert"; "in.csv"])
    = (kicad_fs, [MsgUsage], 1%Z) /\
  (main kicad_fs ["convert"; "in.csv"; "out.csv"]).1 = convert_csv_to_neoden kicad_fs "in.csv" "out.csv".
Proof.
  pose proof (main_exit_status kicad_fs ["convert"; "in.csv"]) as [H1 [_ H3]].
  pose proof (main_exit_status kicad_fs ["convert"; "in.csv"; "out.csv"]) as [_ [H2 _]].
  split; [|by apply (H2 "convert")].
  rewrite (surjective_pairing (main _ _)), H1, H3 by (simpl; lia). reflexivity.
Defined.

(** ** Effects on the file system *)

(** C23. Frame: the conversion changes no path of the file system other
    than the output path, whatever happens (errors included). *)
Theorem convert_csv_frame (fs : fsys) (inp out p : string) :
  p <> out -> (convert_csv_to_neoden fs inp out).1 !! p = fs !! p.
Proof.
  intros Hp. unfold convert_csv_to_neoden. destruct (open_read fs inp); [|done].
  destruct (open_write fs out) as [fs1|] eqn:Hw; [|done]. apply open_write_ok in Hw as ->.
  unfold close_output. destruct (dict_reader _) as [[[? rows]|]|e];
    [destruct (convert_loop rows) as [t [e|]]|..]; cbn [fst]; by rewrite !lookup_insert_ne.
Qed.

Lemma convert_csv_frame_witness :
  (convert_csv_to_neoden kicad_fs "in.csv" "in.csv").1 !! "other.csv" = kicad_fs !! "other.csv".
Proof. apply convert_csv_frame. discriminate. Defined.

(** C24. Once both files are open, the output file always begins with the
    twelve preamble rows: on success, on an empty input, and when a record
    or the reader raises. *)
Theorem convert_csv_output_preamble (fs : fsys) (inp out text : string) :
  fs !! inp = Some (FFile text) -> (exists fs1, open_write fs out = Ok fs1) ->
  exists t, (convert_csv_to_neoden fs inp out).1 !! out = Some (FFile (preamble_text +:+ t)).
Proof.
  intros Hin Hw. rewrite (convert_opened fs inp out text Hin Hw). cbv zeta. unfold close_output.
  destruct (dict_reader _) as [[[? rows]|]|e];
    [destruct (convert_loop rows) as [t [e|]]|..]; cbn [fst]; rewrite lookup_insert_eq;
    [by exists t | by exists t | exists EmptyString; by rewrite string_app_nil_r..].
Qed.

Lemma convert_csv_output_preamble_witness :
  exists t, (convert_csv_to_neoden kicad_fs "in.csv" "in.csv").1 !! "in.csv" =
              Some (FFile (preamble_text +:+ t)).
Proof.
  apply (convert_csv_output_preamble kicad_fs "in.csv" "in.csv" kicad_text);
    [vm_compute; reflexivity | exists (<["in.csv" := FFile EmptyString]> kicad_fs); vm_compute; reflexivity].
Defined.

(** ** Input files that are not plain UTF-8 *)

(** C35. An input file that is not UTF-8 is never reported as converted,
    nor as empty: the decoding error (or an error of a record read before
    it) is reported by the handler of line 83. *)
Theorem convert_csv_not_utf8 (fs : fsys) (inp out text : string) :
  fs !! inp = Some (FFile text) -> inp <> out -> (exists fs1, open_write fs out = Ok fs1) ->
  utf8_valid text = false ->
  (convert_csv_to_neoden fs inp out).2 <> [MsgSuccess inp out] /\
  (convert_csv_to_neoden fs inp out).2 <> [MsgEmpty].
Proof.
  intros Hin Hne Hw Hv. rewrite (convert_opened fs inp out text Hin Hw).
  destruct (String.eqb_spec inp out); [done|]. cbv zeta.
  pose proof (csv_reader_invalid text Hv) as Herr. unfold dict_reader.
  destruct (csv_reader text) as [|fns rest|e] eqn:E; [done | | by destruct e].
  simpl in Herr. rewrite <- (dict_rows_error fns) in Herr.
  pose proof (convert_loop_error _ Herr) as Hl. simpl.
  destruct (convert_loop (dict_rows fns rest)) as [t [e|]]; [|done]. by destruct e.
Qed.

Lemma convert_csv_not_utf8_witness :
  latin1_fs !! "in.csv" = Some (FFile latin1_text) /\ utf8_valid latin1_text = false /\
  (convert_csv_to_neoden latin1_fs "in.csv" "out.csv").2 <> [MsgSuccess "in.csv" "out.csv"].
Proof.
  split; [reflexivity|]. split; [vm_compute; reflexivity|].
  apply (convert_csv_not_utf8 latin1_fs "in.csv" "out.csv" latin1_text);
    [reflexivity | discriminate | eexists; reflexivity | vm_compute; reflexivity].
Defined.

(** C36. Bytes within the first 8192 of the input that do not begin
    UTF-8 (an invalid sequence, such as a letter saved in Latin-1) make the
    first read, that of [reader.fieldnames], raise [UnicodeDecodeError]:
    whatever follows them, the output file holds the preamble only and the
    generic error message is printed. *)
Theorem convert_csv_bad_first_chunk (fs : fsys) (inp out a b : string) :
  fs !! inp = Some (FFile (a +:+ b)) -> inp <> out -> (exists fs1, open_write fs out = Ok fs1) ->
  (String.length a <= chunk_size)%nat -> utf8_decode_gen false a = None ->
  convert_csv_to_neoden fs inp out = (<[out := FFile preamble_text]> fs, [MsgError UnicodeDecodeError]).
Proof.
  intros Hin Hne Hw Hn Hbad. rewrite (convert_opened fs inp out _ Hin Hw).
  destruct (String.eqb_spec inp out); [done|]. cbv zeta.
  unfold dict_reader, csv_reader. rewrite read_text_bad_prefix by done. simpl.
  unfold close_output. by rewrite insert_insert_eq.
Qed.

Lemma convert_csv_bad_first_chunk_witness :
  convert_csv_to_neoden latin1_fs "in.csv" "out.csv" =
    (<["out.csv" := FFile preamble_text]> latin1_fs, [MsgError UnicodeDecodeError]).
Proof.
  apply (convert_csv_bad_first_chunk latin1_fs "in.csv" "out.csv"
           ("Ref,Val,Package,PosX,PosY,Rot,Side" +:+ nl +:+ "C1,10" +:+ String "181" "F")
           (",0805,1.0,2.0,0,Top" +:+ nl));
    [vm_compute; reflexivity | discriminate | eexists; reflexivity
    | apply Nat.leb_le; vm_compute; reflexivity | vm_compute; reflexivity].
Defined.

(** C38. Progress of the reading: a UTF-8 input file of at most 131072
    code points is always read to its end, so the conversion ends with the
    success message, the empty-file message, or the exception of the
    conversion of one of its records, never with an error of the reader. *)
Theorem convert_csv_reads_to_end (fs : fsys) (inp out text : string) :
  fs !! inp = Some (FFile text) -> inp <> out -> (exists fs1, open_write fs out = Ok fs1) ->
  utf8_valid text = true -> (N.of_nat (cp_count text) <= field_limit)%N ->
  (convert_csv_to_neoden fs inp out).2 = [MsgSuccess inp out] \/
  (convert_csv_to_neoden fs inp out).2 = [MsgEmpty] \/
  exists r e, convert_row r = Raise e /\ (convert_csv_to_neoden fs inp out).2 = [handler_message inp e].
Proof.
  intros Hin Hne Hw Hv Hlen. rewrite (convert_opened fs inp out text Hin Hw).
  destruct (String.eqb_spec inp out); [done|]. cbv zeta.
  pose proof (csv_reader_valid_no_error text Hv Hlen) as Hok. unfold dict_reader.
  destruct (csv_reader text) as [|fns rest|e]; [by right; left | | done].
  simpl in Hok. rewrite <- (dict_rows_error fns) in Hok.
  destruct (convert_loop_no_error _ Hok) as [H | (r & e & Hr & H)];
    destruct (convert_loop (dict_rows fns rest)) as [t q]; simpl in H; subst q; simpl;
    [by left | right; right; by exists r, e].
Qed.

Lemma convert_csv_reads_to_end_witness :
  utf8_valid kicad_text = true /\ (N.of_nat (cp_count kicad_text) <= field_limit)%N /\
  ((convert_csv_to_neoden kicad_fs "in.csv" "out.csv").2 = [MsgSuccess "in.csv" "out.csv"] \/
   (convert_csv_to_neoden kicad_fs "in.csv" "out.csv").2 = [MsgEmpty] \/
   exists r e, convert_row r = Raise e /\
     (convert_csv_to_neoden kicad_fs "in.csv" "out.csv").2 = [handler_message "in.csv" e]).
Proof.
  split; [vm_compute; reflexivity|]. split; [vm_compute; discriminate|].
  apply (convert_csv_reads_to_end kicad_fs "in.csv" "out.csv" kicad_text);
    [reflexivity | discriminate | eexists; reflexivity | vm_compute; reflexivity | vm_compute; discriminate].
Defined.

End Converter.
