(* ===== verification/Roundtrip.v ===== *)
(** * Roundtrip: the output file reads back as the rows written

    The writer of [CsvWriter] and the reader of [CsvReader] meet in the
    output file of src/convert_kicad_to_yy1.py: the machine reads back with
    a CSV reader what [csv.writer] wrote.  The contract between the two is
    the class [CsvCodec]: decoding the encoding of rows gives back the text
    of their cells, one record per row, for rows whose cells have no line
    break and fit the field size limit of the reader.  [excel_codec]
    discharges it for [writerows] and [csv_reader] (QUOTE_MINIMAL quoting
    against the parser state machine), and the client theorem
    [output_reads_back] uses it to show what the output file of a
    successful conversion contains: the twelve preamble records and then one
    record per input record, in order.

    The same lemmas on the parser read the input files: the text of any
    writer that quotes some fields and ends its lines by CR LF or LF
    ([export_text]) reads back as its fields, so every KiCad position file
    converts row by row ([convert_csv_kicad_rows], [convert_csv_kicad_export]).
    A byte order mark before the header is kept in the first field by the
    parser ([bom_parser] is an invariant of [process_char]), so no record
    has a [Ref] field ([convert_csv_bom]). *)

From S2P Require Import Prelude Utf8 PyFloat RowMapper CsvWriter CsvReader Converter.
Import Utf8 PyFloat RowMapper CsvWriter CsvReader Converter.

Module Roundtrip.

(** ** The contract *)

Definition not_crlf (c : ascii) : bool := negb (eq_char c CR) && negb (eq_char c LF).

Definition no_crlf (s : string) : bool := string_forall not_crlf s.

(** A cell the reader reads back: UTF-8 text (a Python [str]) without
    line break, of at most [field_limit] code points. *)
Definition cell_ok (c : cell) : bool :=
  no_crlf (field_text c) && (N.of_nat (cp_count (field_text c)) <=? field_limit)%N &&
  utf8_valid (field_text c).

Definition rows_ok (rows : list (list cell)) : bool := forallb (forallb cell_ok) rows.

(** What a writer promises a reader. *)
Class CsvCodec (encode : list (list cell) -> string) (decode : string -> rstream (list string))
  : Prop :=
  codec_roundtrip : forall rows, rows_ok rows = true ->
    decode (encode rows) = stream_app (map (map field_text) rows) RNil.

(** The text of a record before its line terminator. *)
Definition record_text (row : list cell) : string :=
  let rec := join_fields (map (fun c => format_field (field_text c)) row) in
  if (0 <? length row) && String.eqb rec EmptyString then quoted EmptyString else rec.

(** The states in which a field is complete. *)
Definition ends_field (st : pstate) : Prop :=
  st = START_FIELD \/ st = IN_FIELD \/ st = QUOTE_IN_QUOTED_FIELD.

(** The parser holding the field [f] in state [st]. *)
Definition holding (st : pstate) (acc : list string) (f : string) : parser :=
  mk_parser st acc (rev (list_ascii_of_string f)) (N.of_nat (cp_count f)).

(** The text [e] of a field, read from the start of a field, leaves the
    parser holding [f] in a state where the field is complete. *)
Definition field_reads (e f : string) : Prop :=
  exists st, ends_field st /\
    forall acc, process_string (mk_parser START_FIELD acc [] 0) e = Ok (holding st acc f).

(** The first character of a text, if any, is not a line break. *)
Definition starts_inline (e : string) : Prop :=
  forall c r, e = String c r -> is_nl (PC c) = false.

(** A field of a KiCad export: quoted when [q] (KiCad quotes every text
    field), as [csv.writer] writes it otherwise. *)
Definition export_field (q : bool) (f : string) : string :=
  if q then quoted (double_quotes f) else format_field f.

(** A file of such records, each line ended by [term]. *)
Definition export_text (term : string) (lines : list (list (bool * string))) : string :=
  foldr (fun line acc => join_fields (map (fun '(q, f) => export_field q f) line) +:+ term +:+ acc)
    EmptyString lines.

(** The header of a KiCad position file. *)
Definition kicad_header : list string := ["Ref"; "Val"; "Package"; "PosX"; "PosY"; "Rot"; "Side"].

(** The output row for the KiCad row [r] whose rotation converts to [z]:
    its first five cells, the rotation and the constants. *)
Definition kicad_out (r : list string) (z : Z) : list cell :=
  map CStr (take 5 r) ++ [CInt z; CInt 0; CInt 1; CInt 100; CInt 0; CInt 0; CInt 1; CInt 0].

(** The byte order mark U+FEFF, as UTF-8 bytes. *)
Definition bom : string := String "239" (String "187" (String "191" EmptyString)).

(** A record whose first field begins with the byte order mark. *)
Definition bom_fields (fns : list string) : Prop := exists f rest, fns = (bom +:+ f) :: rest.

(** The parser after a leading byte order mark: still in the first
    field, which begins with the mark, or past that field. *)
Definition bom_parser (p : parser) : Prop :=
  (p_state p = IN_FIELD /\ p_fields p = [] /\ exists x, p_field p = x ++ rev (list_ascii_of_string bom)) \/
  bom_fields (p_fields p).

(** Every element of a stream, up to its end or its exception. *)
Fixpoint stream_forall {A : Type} (P : A -> Prop) (s : rstream A) : Prop :=
  match s with
  | RNil | RErr _ => True
  | RCons x rest => P x /\ stream_forall P rest
  end.

(** ** The parser on one field *)

Lemma add_char_ok (p : parser) (c : ascii) :
  (p_field_len p + N.of_nat (cp_width c) <= field_limit)%N ->
  add_char p c = Ok (mk_parser (p_state p) (p_fields p) (c :: p_field p) (p_field_len p + N.of_nat (cp_width c))).
Proof.
  unfold add_char, cp_width. destruct (is_cont (byte c)); simpl; intros H; [by rewrite N.add_0_r|].
  destruct (N.leb_spec field_limit (p_field_len p)); [lia|]. do 2 f_equal. lia.
Qed.

Lemma cp_width_quotechar : cp_width quotechar = 1%nat.
Proof. reflexivity. Qed.

(** One step of the parser in the states a written field goes through. *)
Lemma step_quoted_quote (a : list string) (cs : list ascii) (n : N) :
  process_char (mk_parser IN_QUOTED_FIELD a cs n) (PC quotechar) =
    Ok (mk_parser QUOTE_IN_QUOTED_FIELD a cs n).
Proof. reflexivity. Qed.

Lemma step_doubled_quote (a : list string) (cs : list ascii) (n : N) :
  process_char (mk_parser QUOTE_IN_QUOTED_FIELD a cs n) (PC quotechar) =
    res_map (set_state IN_QUOTED_FIELD) (add_char (mk_parser QUOTE_IN_QUOTED_FIELD a cs n) quotechar).
Proof. reflexivity. Qed.

Lemma step_quoted_other (a : list string) (cs : list ascii) (n : N) (c : ascii) :
  c <> quotechar ->
  process_char (mk_parser IN_QUOTED_FIELD a cs n) (PC c) = add_char (mk_parser IN_QUOTED_FIELD a cs n) c.
Proof.
  intros Hc. unfold process_char. simpl. unfold eq_char.
  destruct (ascii_dec c quote) as [E|]; [by destruct Hc | done].
Qed.

Lemma step_field_ordinary (st : pstate) (a : list string) (cs : list ascii) (n : N) (c : ascii) :
  st = START_FIELD \/ st = IN_FIELD -> special_char c = false ->
  process_char (mk_parser st a cs n) (PC c) = res_map (set_state IN_FIELD) (add_char (mk_parser st a cs n) c).
Proof.
  intros Hst Hc. unfold special_char in Hc.
  destruct (eq_char c delimiter) eqn:E1, (eq_char c quotechar) eqn:E2,
    (eq_char c "010") eqn:E3, (eq_char c "013") eqn:E4; try done.
  unfold process_char, start_field, is_nl, is_eol, is_char. unfold LF, CR, comma, quote.
  unfold delimiter, quotechar in *. rewrite E1, E2, E3, E4.
  destruct Hst as [-> | ->]; simpl; [done|].
  unfold add_char. simpl. by destruct (is_cont (byte c)), (field_limit <=? n)%N.
Qed.

Ltac step_rw := repeat first
  [ rewrite step_quoted_quote | rewrite step_doubled_quote
  | rewrite add_char_ok by (cbn [p_field_len]; rewrite ?cp_width_quotechar; lia)
  | rewrite cp_width_quotechar | progress simpl res_bind | progress simpl res_map
  | progress unfold set_state | progress cbn [p_state p_fields p_field p_field_len] ].

(** Inside quotes every character is kept, a doubled quote as one. *)
Lemma quoted_body (acc : list string) (cs : list ascii) (n : N) (f : string) :
  (n + N.of_nat (cp_count f) <= field_limit)%N ->
  process_string (mk_parser IN_QUOTED_FIELD acc cs n) (double_quotes f) =
    Ok (mk_parser IN_QUOTED_FIELD acc (rev (list_ascii_of_string f) ++ cs)
          (n + N.of_nat (cp_count f))).
Proof.
  revert cs n. induction f as [|c f IH]; intros cs n Hn; cbn [double_quotes cp_count] in *;
    [by rewrite N.add_0_r|].
  unfold eq_char at 1. destruct (ascii_dec c quotechar) as [->|Hq]; cbn [process_string].
  - rewrite cp_width_quotechar in *. step_rw. rewrite IH by lia. simpl. rewrite <- app_assoc. do 2 f_equal. lia.
  - rewrite step_quoted_other by done. step_rw. rewrite IH by lia. simpl.
    rewrite <- app_assoc. do 2 f_equal. lia.
Qed.

(** An unquoted field: ordinary characters are kept. *)
Lemma unquoted_body (st : pstate) (acc : list string) (cs : list ascii) (n : N) (f : string) :
  st = START_FIELD \/ st = IN_FIELD -> f <> EmptyString ->
  string_forall (fun c => negb (special_char c)) f = true ->
  (n + N.of_nat (cp_count f) <= field_limit)%N ->
  process_string (mk_parser st acc cs n) f =
    Ok (mk_parser IN_FIELD acc (rev (list_ascii_of_string f) ++ cs)
          (n + N.of_nat (cp_count f))).
Proof.
  revert st cs n. induction f as [|c f IH]; intros st cs n Hst Hne Hf Hn; [done|].
  cbn [string_forall cp_count] in *. apply andb_prop in Hf as [Hc Hf].
  cbn [process_string]. rewrite step_field_ordinary by (done || by destruct (special_char c)).
  rewrite add_char_ok by (simpl; lia). unfold set_state. simpl.
  destruct f as [|c' f'].
  - simpl. do 2 f_equal. lia.
  - rewrite (IH IN_FIELD); [|auto|discriminate|auto|simpl in *; lia]. simpl.
    do 2 f_equal; [by rewrite <- !app_assoc | lia].
Qed.

(** A quoted field, its quote characters doubled, is read back. *)
Lemma field_proc_quoted (f : string) :
  (N.of_nat (cp_count f) <= field_limit)%N -> field_reads (quoted (double_quotes f)) f.
Proof.
  intros Hf. exists QUOTE_IN_QUOTED_FIELD. split; [right; right; done|]. intros acc.
  unfold quoted, holding. cbn [process_string]. simpl res_bind.
  unfold set_state. cbn [p_fields p_field p_field_len].
  rewrite process_string_app, quoted_body by lia. simpl. by rewrite app_nil_r, N.add_0_l.
Qed.

(** A field written by [format_field] is read back. *)
Lemma field_proc (f : string) :
  (N.of_nat (cp_count f) <= field_limit)%N -> field_reads (format_field f) f.
Proof.
  intros Hf. unfold format_field, needs_quotes.
  destruct (string_forall (fun c => negb (special_char c)) f) eqn:Hq; simpl; [|by apply field_proc_quoted].
  unfold holding. destruct f as [|c f'].
  - exists START_FIELD. split; [left; done | done].
  - exists IN_FIELD. split; [right; left; done|]. intros acc.
    rewrite (unquoted_body START_FIELD) by (auto || discriminate || lia).
    by rewrite app_nil_r, N.add_0_l.
Qed.

Lemma field_proc_export (q : bool) (f : string) :
  (N.of_nat (cp_count f) <= field_limit)%N -> field_reads (export_field q f) f.
Proof. destruct q; [apply field_proc_quoted | apply field_proc]. Qed.

Lemma save_holding (st : pstate) (acc : list string) (f : string) :
  save_field (holding st acc f) = mk_parser st (acc ++ [f]) [] 0.
Proof.
  unfold save_field, holding. simpl. by rewrite rev_involutive, string_of_list_ascii_of_string.
Qed.

(** The delimiter after a complete field saves it and starts the next. *)
Lemma field_end_comma (st : pstate) (acc : list string) (f : string) :
  ends_field st ->
  process_char (holding st acc f) (PC comma) = Ok (mk_parser START_FIELD (acc ++ [f]) [] 0).
Proof.
  intros [-> | [-> | ->]]; unfold process_char; cbn -[save_field holding];
    rewrite save_holding; done.
Qed.

(** The line feed after a complete field saves it and ends the record. *)
Lemma field_end_lf (st : pstate) (acc : list string) (f : string) :
  ends_field st ->
  process_char (holding st acc f) (PC LF) = Ok (mk_parser EAT_CRNL (acc ++ [f]) [] 0).
Proof.
  intros [-> | [-> | ->]]; unfold process_char; cbn -[save_field holding];
    rewrite save_holding; done.
Qed.

(** The fields of a record, joined by the delimiter and ended by a line
    feed, are read back in order. *)
Lemma row_proc_gen (acc : list string) (es fs : list string) :
  Forall2 field_reads es fs -> fs <> [] ->
  process_string (mk_parser START_FIELD acc [] 0) (join_fields es +:+ String LF EmptyString) =
  Ok (mk_parser EAT_CRNL (acc ++ fs) [] 0).
Proof.
  intros Hall. revert acc. induction Hall as [|e f es fs (st & Hst & Hp) Hrest IH]; intros acc Hne; [done|].
  destruct Hrest as [|e' f' es' fs' Hef' Hrest'].
  - simpl. rewrite process_string_app, Hp. simpl. by rewrite field_end_lf.
  - cbn [join_fields]. rewrite <- string_app_assoc, string_app_cons.
    rewrite process_string_app, Hp. simpl res_bind. cbn [process_string].
    unfold delimiter. change (",")%char with comma.
    rewrite field_end_comma by done. simpl res_bind.
    rewrite IH by (done || discriminate). by rewrite <- app_assoc.
Qed.

Lemma row_proc (acc fs : list string) :
  fs <> [] -> Forall (fun f => N.of_nat (cp_count f) <= field_limit)%N fs ->
  process_string (mk_parser START_FIELD acc [] 0)
    (join_fields (map format_field fs) +:+ String LF EmptyString) =
  Ok (mk_parser EAT_CRNL (acc ++ fs) [] 0).
Proof.
  intros Hne Hall. apply row_proc_gen; [|done].
  clear Hne. induction Hall as [|f fs Hf _ IH]; constructor; [by apply field_proc | done].
Qed.

(** ** The parser on one record line *)

Lemma step_record_start (a : list string) (cs : list ascii) (n : N) (c : ascii) :
  is_nl (PC c) = false ->
  process_char (mk_parser START_RECORD a cs n) (PC c) =
    process_char (mk_parser START_FIELD a cs n) (PC c).
Proof. intros Hc. unfold process_char. simpl in *. by rewrite Hc. Qed.

Lemma format_field_first (f : string) (c : ascii) (r : string) :
  format_field f = String c r -> is_nl (PC c) = false.
Proof.
  unfold format_field, needs_quotes.
  destruct (string_forall (fun c => negb (special_char c)) f) eqn:Hq; simpl.
  - intros ->. simpl in Hq. apply andb_prop in Hq as [Hc _].
    unfold special_char in Hc. unfold LF, CR.
    destruct (eq_char c "010"), (eq_char c "013"); rewrite ?orb_true_r in Hc; simpl in *; congruence.
  - by intros [= <- _].
Qed.

Lemma join_fields_first_gen (es : list string) (c : ascii) (r : string) :
  Forall starts_inline es -> join_fields es = String c r -> is_nl (PC c) = false.
Proof.
  intros Hall. destruct Hall as [|e es He _]; [discriminate|].
  destruct e as [|c' r'] eqn:E.
  - destruct es; cbn [join_fields]; [discriminate|]. rewrite string_app_nil_l. by intros [= <- _].
  - destruct es; cbn [join_fields]; [|rewrite string_app_cons]; intros [= <- _]; by apply (He c' r').
Qed.

Lemma join_fields_first (fs : list string) (c : ascii) (r : string) :
  join_fields (map format_field fs) = String c r -> is_nl (PC c) = false.
Proof.
  apply join_fields_first_gen. apply Forall_forall. intros e (f & -> & _)%list_elem_of_fmap.
  intros c' r'. apply format_field_first.
Qed.

(** A line of fields, each read back, is read back as one record. *)
Lemma line_proc_gen (es fs : list string) :
  Forall2 field_reads es fs -> fs <> [] -> Forall starts_inline es -> join_fields es <> EmptyString ->
  process_line parser_reset (join_fields es +:+ String LF EmptyString) = Ok (mk_parser START_RECORD fs [] 0).
Proof.
  intros Hr Hne Hs Hj. destruct (join_fields es) as [|c r] eqn:J; [done|].
  pose proof (join_fields_first_gen es c r Hs J) as Hc.
  unfold process_line, parser_reset. rewrite string_app_cons. cbn [process_string].
  rewrite step_record_start by done.
  change (res_bind (process_char (mk_parser START_FIELD [] [] 0) (PC c))
            (fun p' => process_string p' (r +:+ String LF EmptyString)))
    with (process_string (mk_parser START_FIELD [] [] 0) (String c r +:+ String LF EmptyString)).
  rewrite <- J, (row_proc_gen [] es fs) by done. reflexivity.
Qed.

Lemma join_fields_empty (fs : list string) :
  fs <> [] -> join_fields (map format_field fs) = EmptyString -> fs = [EmptyString].
Proof.
  destruct fs as [|f [|f' fs]]; [done| |]; simpl; intros _.
  - unfold format_field. destruct (needs_quotes f); [done|]. by intros ->.
  - by destruct (format_field f).
Qed.

(** A record line written by the writer reads back as the texts of its
    cells. *)
Lemma record_line (row : list cell) :
  Forall (fun f => N.of_nat (cp_count f) <= field_limit)%N (map field_text row) ->
  process_line parser_reset (record_text row +:+ String LF EmptyString) =
    Ok (mk_parser START_RECORD (map field_text row) [] 0).
Proof.
  intros Hall. unfold record_text.
  rewrite <- (map_map field_text format_field).
  remember (map field_text row) as fs eqn:Hfs.
  destruct row as [|c0 row']; [by subst fs|].
  assert (Hne : fs <> []) by (subst fs; discriminate).
  cbn [length]. simpl andb.
  destruct (String.eqb_spec (join_fields (map format_field fs)) EmptyString) as [E|E].
  - rewrite (join_fields_empty fs Hne E). reflexivity.
  - apply line_proc_gen; [| done | | done].
    + clear -Hall. induction Hall as [|f fs Hf _ IH]; constructor; [by apply field_proc | done].
    + apply Forall_forall. intros e (f & -> & _)%list_elem_of_fmap. intros c r. apply format_field_first.
Qed.

(** ** The text of the written rows *)

Lemma writerow_split (row : list cell) : writerow row = record_text row +:+ lineterminator.
Proof. unfold writerow, record_text. by destruct (_ && _). Qed.

Lemma double_quotes_no_crlf (s : string) : no_crlf s = true -> no_crlf (double_quotes s) = true.
Proof.
  unfold no_crlf. induction s as [|c s IH]; simpl; [done|]. intros [Hc Hs]%andb_prop.
  destruct (eq_char c quotechar); simpl; rewrite ?Hc, IH; done.
Qed.

Lemma quoted_no_crlf (s : string) : no_crlf s = true -> no_crlf (quoted (double_quotes s)) = true.
Proof.
  intros Hs. pose proof (double_quotes_no_crlf s Hs) as Hd.
  unfold quoted, no_crlf in *. simpl. rewrite string_forall_app. by rewrite Hd.
Qed.

Lemma format_field_no_crlf (s : string) : no_crlf s = true -> no_crlf (format_field s) = true.
Proof. intros Hs. unfold format_field. destruct (needs_quotes s); [by apply quoted_no_crlf | done]. Qed.

Lemma join_fields_no_crlf (es : list string) :
  Forall (fun e => no_crlf e = true) es -> no_crlf (join_fields es) = true.
Proof.
  induction 1 as [|e es He _ IH]; [done|]. destruct es as [|e' es']; cbn [join_fields]; [done|].
  cbn [join_fields] in IH. unfold no_crlf in *. rewrite string_forall_app. cbn [string_forall].
  rewrite He, IH. reflexivity.
Qed.

Lemma record_text_no_crlf (row : list cell) :
  Forall (fun f => no_crlf f = true) (map field_text row) -> no_crlf (record_text row) = true.
Proof.
  intros Hall. unfold record_text. destruct (_ && _); [done|].
  rewrite <- (map_map field_text format_field). apply join_fields_no_crlf, List.Forall_map.
  by apply (Forall_impl _ _ _ Hall), format_field_no_crlf.
Qed.

(** Universal newlines turn the CR LF terminator of a line into LF. *)
Lemma translate_line (a b : string) :
  no_crlf a = true ->
  translate_newlines (a +:+ String CR (String LF b)) = a +:+ String LF (translate_newlines b).
Proof.
  unfold no_crlf. induction a as [|c a IH]; [reflexivity|].
  simpl. intros [Hc Ha]%andb_prop. unfold not_crlf in Hc.
  destruct (eq_char c CR); [done|]. rewrite string_app_cons. simpl. by rewrite IH.
Qed.

(** The file iterator yields a line up to its LF. *)
Lemma split_line (a b : string) :
  no_crlf a = true -> split_lines (a +:+ String LF b) = (a +:+ String LF EmptyString) :: split_lines b.
Proof.
  unfold no_crlf. induction a as [|c a IH]; [reflexivity|].
  simpl. intros [Hc Ha]%andb_prop. unfold not_crlf in Hc.
  destruct (eq_char c LF); [by rewrite andb_false_r in Hc|].
  rewrite !string_app_cons. simpl. by rewrite IH.
Qed.

Lemma cell_ok_parts (row : list cell) :
  forallb cell_ok row = true ->
  Forall (fun f => no_crlf f = true) (map field_text row) /\
  Forall (fun f => N.of_nat (cp_count f) <= field_limit)%N (map field_text row) /\
  Forall (fun f => utf8_valid f = true) (map field_text row).
Proof.
  induction row as [|c row IH]; simpl; [done|]. intros [Hc Hr]%andb_prop.
  unfold cell_ok in Hc. apply andb_prop in Hc as [[H1 H2%N.leb_le]%andb_prop H3].
  destruct (IH Hr) as (? & ? & ?). split_and!; by constructor.
Qed.

(** The records of written rows, then those of the text that follows. *)
Lemma read_writerows_app (rows : list (list cell)) (t : string) (eof : option py_exc) :
  rows_ok rows = true ->
  read_records parser_reset (split_lines (translate_newlines (writerows rows +:+ t))) eof =
    stream_app (map (map field_text) rows) (read_records parser_reset (split_lines (translate_newlines t)) eof).
Proof.
  induction rows as [|r rows IH]; simpl; [by rewrite string_app_nil_l|]. intros [Hr Hrs]%andb_prop.
  destruct (cell_ok_parts r Hr) as (Hnl & Hlen & _).
  rewrite <- string_app_assoc, writerow_split, <- string_app_assoc. unfold lineterminator.
  rewrite string_app_cons, string_app_cons, string_app_nil_l.
  rewrite translate_line, split_line by (by apply record_text_no_crlf).
  simpl. rewrite record_line by done. simpl. by rewrite IH.
Qed.

Lemma read_writerows (rows : list (list cell)) :
  rows_ok rows = true ->
  read_records parser_reset (split_lines (translate_newlines (writerows rows))) None =
    stream_app (map (map field_text) rows) RNil.
Proof. intros Hok. by rewrite <- (string_app_nil_r (writerows rows)), read_writerows_app. Qed.

(** ** The written text is UTF-8 *)

Lemma double_quotes_app (a b : string) : double_quotes (a +:+ b) = double_quotes a +:+ double_quotes b.
Proof.
  induction a as [|c a IH]; rewrite ?string_app_cons; simpl; [done|].
  destruct (eq_char c quotechar); by rewrite IH, ?string_app_cons.
Qed.

Lemma double_quotes_id (s : string) :
  string_forall (fun c => negb (eq_char c quotechar)) s = true -> double_quotes s = s.
Proof.
  induction s as [|c s IH]; simpl; [done|]. intros [Hc Hs]%andb_prop.
  apply negb_true_iff in Hc. by rewrite Hc, IH.
Qed.

Lemma string_cons_app (c : ascii) (s : string) : String c s = String c EmptyString +:+ s.
Proof. reflexivity. Qed.

Lemma utf8_valid_char (c : ascii) : (code c < 128)%nat -> utf8_valid (String c EmptyString) = true.
Proof. intros H. apply utf8_valid_ascii. simpl. by rewrite (proj2 (Nat.ltb_lt _ _) H). Qed.

(** Doubling the quote characters keeps a text UTF-8: a quote character
    is a code point of its own. *)
Lemma double_quotes_valid (s : string) : utf8_valid s = true -> utf8_valid (double_quotes s) = true.
Proof.
  intros (cps & -> & Hs)%utf8_valid_encoded. induction cps as [|cp cps IH]; [done|].
  simpl in Hs |- *. apply andb_prop in Hs as [Hc Hs]. rewrite double_quotes_app.
  apply utf8_valid_app; [|by apply IH].
  destruct (Z.ltb_spec cp 0x80) as [Hlo|Hhi].
  - assert (Hb : (0 <= cp < 256)%Z) by (unfold scalar, in_range in Hc; zhyps; lia).
    unfold encode_cp. rewrite (proj2 (Z.ltb_lt _ _) Hlo). simpl.
    assert (Hcode : (code (byte_char cp) < 128)%nat).
    { pose proof (byte_byte_char cp Hb) as E. unfold byte, code in *. lia. }
    destruct (eq_char (byte_char cp) quotechar); [by vm_compute | by apply utf8_valid_char].
  - rewrite double_quotes_id; [by apply utf8_valid_encode_cp|].
    apply (string_forall_impl (fun c => 0x80 <=? byte c)%Z); [|by apply encode_cp_high].
    intros c Hc'%Z.leb_le. unfold eq_char. destruct (ascii_dec c quotechar) as [->|]; [|done].
    change (byte quotechar) with 34%Z in Hc'. lia.
Qed.

Lemma quoted_valid (f : string) : utf8_valid f = true -> utf8_valid (quoted (double_quotes f)) = true.
Proof.
  intros Hf. unfold quoted. rewrite string_cons_app.
  apply utf8_valid_app; [by vm_compute|]. apply utf8_valid_app; [by apply double_quotes_valid | by vm_compute].
Qed.

Lemma format_field_valid (f : string) : utf8_valid f = true -> utf8_valid (format_field f) = true.
Proof. intros Hf. unfold format_field. destruct (needs_quotes f); [by apply quoted_valid | done]. Qed.

Lemma join_fields_valid (es : list string) :
  Forall (fun e => utf8_valid e = true) es -> utf8_valid (join_fields es) = true.
Proof.
  induction 1 as [|e es He _ IH]; [done|]. destruct es as [|e' es']; cbn [join_fields]; [done|].
  apply utf8_valid_app; [done|]. rewrite string_cons_app. apply utf8_valid_app; [by vm_compute | done].
Qed.

Lemma writerows_valid (rows : list (list cell)) : rows_ok rows = true -> utf8_valid (writerows rows) = true.
Proof.
  induction rows as [|r rows IH]; simpl; [done|]. intros [Hr Hrs]%andb_prop.
  destruct (cell_ok_parts r Hr) as (_ & _ & Hv).
  apply utf8_valid_app; [|by apply IH]. rewrite writerow_split.
  apply utf8_valid_app; [|by vm_compute]. unfold record_text. destruct (_ && _); [by vm_compute|].
  rewrite <- (map_map field_text format_field). apply join_fields_valid, List.Forall_map.
  by apply (Forall_impl _ _ _ Hv), format_field_valid.
Qed.

(** The excel writer and reader satisfy the contract. *)
#[export] Instance excel_codec : CsvCodec writerows csv_reader.
Proof. intros rows Hok. rewrite csv_reader_valid by (by apply writerows_valid). by apply read_writerows. Qed.

(** C4. The text of rows written by [writerows] reads back through
    [csv.reader] (universal newlines and the parser state machine) as one
    record per row holding the texts of its cells, in order, whenever no
    cell holds a line break or exceeds the field size limit. *)
Theorem writerows_read_back (rows : list (list cell)) :
  rows_ok rows = true -> csv_reader (writerows rows) = stream_app (map (map field_text) rows) RNil.
Proof. apply codec_roundtrip. Qed.

Lemma writerows_read_back_witness :
  rows_ok [[CStr "a,b"; CInt (-3); CNone]; [CStr ("say " +:+ String quotechar EmptyString)]] = true /\
  csv_reader (writerows [[CStr "a,b"; CInt (-3); CNone]; [CStr ("say " +:+ String quotechar EmptyString)]]) =
    stream_app [["a,b"; "-3"; ""]; ["say " +:+ String quotechar EmptyString]] RNil.
Proof. split; [vm_compute; reflexivity | apply writerows_read_back; vm_compute; reflexivity]. Defined.

(** ** The output file, read back *)

Lemma writerows_app (a b : list (list cell)) : writerows (a ++ b) = writerows a +:+ writerows b.
Proof.
  induction a as [|r a IH]; simpl; [by rewrite string_app_nil_l|]. by rewrite IH, string_app_assoc.
Qed.

Lemma rows_ok_app (a b : list (list cell)) : rows_ok (a ++ b) = rows_ok a && rows_ok b.
Proof. apply forallb_app. Qed.

Lemma rows_ok_preamble : rows_ok preamble = true.
Proof. vm_compute. reflexivity. Qed.

(** ** The field size limit *)

Lemma ordinary_not_nl (c : ascii) : special_char c = false -> is_nl (PC c) = false.
Proof.
  unfold special_char, is_nl, LF, CR. intros H.
  apply orb_false_iff in H as [H H4]. apply orb_false_iff in H as [_ H3]. by rewrite H3, H4.
Qed.

(** Universal newlines leave a prefix without line breaks unchanged. *)
Lemma translate_prefix (a b : string) :
  no_crlf a = true -> translate_newlines (a +:+ b) = a +:+ translate_newlines b.
Proof.
  unfold no_crlf. induction a as [|c a IH]; [done|].
  simpl. intros [Hc Ha]%andb_prop. unfold not_crlf in Hc.
  destruct (eq_char c CR); [done|]. rewrite !string_app_cons. simpl. by rewrite IH.
Qed.

(** The first line read starts with a prefix without LF. *)
Lemma split_prefix (a b : string) :
  no_crlf a = true -> a <> EmptyString -> exists l ls, split_lines (a +:+ b) = (a +:+ l) :: ls.
Proof.
  unfold no_crlf. induction a as [|c a IH]; [done|]. simpl. intros [Hc Ha]%andb_prop _.
  unfold not_crlf in Hc. apply andb_prop in Hc as [_ Hlf]. destruct (eq_char c LF); [done|].
  destruct a as [|c' a'].
  - rewrite ?string_app_nil_l. destruct (split_lines b) as [|l ls];
      [exists EmptyString, [] | exists l, ls]; by rewrite string_app_cons, string_app_nil_l.
  - destruct (IH Ha) as (l & ls & ->); [discriminate|]. exists l, ls. by rewrite !string_app_cons.
Qed.

(** The parser: after 131072 code points of an unquoted field, the lead
    byte of the next one raises. *)
Lemma process_field_limit (f : string) (c : ascii) (t : string) :
  cp_count f = N.to_nat field_limit -> cp_width c = 1%nat ->
  string_forall (fun d => negb (special_char d)) (f +:+ String c EmptyString) = true ->
  process_string parser_reset (f +:+ String c t) = Raise CsvError.
Proof.
  intros Hlen Hw Hf. rewrite string_forall_app in Hf. apply andb_prop in Hf as [Hf Hc].
  simpl in Hc. rewrite andb_true_r in Hc. apply negb_true_iff in Hc.
  destruct f as [|d f']; [discriminate|].
  rewrite process_string_app. cbn [process_string]. unfold parser_reset.
  rewrite step_record_start by (apply ordinary_not_nl; simpl in Hf; by destruct (special_char d)).
  change (res_bind (process_char (mk_parser START_FIELD [] [] 0) (PC d)) (fun p' => process_string p' f'))
    with (process_string (mk_parser START_FIELD [] [] 0) (String d f')).
  assert (Hl : (0 + N.of_nat (cp_count (String d f')))%N = field_limit) by (rewrite Hlen; lia).
  rewrite unquoted_body, Hl by (auto || discriminate || lia). cbn [res_bind process_string].
  rewrite step_field_ordinary by auto. unfold add_char. cbn [p_field_len].
  unfold cp_width in Hw. destruct (is_cont (byte c)); [done|]. by rewrite N.leb_refl.
Qed.

(** C26. The field size limit is exact: a UTF-8 file whose first field is
    unquoted and longer than 131072 code points makes the reader raise
    [_csv.Error] (and [DictReader] with it), while C25 shows that no UTF-8
    file of at most 131072 code points does. *)
Theorem csv_reader_field_limit (f : string) (c : ascii) (r : string) :
  cp_count f = N.to_nat field_limit -> cp_width c = 1%nat ->
  string_forall (fun d => negb (special_char d)) (f +:+ String c EmptyString) = true ->
  utf8_valid (f +:+ String c r) = true ->
  csv_reader (f +:+ String c r) = RErr CsvError /\ dict_reader (f +:+ String c r) = Raise CsvError.
Proof.
  intros Hlen Hw Hf Hv. assert (Ha : no_crlf (f +:+ String c EmptyString) = true).
  { revert Hf. apply string_forall_impl. intros d.
    unfold special_char, not_crlf, LF, CR. destruct (eq_char d "010"), (eq_char d "013");
      by rewrite ?orb_true_r, ?andb_false_r. }
  assert (csv_reader (f +:+ String c r) = RErr CsvError) as E; [|unfold dict_reader; by rewrite E].
  assert (Eq : f +:+ String c r = (f +:+ String c EmptyString) +:+ r)
    by (by rewrite <- string_app_assoc, string_app_cons, string_app_nil_l).
  rewrite csv_reader_valid by done. rewrite Eq, translate_prefix by done.
  destruct (split_prefix (f +:+ String c EmptyString) (translate_newlines r)) as (l & ls & ->);
    [done | by destruct f|].
  simpl. unfold process_line. rewrite <- string_app_assoc, string_app_cons, string_app_nil_l.
  by rewrite process_field_limit.
Qed.

Lemma repeat_a (n : nat) :
  cp_count (string_of_list_ascii (repeat "a"%char n)) = n /\
  string_forall (fun d => negb (special_char d) && (code d <? 128)) (string_of_list_ascii (repeat "a"%char n)) = true.
Proof. induction n as [|n [IH1 IH2]]; simpl; [done|]. by rewrite IH1, IH2. Qed.

Lemma csv_reader_field_limit_witness :
  let f := string_of_list_ascii (repeat "a"%char (N.to_nat field_limit)) in
  csv_reader (f +:+ String "b" "c") = RErr CsvError /\ dict_reader (f +:+ String "b" "c") = Raise CsvError.
Proof.
  intros f. destruct (repeat_a (N.to_nat field_limit)) as [H1 H2].
  apply csv_reader_field_limit; subst f; [exact H1 | reflexivity | |].
  - rewrite string_forall_app. apply andb_true_intro. split; [|reflexivity].
    revert H2. apply string_forall_impl. intros d [? _]%andb_prop. done.
  - apply utf8_valid_app; [|reflexivity]. apply utf8_valid_ascii.
    revert H2. apply string_forall_impl. intros d [_ ?]%andb_prop. done.
Defined.

(** C19. A blank line (CR LF) after the header and some records of a
    file is skipped: [DictReader] reads the same dictionaries as from the
    file without it, so the converter writes no row for it, while the spec
    says one output row per input line. *)
Theorem blank_line_skipped (h : list cell) (a b : list (list cell)) :
  rows_ok (h :: a) = true -> utf8_valid (writerows b) = true ->
  dict_reader (writerows (h :: a) +:+ crlf +:+ writerows b) = dict_reader (writerows (h :: a ++ b)).
Proof.
  intros Hok Hb. pose proof (writerows_valid _ Hok) as Ha. unfold dict_reader.
  rewrite (app_comm_cons a b h), writerows_app.
  rewrite (csv_reader_valid (_ +:+ crlf +:+ _))
    by (apply utf8_valid_app; [done | apply utf8_valid_app; [by vm_compute | done]]).
  rewrite csv_reader_valid by (by apply utf8_valid_app).
  rewrite !read_writerows_app by done.
  unfold crlf, nl. rewrite !string_app_cons, string_app_nil_l. simpl.
  by rewrite !dict_rows_stream_app.
Qed.

Lemma blank_line_skipped_witness :
  rows_ok [[CStr "Ref"; CStr "Rot"]; [CStr "R1"; CStr "90"]] = true /\
  utf8_valid (writerows [[CStr "C1"; CStr "45"]]) = true /\
  dict_reader (writerows [[CStr "Ref"; CStr "Rot"]; [CStr "R1"; CStr "90"]] +:+ crlf +:+
               writerows [[CStr "C1"; CStr "45"]]) =
  dict_reader (writerows [[CStr "Ref"; CStr "Rot"]; [CStr "R1"; CStr "90"]; [CStr "C1"; CStr "45"]]).
Proof.
  split; [vm_compute; reflexivity|]. split; [vm_compute; reflexivity|].
  apply (blank_line_skipped [CStr "Ref"; CStr "Rot"] [[CStr "R1"; CStr "90"]] [[CStr "C1"; CStr "45"]]);
    vm_compute; reflexivity.
Defined.

Section Client.
Context (decode : string -> rstream (list string)) `{!CsvCodec writerows decode}.

(** C3. Against any reader that honours the [CsvCodec] contract of the
    writer: when every record converts and no converted cell holds a line
    break or exceeds the field limit, the output file of a successful
    conversion reads back as the twelve preamble records followed by the
    texts of the converted rows, one record per input record, in order. *)
Theorem output_reads_back (fs : fsys) (inp out text : string) (fns : list string)
    (recs : list record) (outs : list (list cell)) :
  fs !! inp = Some (FFile text) -> inp <> out -> (exists fs1, open_write fs out = Ok fs1) ->
  dict_reader text = Ok (Some (fns, stream_app recs RNil)) ->
  Forall2 (fun r o => convert_row r = Ok o) recs outs -> rows_ok outs = true ->
  exists t, (convert_csv_to_neoden fs inp out).1 !! out = Some (FFile t) /\
    decode t = stream_app (map (map field_text) (preamble ++ outs)) RNil.
Proof.
  intros Hin Hne Hw Hrd Hrows Hok. rewrite (convert_opened fs inp out text Hin Hw). simpl.
  destruct (String.eqb_spec inp out); [done|]. rewrite Hrd, (convert_loop_app _ _ _ Hrows). simpl.
  unfold close_output. eexists. split; [by rewrite lookup_insert_eq|].
  rewrite string_app_nil_r. unfold preamble_text. rewrite <- writerows_app.
  apply codec_roundtrip. by rewrite rows_ok_app, rows_ok_preamble, Hok.
Qed.

End Client.

Lemma output_reads_back_witness :
  exists t, (convert_csv_to_neoden kicad_fs "in.csv" "out.csv").1 !! "out.csv" = Some (FFile t) /\
    csv_reader t = stream_app (map (map field_text)
      (preamble ++ [[CStr "R1"; CStr "10k"; CStr "0402"; CStr "12.5"; CStr "34.2"; CInt 90;
                     CInt 0; CInt 1; CInt 100; CInt 0; CInt 0; CInt 1; CInt 0]])) RNil.
Proof.
  apply (output_reads_back csv_reader kicad_fs "in.csv" "out.csv" kicad_text
           ["Ref"; "Val"; "Package"; "PosX"; "PosY"; "Rot"; "Side"]
           [make_record ["Ref"; "Val"; "Package"; "PosX"; "PosY"; "Rot"; "Side"]
                        ["R1"; "10k"; "0402"; "12.5"; "34.2"; "90"; "Top"]]).
  - reflexivity.
  - discriminate.
  - eexists. reflexivity.
  - vm_compute. reflexivity.
  - constructor; [vm_compute; reflexivity | constructor].
  - vm_compute. reflexivity.
Defined.

(** ** A KiCad file, end to end *)


Lemma kicad_header_nodup : NoDup kicad_header.
Proof. apply (bool_decide_unpack _). vm_compute. reflexivity. Qed.

(** The record of a seven-cell KiCad row holds its cells under the header
    names. *)
Lemma kicad_field (r : list string) (i : nat) (k : string) :
  length r = 7%nat -> kicad_header !! i = Some k -> field (make_record kicad_header r) k = CStr (r !!! i).
Proof.
  intros Hl Hk. unfold field. rewrite (make_record_present _ _ i k kicad_header_nodup Hk).
  assert (Hi : (i < length r)%nat) by (rewrite Hl; apply lookup_lt_Some in Hk; done).
  destruct (lookup_lt_is_Some_2 r i Hi) as [v Hv]. by rewrite Hv, (list_lookup_total_correct _ _ _ Hv).
Qed.

Lemma kicad_row_converts (r : list string) (z : Z) :
  length r = 7%nat -> rotation_of (CStr (r !!! 5%nat)) = Ok z ->
  convert_row (make_record kicad_header r) = Ok (kicad_out r z).
Proof.
  intros Hl Hz. rewrite convert_row_rotation, (kicad_field r 5 "Rot"), Hz by done. simpl.
  unfold out_cells. rewrite (kicad_field r 0 "Ref"), (kicad_field r 1 "Val"), (kicad_field r 2 "Package"),
    (kicad_field r 3 "PosX"), (kicad_field r 4 "PosY") by done.
  do 8 (destruct r as [|? r]; try discriminate). reflexivity.
Qed.

Lemma kicad_rows_convert (rows : list (list string)) (zs : list Z) :
  Forall2 (fun r z => length r = 7%nat /\ rotation_of (CStr (r !!! 5%nat)) = Ok z) rows zs ->
  filter (fun r => r <> []) rows = rows /\
  Forall2 (fun rc o => convert_row rc = Ok o) (map (make_record kicad_header) rows) (zip_with kicad_out rows zs).
Proof.
  induction 1 as [|r z rows zs [Hl Hz] _ [IH1 IH2]]; [done|]. rewrite filter_cons, decide_True, IH1
    by (intros ->; discriminate). split; [done|]. constructor; [by apply kicad_row_converts | done].
Qed.



(** ** Files of other CSV writers *)

Lemma export_text_cons (term : string) (line : list (bool * string)) (lines : list (list (bool * string))) :
  export_text term (line :: lines) =
    join_fields (map (fun '(q, f) => export_field q f) line) +:+ term +:+ export_text term lines.
Proof. reflexivity. Qed.

(** Each field of a line, quoted or not, is read back, starts inline,
    holds no line break and is UTF-8. *)
Lemma export_parts (line : list (bool * string)) :
  forallb cell_ok (map (fun qf => CStr qf.2) line) = true ->
  let es := map (fun '(q, f) => export_field q f) line in
  Forall2 field_reads es (map snd line) /\ Forall starts_inline es /\
  Forall (fun e => no_crlf e = true) es /\ Forall (fun e => utf8_valid e = true) es.
Proof.
  induction line as [|[q f] line IH]; simpl; [done|]. intros [Hc Hl]%andb_prop.
  destruct (IH Hl) as (H1 & H2 & H3 & H4).
  unfold cell_ok in Hc. simpl in Hc. apply andb_prop in Hc as [[Hn Hlen%N.leb_le]%andb_prop Hv].
  split_and!; constructor; try done.
  - by apply field_proc_export.
  - intros c r. destruct q; [by intros [= <- _] | apply format_field_first].
  - destruct q; [by apply quoted_no_crlf | by apply format_field_no_crlf].
  - destruct q; [by apply quoted_valid | by apply format_field_valid].
Qed.

Lemma export_join_nonempty (line : list (bool * string)) :
  line <> [] -> line <> [(false, EmptyString)] ->
  join_fields (map (fun '(q, f) => export_field q f) line) <> EmptyString.
Proof.
  destruct line as [|[q f] [|qf line]]; [done| |]; intros _ Hne; cbn [map join_fields].
  - destruct q; [discriminate|]. intros E. apply Hne.
    by pose proof (join_fields_empty [f] ltac:(done) E) as [= ->].
  - destruct (export_field q f); rewrite ?string_app_nil_l, ?string_app_cons; discriminate.
Qed.

(** Universal newlines keep a line feed. *)
Lemma translate_lf (a b : string) :
  no_crlf a = true -> translate_newlines (a +:+ String LF b) = a +:+ String LF (translate_newlines b).
Proof.
  unfold no_crlf. induction a as [|c a IH]; [reflexivity|].
  simpl. intros [Hc Ha]%andb_prop. unfold not_crlf in Hc.
  destruct (eq_char c CR); [done|]. rewrite string_app_cons. simpl. by rewrite IH.
Qed.

(** A line ended by CR LF or by LF is one line of the file iterator. *)
Lemma terminated_line (term a b : string) :
  term = lineterminator \/ term = String LF EmptyString -> no_crlf a = true ->
  split_lines (translate_newlines (a +:+ term +:+ b)) = (a +:+ String LF EmptyString) :: split_lines (translate_newlines b).
Proof.
  intros [-> | ->] Ha; unfold lineterminator; rewrite ?string_app_cons, ?string_app_nil_l;
    [rewrite translate_line | rewrite translate_lf]; by rewrite ?split_line.
Qed.

(** The records of a file written in any quoting style with CR LF or LF
    line ends, then those of the text that follows. *)
Lemma read_export_app (term : string) (lines : list (list (bool * string))) (t : string) (eof : option py_exc) :
  term = lineterminator \/ term = String LF EmptyString ->
  Forall (fun line => line <> [] /\ line <> [(false, EmptyString)]) lines ->
  rows_ok (map (map (fun qf => CStr qf.2)) lines) = true ->
  read_records parser_reset (split_lines (translate_newlines (export_text term lines +:+ t))) eof =
    stream_app (map (map snd) lines) (read_records parser_reset (split_lines (translate_newlines t)) eof).
Proof.
  intros Hterm Hne. induction Hne as [|line lines [H1 H2] _ IH]; [by rewrite string_app_nil_l|].
  unfold rows_ok. cbn [map forallb]. intros [Hl Hls]%andb_prop.
  destruct (export_parts line Hl) as (Hr & Hs & Hn & _).
  rewrite export_text_cons, <- !string_app_assoc, terminated_line by (done || by apply join_fields_no_crlf).
  simpl. rewrite (line_proc_gen _ (map snd line)); [| done | by destruct line | done | by apply export_join_nonempty].
  simpl. by rewrite IH.
Qed.

Lemma export_text_valid (term : string) (lines : list (list (bool * string))) :
  term = lineterminator \/ term = String LF EmptyString ->
  rows_ok (map (map (fun qf => CStr qf.2)) lines) = true -> utf8_valid (export_text term lines) = true.
Proof.
  intros Hterm. induction lines as [|line lines IH]; [done|].
  unfold rows_ok. cbn [map forallb]. intros [Hl Hls]%andb_prop.
  destruct (export_parts line Hl) as (_ & _ & _ & Hv). rewrite export_text_cons.
  apply utf8_valid_app; [by apply join_fields_valid|].
  apply utf8_valid_app; [by destruct Hterm as [-> | ->]; vm_compute | by apply IH].
Qed.

Lemma csv_reader_export (term : string) (lines : list (list (bool * string))) :
  term = lineterminator \/ term = String LF EmptyString ->
  Forall (fun line => line <> [] /\ line <> [(false, EmptyString)]) lines ->
  rows_ok (map (map (fun qf => CStr qf.2)) lines) = true ->
  csv_reader (export_text term lines) = stream_app (map (map snd) lines) RNil.
Proof.
  intros Hterm Hne Hok. rewrite csv_reader_valid by (by apply export_text_valid).
  rewrite <- (string_app_nil_r (export_text term lines)). by rewrite read_export_app.
Qed.

Lemma kicad_lines_shape (lines : list (list (bool * string))) (zs : list Z) :
  Forall2 (fun r z => length r = 7%nat /\ rotation_of (CStr (r !!! 5%nat)) = Ok z) (map (map snd) lines) zs ->
  Forall (fun line => line <> [] /\ line <> [(false, EmptyString)]) lines.
Proof.
  revert zs. induction lines as [|l lines IH]; intros zs H; inversion H as [|r z ? ? [Hl _] Hrest]; subst;
    constructor; [|by apply (IH _ Hrest)].
  rewrite length_map in Hl. destruct l as [|? [|? ?]]; simpl in Hl; [lia | lia | split; discriminate].
Qed.

(** C30. A KiCad position file written by any CSV writer converts: the
    header [Ref,Val,Package,PosX,PosY,Rot,Side] and seven-cell rows, each
    field quoted or not (KiCad quotes its text fields), every line ended
    by CR LF or by LF, give the preamble followed by one converted row per
    input row, in order, and the success message. *)
Theorem convert_csv_kicad_export (fs : fsys) (inp out term : string) (hq : list bool)
    (lines : list (list (bool * string))) (zs : list Z) :
  fs !! inp = Some (FFile (export_text term (zip hq kicad_header :: lines))) -> inp <> out ->
  (exists fs1, open_write fs out = Ok fs1) ->
  term = lineterminator \/ term = String LF EmptyString -> length hq = 7%nat ->
  rows_ok (map (map (fun qf => CStr qf.2)) lines) = true ->
  Forall2 (fun r z => length r = 7%nat /\ rotation_of (CStr (r !!! 5%nat)) = Ok z) (map (map snd) lines) zs ->
  convert_csv_to_neoden fs inp out =
    (<[out := FFile (preamble_text +:+ writerows (zip_with kicad_out (map (map snd) lines) zs))]> fs,
     [MsgSuccess inp out]).
Proof.
  intros Hin Hne Hw Hterm Hq Hok Hrows. rewrite (convert_opened fs inp out _ Hin Hw).
  destruct (String.eqb_spec inp out); [done|]. cbv zeta.
  assert (Hh : map snd (zip hq kicad_header) = kicad_header) by (apply snd_zip; rewrite Hq; done).
  assert (Hhd : map (fun qf => CStr qf.2) (zip hq kicad_header) = map CStr kicad_header)
    by (rewrite <- Hh at 2; rewrite map_map; reflexivity).
  destruct (kicad_rows_convert _ zs Hrows) as [Hf Hconv].
  unfold dict_reader. rewrite csv_reader_export; [| done | | ].
  - cbn [map stream_app]. rewrite Hh.
    rewrite (dict_rows_stream_app kicad_header _ RNil), Hf, (convert_loop_app _ _ _ Hconv). simpl.
    unfold close_output. by rewrite insert_insert_eq, string_app_nil_r.
  - constructor; [|by apply (kicad_lines_shape _ zs)].
    split; intros E; apply (f_equal (map snd)) in E; rewrite Hh in E; discriminate.
  - unfold rows_ok in *. cbn [map forallb]. rewrite Hhd, Hok, andb_true_r. vm_compute. reflexivity.
Qed.

Lemma convert_csv_kicad_export_witness :
  convert_csv_to_neoden
    (<["in.csv" := FFile (export_text (String LF EmptyString)
        (zip (replicate 7 false) kicad_header ::
         [[(true, "R1"); (true, "10k"); (true, "R_0402"); (false, "12.5"); (false, "-34.2"); (false, "180.0");
           (false, "top")]]))]> ∅)
    "in.csv" "out.csv" =
  (<["out.csv" := FFile (preamble_text +:+
        writerows [kicad_out ["R1"; "10k"; "R_0402"; "12.5"; "-34.2"; "180.0"; "top"] 180])]>
     (<["in.csv" := FFile (export_text (String LF EmptyString)
        (zip (replicate 7 false) kicad_header ::
         [[(true, "R1"); (true, "10k"); (true, "R_0402"); (false, "12.5"); (false, "-34.2"); (false, "180.0");
           (false, "top")]]))]> ∅),
   [MsgSuccess "in.csv" "out.csv"]).
Proof.
  apply (convert_csv_kicad_export _ "in.csv" "out.csv" (String LF EmptyString) (replicate 7 false)
           [[(true, "R1"); (true, "10k"); (true, "R_0402"); (false, "12.5"); (false, "-34.2"); (false, "180.0");
             (false, "top")]] [180]%Z);
    [reflexivity | discriminate | eexists; reflexivity | right; reflexivity | reflexivity
    | vm_compute; reflexivity |].
  constructor; [split; [reflexivity | vm_compute; reflexivity] | constructor].
Defined.

(** ** A leading byte order mark *)

(** A step of the parser only appends to the record read so far. *)
Lemma process_char_fields (p : parser) (c : pchar) (p' : parser) :
  process_char p c = Ok p' -> exists l, p_fields p' = p_fields p ++ l.
Proof.
  unfold process_char, start_field, add_char, save_field, set_state, res_map, res_bind.
  repeat case_match; intros; simplify_eq/=; eexists; (reflexivity || by rewrite app_nil_r).
Qed.

Lemma bom_fields_app (fns l : list string) : bom_fields fns -> bom_fields (fns ++ l).
Proof. intros (f & rest & ->). by exists f, (rest ++ l). Qed.

Lemma string_of_list_ascii_app (l1 l2 : list ascii) :
  string_of_list_ascii (l1 ++ l2) = string_of_list_ascii l1 +:+ string_of_list_ascii l2.
Proof. induction l1 as [|c l1 IH]; simpl; [by rewrite string_app_nil_l | by rewrite string_app_cons, IH]. Qed.

Lemma bom_save (p : parser) : bom_parser p -> bom_fields (p_fields (save_field p)).
Proof.
  intros [(_ & Hf & x & Hx) | H]; unfold save_field; simpl; [|by apply bom_fields_app].
  rewrite Hf, Hx, rev_app_distr, rev_involutive, string_of_list_ascii_app, string_of_list_ascii_of_string.
  by exists (string_of_list_ascii (rev x)), [].
Qed.

Lemma bom_char (p : parser) (c : pchar) (p' : parser) :
  bom_parser p -> process_char p c = Ok p' -> bom_parser p'.
Proof.
  intros [(Hs & Hf & x & Hx) | H] Hp;
    [|right; destruct (process_char_fields _ _ _ Hp) as [l ->]; by apply bom_fields_app].
  assert (Hb : bom_parser p) by (left; eauto).
  destruct p as [st fl fd n]; simpl in *; subst. unfold process_char in Hp. simpl in Hp.
  destruct (is_nl c || is_eol c); [injection Hp as <-; right; exact (bom_save _ Hb)|].
  destruct (is_char c comma); [injection Hp as <-; right; exact (bom_save _ Hb)|].
  destruct c as [d|]; [|injection Hp as <-; by left; eauto].
  unfold add_char in Hp. repeat case_match; simplify_eq; left; simpl; split_and!; eauto; by exists (d :: x).
Qed.

Lemma bom_string (p : parser) (s : string) (p' : parser) :
  bom_parser p -> process_string p s = Ok p' -> bom_parser p'.
Proof.
  revert p. induction s as [|c s IH]; intros p Hp; simpl; [by intros [= <-]|].
  destruct (process_char p (PC c)) eqn:E; simpl; [|discriminate]. apply IH. by apply (bom_char p (PC c)).
Qed.

Lemma bom_line (p : parser) (l : string) (p' : parser) :
  bom_parser p -> process_line p l = Ok p' -> bom_parser p'.
Proof.
  intros Hp. unfold process_line. destruct (process_string p l) eqn:E; simpl; [|discriminate].
  apply bom_char. by apply (bom_string p l).
Qed.

(** The first record read after the mark begins with it. *)
Lemma bom_records (p : parser) (lines : list string) (fns : list string) (rest : rstream (list string)) :
  bom_parser p -> read_records p lines None = RCons fns rest -> bom_fields fns.
Proof.
  revert p. induction lines as [|l lines IH]; intros p Hp; simpl.
  - destruct (_ || _); [intros [= <- _]; by apply bom_save | discriminate].
  - destruct (process_line p l) as [p'|e] eqn:E; [|discriminate]. pose proof (bom_line p l p' Hp E) as Hp'.
    case_bool_decide as Hs; [intros [= <- _] | by apply IH].
    destruct Hp' as [(Hs' & _) | H]; [congruence | done].
Qed.

(** The records read from a first line depend only on the parser after
    that line. *)
Lemma read_records_cons_eq (p q : parser) (l l' : string) (lines : list string) (eof : option py_exc) :
  process_line p l = process_line q l' -> read_records p (l :: lines) eof = read_records q (l' :: lines) eof.
Proof. intros E. simpl. by rewrite E. Qed.

Lemma csv_reader_bom (t : string) (fns : list string) (rest : rstream (list string)) :
  utf8_valid t = true -> csv_reader (bom +:+ t) = RCons fns rest -> bom_fields fns.
Proof.
  intros Ht. rewrite csv_reader_valid by (apply utf8_valid_app; [by vm_compute | done]).
  rewrite translate_prefix by (by vm_compute).
  destruct (split_prefix bom (translate_newlines t)) as (l & ls & ->); [by vm_compute | discriminate |].
  rewrite (read_records_cons_eq parser_reset (mk_parser IN_FIELD [] (rev (list_ascii_of_string bom)) 1) _ l)
    by (unfold process_line; rewrite process_string_app; reflexivity).
  apply bom_records. left. split_and!; [done | done | by exists []].
Qed.

(** No record of [DictReader] has a field not named in its header. *)
Lemma dict_rows_absent (k : string) (fns : list string) (rs : rstream (list string)) :
  k ∉ fns -> stream_forall (fun r => rec_fields r !! k = None) (dict_rows fns rs).
Proof.
  intros Hk. induction rs as [|row rest IH|e]; simpl; [done| |done].
  destruct row; [done|]. split; [by apply make_record_absent | done].
Qed.

(** The loop writes the rows of records of the stream. *)
Lemma convert_loop_written (P : record -> Prop) (rows : rstream record) :
  stream_forall P rows ->
  exists outs, (convert_loop rows).1 = writerows outs /\ Forall (fun o => exists r, P r /\ convert_row r = Ok o) outs.
Proof.
  induction rows as [|r rows IH|e]; simpl; [by exists [] | | by exists []]. intros [Hr Hrest].
  destruct (convert_row r) as [o|e] eqn:E; [|by exists []].
  destruct (IH Hrest) as (outs & H1 & H2). destruct (convert_loop rows) as [t q]. simpl in *.
  exists (o :: outs). split; [by rewrite H1 | constructor; eauto].
Qed.

Lemma convert_row_no_ref (r : record) (o : list cell) :
  rec_fields r !! "Ref" = None -> convert_row r = Ok o -> head o = Some (CStr EmptyString).
Proof.
  intros H. rewrite convert_row_rotation. destruct (rotation_of _); simpl; [intros [= <-] | discriminate].
  unfold out_cells, field. simpl. by rewrite H.
Qed.

(** C37. A byte order mark is not removed ([encoding='utf-8'], not
    ['utf-8-sig']): for every UTF-8 text [t], the file holding the mark
    followed by [t] gives a header whose first name begins with U+FEFF;
    unless a later column is named [Ref], no record has a [Ref] field and
    every row written after the preamble has an empty Designator. *)
Theorem convert_csv_bom (fs : fsys) (inp out t : string) (fns : list string) (rows : rstream record) :
  fs !! inp = Some (FFile (bom +:+ t)) -> inp <> out -> (exists fs1, open_write fs out = Ok fs1) ->
  utf8_valid t = true -> dict_reader (bom +:+ t) = Ok (Some (fns, rows)) -> "Ref" ∉ tail fns ->
  (exists f, head fns = Some (bom +:+ f)) /\
  exists outs, (convert_csv_to_neoden fs inp out).1 !! out = Some (FFile (preamble_text +:+ writerows outs)) /\
    Forall (fun o => head o = Some (CStr EmptyString)) outs.
Proof.
  intros Hin Hne Hw Ht Hd Href. unfold dict_reader in Hd.
  destruct (csv_reader (bom +:+ t)) as [|fns' rest|e] eqn:E; [discriminate| |discriminate].
  injection Hd as <- <-. destruct (csv_reader_bom t fns' rest Ht E) as (f & rest' & ->).
  split; [by exists f|].
  assert (Hnot : "Ref" ∉ (bom +:+ f) :: rest').
  { apply not_elem_of_cons. split; [|done]. unfold bom. by rewrite !string_app_cons. }
  destruct (convert_loop_written _ _ (dict_rows_absent "Ref" _ rest Hnot)) as (outs & Hl & Houts).
  rewrite (convert_opened fs inp out _ Hin Hw). destruct (String.eqb_spec inp out); [done|]. cbv zeta.
  unfold dict_reader. rewrite E. destruct (convert_loop _) as [t' q]. simpl in Hl. subst t'.
  exists outs. split; [by destruct q; unfold close_output; simpl; rewrite lookup_insert_eq|].
  apply (Forall_impl _ _ _ Houts). intros o (r & Hr & Ho). by apply (convert_row_no_ref r).
Qed.

Lemma convert_csv_bom_witness :
  (exists f, head ((bom +:+ "Ref") :: tail kicad_header) = Some (bom +:+ f)) /\
  exists outs, (convert_csv_to_neoden (<["in.csv" := FFile (bom +:+ kicad_text)]> ∅) "in.csv" "out.csv").1
                 !! "out.csv" = Some (FFile (preamble_text +:+ writerows outs)) /\
    Forall (fun o => head o = Some (CStr EmptyString)) outs.
Proof.
  apply (convert_csv_bom _ "in.csv" "out.csv" kicad_text ((bom +:+ "Ref") :: tail kicad_header)
           (dict_rows ((bom +:+ "Ref") :: tail kicad_header) (RCons ["R1"; "10k"; "0402"; "12.5"; "34.2"; "90"; "Top"] RNil)));
    [reflexivity | discriminate | eexists; reflexivity | vm_compute; reflexivity | vm_compute; reflexivity |].
  apply (bool_decide_unpack _). vm_compute. reflexivity.
Defined.

End Roundtrip.
